(** * go-fAST: error collector, parser diagnostics and ESTree serializer

    A shallow embedding of the Go sources of the repository:
    - the error file of package [parser]: [SyntaxError], [ErrorList],
      [positionToLineColumn] and the parser's [errorUnexpectedToken];
    - [serializer/serializer.go]: the visitor that writes ESTree JSON;
    - [wasm/main.go]: the host entry point [parseJS].

    Go's [string] is a sequence of bytes and is modelled by [string] (a list of
    8-bit [ascii]); Go's [int] (64 bits on every target of the repository,
    wasm included) is modelled by [Z] with the wrap-around written out. *)

From Stdlib Require Import ZArith Ascii String DecimalString Lia List.
From Stdlib Require Import DecimalFacts DecimalPos.
From Stdlib Require Import Floats.SpecFloat.
From stdpp Require Import base list strings gmap.
Import ListNotations.
Set Warnings "-register-all,-abstract-large-number".
Local Open Scope Z_scope.

(** [simpl] may unfold [+:+] on a string that starts with a known byte. *)
#[local] Arguments String.append !s1 s2 : simpl nomatch.

(** ** Go integers *)

Module GoInt.

Definition min_int : Z := - 2 ^ 63.
Definition max_int : Z := 2 ^ 63 - 1.

(** Two's complement wrap-around of a 64-bit signed operation. *)
Definition wrap (z : Z) : Z := (z + 2 ^ 63) mod 2 ^ 64 - 2 ^ 63.

Definition in_range (z : Z) : Prop := min_int <= z <= max_int.

(** [strconv.Itoa], [strconv.FormatInt(n, 10)] and the [%d] verb. *)
Definition Itoa (z : Z) : string := NilZero.string_of_int (Z.to_int z).

End GoInt.

(** ** Strings as byte sequences *)

Definition LF : ascii := "010"%char.

Definition len (s : string) : Z := Z.of_nat (String.length s).

(** [s[0:n]], cut at the end of [s]. *)
Fixpoint str_take (n : nat) (s : string) : string :=
  match n, s with
  | S n', String c s' => String c (str_take n' s')
  | _, _ => EmptyString
  end.

Fixpoint has_newline (s : string) : bool :=
  match s with
  | EmptyString => false
  | String c s' => Ascii.eqb c LF || has_newline s'
  end.

(** Number of ['\n'] bytes of [s]. *)
Fixpoint count_newlines (s : string) : Z :=
  match s with
  | EmptyString => 0
  | String c s' => (if Ascii.eqb c LF then 1 else 0) + count_newlines s'
  end.

(** The part of [s] that follows its last ['\n'] (all of [s] when it has none). *)
Fixpoint after_last_newline (s : string) : string :=
  match s with
  | EmptyString => EmptyString
  | String c s' =>
      if has_newline s' then after_last_newline s'
      else if Ascii.eqb c LF then s' else s
  end.

(** ** [fmt.Sprintf]

    The verbs used by the repository are [%s], [%v] and [%d], without flags
    or widths; arguments are strings and ints.  A verb that does not fit its
    argument, a missing argument and left-over arguments are rendered the way
    package [fmt] reports them. *)

Inductive fmt_arg : Type :=
| AStr (s : string)
| AInt (z : Z).

Definition fmt_type_value (a : fmt_arg) : string :=
  match a with
  | AStr s => "string=" +:+ s
  | AInt z => "int=" +:+ GoInt.Itoa z
  end.

Definition fmt_bad_verb (v : ascii) (a : fmt_arg) : string :=
  "%!" +:+ String v ("(" +:+ fmt_type_value a +:+ ")").

Definition fmt_verb (v : ascii) (a : fmt_arg) : string :=
  match a with
  | AStr s =>
      if Ascii.eqb v "s" || Ascii.eqb v "v" then s else fmt_bad_verb v a
  | AInt z =>
      if Ascii.eqb v "d" || Ascii.eqb v "v" then GoInt.Itoa z else fmt_bad_verb v a
  end.

Fixpoint fmt_extra (args : list fmt_arg) : string :=
  match args with
  | [] => ""
  | [a] => fmt_type_value a
  | a :: args' => fmt_type_value a +:+ ", " +:+ fmt_extra args'
  end.

Fixpoint Sprintf (format : string) (args : list fmt_arg) : string :=
  match format with
  | EmptyString =>
      match args with
      | [] => ""
      | _ => "%!(EXTRA " +:+ fmt_extra args +:+ ")"
      end
  | String c rest =>
      if Ascii.eqb c "%" then
        match rest with
        | EmptyString => "%!(NOVERB)" +:+ Sprintf rest args
        | String v rest' =>
            if Ascii.eqb v "%" then String "%" (Sprintf rest' args)
            else
              match args with
              | [] => "%!" +:+ String v ("(MISSING)" +:+ Sprintf rest' [])
              | a :: args' => fmt_verb v a +:+ Sprintf rest' args'
              end
        end
      else String c (Sprintf rest args)
  end.

(** ** Tokens ([token.Token])

    The kinds named by the two Go files; every other kind of the token package
    is an [Other]. *)

Module token.

Inductive Token : Type :=
| Illegal | Eof | Identifier | Keyword | EscapedReservedWord
| String | Number | Boolean | Null
| Plus | Minus | Multiply | Exponent | Slash | Remainder
| And | Or | ExclusiveOr | ShiftLeft | ShiftRight | UnsignedShiftRight
| LogicalAnd | LogicalOr | Coalesce
| Equal | StrictEqual | NotEqual | StrictNotEqual
| Less | Greater | LessOrEqual | GreaterOrEqual
| Increment | Decrement | Not | BitwiseNot
| Typeof | Void | Delete | In | InstanceOf
| Assign | AddAssign | SubtractAssign | MultiplyAssign | ExponentAssign
| QuotientAssign | RemainderAssign | AndAssign | OrAssign
| ExclusiveOrAssign | ShiftLeftAssign | ShiftRightAssign
| UnsignedShiftRightAssign
| Other (code : nat).

Definition eq_dec (a b : Token) : {a = b} + {a <> b}.
Proof. decide equality. apply Nat.eq_dec. Defined.

Definition eqb (a b : Token) : bool := if eq_dec a b then true else false.

End token.

(** ** The error collector (package [parser]) *)

(** [ast.Idx]: a 1-based byte offset, [0] when unset. *)
Definition Idx : Type := Z.

Record SyntaxError : Type := mkSyntaxError {
  Message : string;
  Line : Z;
  Column : Z;
  Offset : Z
}.

Definition SyntaxError_Error (e : SyntaxError) : string :=
  Sprintf "%s (line %d, column %d)" [AStr (Message e); AInt (Line e); AInt (Column e)].

(** The loop of [positionToLineColumn]; [rest] is [src[i:]].  The counter [i]
    never exceeds [len(src)], so [i++] does not wrap. *)
Fixpoint positionToLineColumn_loop (rest : string) (i offset line col : Z) : Z * Z :=
  match rest with
  | EmptyString => (line, col)
  | String c rest' =>
      if i <? offset then
        if Ascii.eqb c LF then
          positionToLineColumn_loop rest' (i + 1) offset (GoInt.wrap (line + 1)) 1
        else
          positionToLineColumn_loop rest' (i + 1) offset line (GoInt.wrap (col + 1))
      else (line, col)
  end.

Definition positionToLineColumn (src : string) (offset : Z) : Z * Z :=
  positionToLineColumn_loop src 0 offset 1 1.

Definition ErrorList : Type := list SyntaxError.

Definition ErrorList_Add (e : ErrorList) (src : string) (idx : Idx) (msg : string) : ErrorList :=
  let offset := GoInt.wrap (idx - 1) in
  let offset := if offset <? 0 then 0 else offset in
  let '(line, col) := positionToLineColumn src offset in
  e ++ [ {| Message := msg; Line := line; Column := col; Offset := offset |} ].

Definition ErrorList_Error (e : ErrorList) : string :=
  match e with
  | [] => "no errors"
  | [e0] => SyntaxError_Error e0
  | e0 :: _ =>
      Sprintf "%s (and %d more errors)"
        [AStr (SyntaxError_Error e0); AInt (Z.of_nat (length e) - 1)]
  end.

(** [Err]: the [error] interface value, [None] for Go's [nil]. *)
Definition ErrorList_Err (e : ErrorList) : option ErrorList :=
  if Z.of_nat (length e) =? 0 then None else Some e.

(** ** The syntax tree ([ast]) *)

(** Modelled from the spec: package [ast] is not among the sources; the node
    types below are the struct fields the serializer reads.  Following the
    data model of the spec every node stores its own span, except the two
    nodes the serializer's comments document as computing it from their
    children: [Program] (both ends) and [CaseStatement] (its end).
    An interface-typed slot ([Expr], [Stmt], [Target], ...) is an [option N],
    [None] being Go's nil interface; the wrapper structs [ast.Expression],
    [ast.Statement], [ast.Property] and [ast.ClassElement] around such a slot
    are identified with it.  A pointer the serializer tests against nil is an
    [option]; a pointer it dereferences without a test is taken to be set. *)

Module ast.

Definition ScopeContext : Type := Z.
Definition float64 : Type := spec_float.
Definition PropertyKind : Type := string.

Record Span : Type := mkSpan { span_Idx0 : Idx; span_Idx1 : Idx }.

Record Identifier : Type := mkIdentifier {
  Identifier_Name : string;
  Identifier_ScopeContext : ScopeContext;
  Identifier_span : Span
}.

Record PrivateIdentifier : Type := mkPrivateIdentifier {
  PrivateIdentifier_Identifier : Identifier;
  PrivateIdentifier_span : Span
}.

Record BooleanLiteral : Type := mkBooleanLiteral {
  BooleanLiteral_Value : bool;
  BooleanLiteral_span : Span
}.

Record NullLiteral : Type := mkNullLiteral { NullLiteral_span : Span }.

Record NumberLiteral : Type := mkNumberLiteral {
  NumberLiteral_Value : float64;
  NumberLiteral_Raw : option string;
  NumberLiteral_span : Span
}.

Record StringLiteral : Type := mkStringLiteral {
  StringLiteral_Value : string;
  StringLiteral_Raw : option string;
  StringLiteral_span : Span
}.

Record RegExpLiteral : Type := mkRegExpLiteral {
  RegExpLiteral_Pattern : string;
  RegExpLiteral_Flags : string;
  RegExpLiteral_span : Span
}.

Record TemplateElement : Type := mkTemplateElement {
  TemplateElement_Literal : string;
  TemplateElement_Parsed : string;
  TemplateElement_span : Span
}.

Record ThisExpression : Type := mkThisExpression { ThisExpression_span : Span }.
Record SuperExpression : Type := mkSuperExpression { SuperExpression_span : Span }.
Record EmptyStatement : Type := mkEmptyStatement { EmptyStatement_span : Span }.
Record DebuggerStatement : Type := mkDebuggerStatement { DebuggerStatement_span : Span }.

Record MetaProperty : Type := mkMetaProperty {
  MetaProperty_Meta : Identifier;
  MetaProperty_Property : Identifier;
  MetaProperty_span : Span
}.

Record BreakStatement : Type := mkBreakStatement {
  BreakStatement_Label : option Identifier;
  BreakStatement_span : Span
}.

Record ContinueStatement : Type := mkContinueStatement {
  ContinueStatement_Label : option Identifier;
  ContinueStatement_span : Span
}.

Record Program {N : Type} : Type := mkProgram {
  Program_Body : list (option N)
}.
Arguments Program N : clear implicits.

Record BinaryExpression {N : Type} : Type := mkBinaryExpression {
  BinaryExpression_Operator : token.Token;
  BinaryExpression_Left : option N;
  BinaryExpression_Right : option N;
  BinaryExpression_span : Span
}.
Arguments BinaryExpression N : clear implicits.

Record UnaryExpression {N : Type} : Type := mkUnaryExpression {
  UnaryExpression_Operator : token.Token;
  UnaryExpression_Operand : option N;
  UnaryExpression_span : Span
}.
Arguments UnaryExpression N : clear implicits.

Record UpdateExpression {N : Type} : Type := mkUpdateExpression {
  UpdateExpression_Operator : token.Token;
  UpdateExpression_Postfix : bool;
  UpdateExpression_Operand : option N;
  UpdateExpression_span : Span
}.
Arguments UpdateExpression N : clear implicits.

Record AssignExpression {N : Type} : Type := mkAssignExpression {
  AssignExpression_Operator : token.Token;
  AssignExpression_Left : option N;
  AssignExpression_Right : option N;
  AssignExpression_span : Span
}.
Arguments AssignExpression N : clear implicits.

Record ConditionalExpression {N : Type} : Type := mkConditionalExpression {
  ConditionalExpression_Test : option N;
  ConditionalExpression_Consequent : option N;
  ConditionalExpression_Alternate : option N;
  ConditionalExpression_span : Span
}.
Arguments ConditionalExpression N : clear implicits.

Record CallExpression {N : Type} : Type := mkCallExpression {
  CallExpression_Callee : option N;
  CallExpression_ArgumentList : list (option N);
  CallExpression_span : Span
}.
Arguments CallExpression N : clear implicits.

Record NewExpression {N : Type} : Type := mkNewExpression {
  NewExpression_Callee : option N;
  NewExpression_ArgumentList : list (option N);
  NewExpression_span : Span
}.
Arguments NewExpression N : clear implicits.

Record ComputedProperty {N : Type} : Type := mkComputedProperty {
  ComputedProperty_Expr : option N;
  ComputedProperty_span : Span
}.
Arguments ComputedProperty N : clear implicits.

Record MemberProperty {N : Type} : Type := mkMemberProperty {
  MemberProperty_Prop : option N;
  MemberProperty_span : Span
}.
Arguments MemberProperty N : clear implicits.

Record MemberExpression {N : Type} : Type := mkMemberExpression {
  MemberExpression_Object : option N;
  MemberExpression_Property : MemberProperty N;
  MemberExpression_span : Span
}.
Arguments MemberExpression N : clear implicits.

Record ArrayLiteral {N : Type} : Type := mkArrayLiteral {
  ArrayLiteral_Value : list (option N);
  ArrayLiteral_span : Span
}.
Arguments ArrayLiteral N : clear implicits.

Record ObjectLiteral {N : Type} : Type := mkObjectLiteral {
  ObjectLiteral_Value : list (option N);
  ObjectLiteral_span : Span
}.
Arguments ObjectLiteral N : clear implicits.

Record PropertyKeyed {N : Type} : Type := mkPropertyKeyed {
  PropertyKeyed_Key : option N;
  PropertyKeyed_Value : option N;
  PropertyKeyed_Kind : PropertyKind;
  PropertyKeyed_Computed : bool;
  PropertyKeyed_span : Span
}.
Arguments PropertyKeyed N : clear implicits.

Record PropertyShort {N : Type} : Type := mkPropertyShort {
  PropertyShort_Name : Identifier;
  PropertyShort_Initializer : option (option N);
  PropertyShort_span : Span
}.
Arguments PropertyShort N : clear implicits.

Record SequenceExpression {N : Type} : Type := mkSequenceExpression {
  SequenceExpression_Sequence : list (option N);
  SequenceExpression_span : Span
}.
Arguments SequenceExpression N : clear implicits.

Record YieldExpression {N : Type} : Type := mkYieldExpression {
  YieldExpression_Argument : option (option N);
  YieldExpression_Delegate : bool;
  YieldExpression_span : Span
}.
Arguments YieldExpression N : clear implicits.

Record AwaitExpression {N : Type} : Type := mkAwaitExpression {
  AwaitExpression_Argument : option N;
  AwaitExpression_span : Span
}.
Arguments AwaitExpression N : clear implicits.

Record SpreadElement {N : Type} : Type := mkSpreadElement {
  SpreadElement_Expression : option N;
  SpreadElement_span : Span
}.
Arguments SpreadElement N : clear implicits.

Record TemplateLiteral {N : Type} : Type := mkTemplateLiteral {
  TemplateLiteral_Elements : list TemplateElement;
  TemplateLiteral_Expressions : list (option N);
  TemplateLiteral_span : Span
}.
Arguments TemplateLiteral N : clear implicits.

Record BindingTarget {N : Type} : Type := mkBindingTarget {
  BindingTarget_Target : option N;
  BindingTarget_span : Span
}.
Arguments BindingTarget N : clear implicits.

Record VariableDeclarator {N : Type} : Type := mkVariableDeclarator {
  VariableDeclarator_Target : BindingTarget N;
  VariableDeclarator_Initializer : option (option N);
  VariableDeclarator_span : Span
}.
Arguments VariableDeclarator N : clear implicits.

Record ParameterList {N : Type} : Type := mkParameterList {
  ParameterList_List : list (VariableDeclarator N);
  ParameterList_Rest : option N
}.
Arguments ParameterList N : clear implicits.

Record BlockStatement {N : Type} : Type := mkBlockStatement {
  BlockStatement_List : list (option N);
  BlockStatement_ScopeContext : ScopeContext;
  BlockStatement_span : Span
}.
Arguments BlockStatement N : clear implicits.

Record FunctionLiteral {N : Type} : Type := mkFunctionLiteral {
  FunctionLiteral_Name : option Identifier;
  FunctionLiteral_ParameterList : ParameterList N;
  FunctionLiteral_Body : BlockStatement N;
  FunctionLiteral_Generator : bool;
  FunctionLiteral_Async : bool;
  FunctionLiteral_ScopeContext : ScopeContext;
  FunctionLiteral_span : Span
}.
Arguments FunctionLiteral N : clear implicits.

Record ConciseBody {N : Type} : Type := mkConciseBody {
  ConciseBody_Body : option N;
  ConciseBody_span : Span
}.
Arguments ConciseBody N : clear implicits.

Record ArrowFunctionLiteral {N : Type} : Type := mkArrowFunctionLiteral {
  ArrowFunctionLiteral_ParameterList : ParameterList N;
  ArrowFunctionLiteral_Body : ConciseBody N;
  ArrowFunctionLiteral_Async : bool;
  ArrowFunctionLiteral_ScopeContext : ScopeContext;
  ArrowFunctionLiteral_span : Span
}.
Arguments ArrowFunctionLiteral N : clear implicits.

Record ExpressionStatement {N : Type} : Type := mkExpressionStatement {
  ExpressionStatement_Expression : option N;
  ExpressionStatement_span : Span
}.
Arguments ExpressionStatement N : clear implicits.

Record IfStatement {N : Type} : Type := mkIfStatement {
  IfStatement_Test : option N;
  IfStatement_Consequent : option N;
  IfStatement_Alternate : option (option N);
  IfStatement_span : Span
}.
Arguments IfStatement N : clear implicits.

Record VariableDeclaration {N : Type} : Type := mkVariableDeclaration {
  VariableDeclaration_List : list (VariableDeclarator N);
  VariableDeclaration_Token : token.Token;
  VariableDeclaration_span : Span
}.
Arguments VariableDeclaration N : clear implicits.

Record ForLoopInitializer {N : Type} : Type := mkForLoopInitializer {
  ForLoopInitializer_Initializer : option N;
  ForLoopInitializer_span : Span
}.
Arguments ForLoopInitializer N : clear implicits.

Record ForStatement {N : Type} : Type := mkForStatement {
  ForStatement_Initializer : option (ForLoopInitializer N);
  ForStatement_Test : option N;
  ForStatement_Update : option N;
  ForStatement_Body : option N;
  ForStatement_span : Span
}.
Arguments ForStatement N : clear implicits.

Record ForInto {N : Type} : Type := mkForInto {
  ForInto_Into : option N;
  ForInto_span : Span
}.
Arguments ForInto N : clear implicits.

Record ForInStatement {N : Type} : Type := mkForInStatement {
  ForInStatement_Into : ForInto N;
  ForInStatement_Source : option N;
  ForInStatement_Body : option N;
  ForInStatement_span : Span
}.
Arguments ForInStatement N : clear implicits.

Record ForOfStatement {N : Type} : Type := mkForOfStatement {
  ForOfStatement_Into : ForInto N;
  ForOfStatement_Source : option N;
  ForOfStatement_Body : option N;
  ForOfStatement_span : Span
}.
Arguments ForOfStatement N : clear implicits.

Record WhileStatement {N : Type} : Type := mkWhileStatement {
  WhileStatement_Test : option N;
  WhileStatement_Body : option N;
  WhileStatement_span : Span
}.
Arguments WhileStatement N : clear implicits.

Record DoWhileStatement {N : Type} : Type := mkDoWhileStatement {
  DoWhileStatement_Test : option N;
  DoWhileStatement_Body : option N;
  DoWhileStatement_span : Span
}.
Arguments DoWhileStatement N : clear implicits.

Record CaseStatement {N : Type} : Type := mkCaseStatement {
  CaseStatement_Case : Idx;
  CaseStatement_Test : option (option N);
  CaseStatement_Consequent : list (option N)
}.
Arguments CaseStatement N : clear implicits.

Record SwitchStatement {N : Type} : Type := mkSwitchStatement {
  SwitchStatement_Discriminant : option N;
  SwitchStatement_Body : list (CaseStatement N);
  SwitchStatement_span : Span
}.
Arguments SwitchStatement N : clear implicits.

Record CatchStatement {N : Type} : Type := mkCatchStatement {
  CatchStatement_Parameter : option (BindingTarget N);
  CatchStatement_Body : BlockStatement N;
  CatchStatement_span : Span
}.
Arguments CatchStatement N : clear implicits.

Record TryStatement {N : Type} : Type := mkTryStatement {
  TryStatement_Body : BlockStatement N;
  TryStatement_Catch : option (CatchStatement N);
  TryStatement_Finally : option (BlockStatement N);
  TryStatement_span : Span
}.
Arguments TryStatement N : clear implicits.

Record ThrowStatement {N : Type} : Type := mkThrowStatement {
  ThrowStatement_Argument : option N;
  ThrowStatement_span : Span
}.
Arguments ThrowStatement N : clear implicits.

Record ReturnStatement {N : Type} : Type := mkReturnStatement {
  ReturnStatement_Argument : option (option N);
  ReturnStatement_span : Span
}.
Arguments ReturnStatement N : clear implicits.

Record LabelledStatement {N : Type} : Type := mkLabelledStatement {
  LabelledStatement_Label : Identifier;
  LabelledStatement_Statement : option N;
  LabelledStatement_span : Span
}.
Arguments LabelledStatement N : clear implicits.

Record WithStatement {N : Type} : Type := mkWithStatement {
  WithStatement_Object : option N;
  WithStatement_Body : option N;
  WithStatement_span : Span
}.
Arguments WithStatement N : clear implicits.

Record FunctionDeclaration {N : Type} : Type := mkFunctionDeclaration {
  FunctionDeclaration_Function : FunctionLiteral N;
  FunctionDeclaration_span : Span
}.
Arguments FunctionDeclaration N : clear implicits.

Record ArrayPattern {N : Type} : Type := mkArrayPattern {
  ArrayPattern_Elements : list (option N);
  ArrayPattern_Rest : option (option N);
  ArrayPattern_span : Span
}.
Arguments ArrayPattern N : clear implicits.

Record ObjectPattern {N : Type} : Type := mkObjectPattern {
  ObjectPattern_Properties : list (option N);
  ObjectPattern_Rest : option N;
  ObjectPattern_span : Span
}.
Arguments ObjectPattern N : clear implicits.

Record ClassLiteral {N : Type} : Type := mkClassLiteral {
  ClassLiteral_Name : option Identifier;
  ClassLiteral_SuperClass : option (option N);
  ClassLiteral_Body : list (option N);
  ClassLiteral_span : Span
}.
Arguments ClassLiteral N : clear implicits.

Record ClassDeclaration {N : Type} : Type := mkClassDeclaration {
  ClassDeclaration_Class : ClassLiteral N;
  ClassDeclaration_span : Span
}.
Arguments ClassDeclaration N : clear implicits.

Record MethodDefinition {N : Type} : Type := mkMethodDefinition {
  MethodDefinition_Key : option N;
  MethodDefinition_Body : FunctionLiteral N;
  MethodDefinition_Kind : PropertyKind;
  MethodDefinition_Computed : bool;
  MethodDefinition_Static : bool;
  MethodDefinition_span : Span
}.
Arguments MethodDefinition N : clear implicits.

Record FieldDefinition {N : Type} : Type := mkFieldDefinition {
  FieldDefinition_Key : option N;
  FieldDefinition_Initializer : option (option N);
  FieldDefinition_Computed : bool;
  FieldDefinition_Static : bool;
  FieldDefinition_span : Span
}.
Arguments FieldDefinition N : clear implicits.

Record ClassStaticBlock {N : Type} : Type := mkClassStaticBlock {
  ClassStaticBlock_Block : BlockStatement N;
  ClassStaticBlock_span : Span
}.
Arguments ClassStaticBlock N : clear implicits.

Record OptionalChain {N : Type} : Type := mkOptionalChain {
  OptionalChain_Base : option N;
  OptionalChain_span : Span
}.
Arguments OptionalChain N : clear implicits.

Record Optional {N : Type} : Type := mkOptional {
  Optional_Expr : option N;
  Optional_span : Span
}.
Arguments Optional N : clear implicits.

Record PrivateDotExpression {N : Type} : Type := mkPrivateDotExpression {
  PrivateDotExpression_Left : option N;
  PrivateDotExpression_Identifier : PrivateIdentifier;
  PrivateDotExpression_span : Span
}.
Arguments PrivateDotExpression N : clear implicits.

(** Modelled from the spec: [ast.Expression] as a node of its own, the value
    a [ConciseBody], a [ForLoopInitializer] or a [ForInto] holds when it is an
    expression. *)
Record Expression {N : Type} : Type := mkExpression {
  Expression_Expr : option N
}.
Arguments Expression N : clear implicits.

(** Modelled from the spec: the dynamic type of an [ast.VisitableNode], one
    constructor per node type the serializer has a visit method for. *)
Inductive Node : Type :=
| NProgram (n : Program Node)
| NIdentifier (n : Identifier)
| NPrivateIdentifier (n : PrivateIdentifier)
| NBooleanLiteral (n : BooleanLiteral)
| NNullLiteral (n : NullLiteral)
| NNumberLiteral (n : NumberLiteral)
| NStringLiteral (n : StringLiteral)
| NRegExpLiteral (n : RegExpLiteral)
| NBinaryExpression (n : BinaryExpression Node)
| NUnaryExpression (n : UnaryExpression Node)
| NUpdateExpression (n : UpdateExpression Node)
| NAssignExpression (n : AssignExpression Node)
| NConditionalExpression (n : ConditionalExpression Node)
| NCallExpression (n : CallExpression Node)
| NNewExpression (n : NewExpression Node)
| NMemberExpression (n : MemberExpression Node)
| NMemberProperty (n : MemberProperty Node)
| NComputedProperty (n : ComputedProperty Node)
| NArrayLiteral (n : ArrayLiteral Node)
| NObjectLiteral (n : ObjectLiteral Node)
| NPropertyKeyed (n : PropertyKeyed Node)
| NPropertyShort (n : PropertyShort Node)
| NSequenceExpression (n : SequenceExpression Node)
| NThisExpression (n : ThisExpression)
| NSuperExpression (n : SuperExpression)
| NYieldExpression (n : YieldExpression Node)
| NAwaitExpression (n : AwaitExpression Node)
| NSpreadElement (n : SpreadElement Node)
| NTemplateLiteral (n : TemplateLiteral Node)
| NMetaProperty (n : MetaProperty)
| NFunctionLiteral (n : FunctionLiteral Node)
| NArrowFunctionLiteral (n : ArrowFunctionLiteral Node)
| NConciseBody (n : ConciseBody Node)
| NBlockStatement (n : BlockStatement Node)
| NExpressionStatement (n : ExpressionStatement Node)
| NEmptyStatement (n : EmptyStatement)
| NIfStatement (n : IfStatement Node)
| NForStatement (n : ForStatement Node)
| NForLoopInitializer (n : ForLoopInitializer Node)
| NForInStatement (n : ForInStatement Node)
| NForOfStatement (n : ForOfStatement Node)
| NForInto (n : ForInto Node)
| NWhileStatement (n : WhileStatement Node)
| NDoWhileStatement (n : DoWhileStatement Node)
| NSwitchStatement (n : SwitchStatement Node)
| NCaseStatement (n : CaseStatement Node)
| NTryStatement (n : TryStatement Node)
| NCatchStatement (n : CatchStatement Node)
| NThrowStatement (n : ThrowStatement Node)
| NReturnStatement (n : ReturnStatement Node)
| NBreakStatement (n : BreakStatement)
| NContinueStatement (n : ContinueStatement)
| NLabelledStatement (n : LabelledStatement Node)
| NWithStatement (n : WithStatement Node)
| NDebuggerStatement (n : DebuggerStatement)
| NVariableDeclaration (n : VariableDeclaration Node)
| NVariableDeclarator (n : VariableDeclarator Node)
| NFunctionDeclaration (n : FunctionDeclaration Node)
| NArrayPattern (n : ArrayPattern Node)
| NObjectPattern (n : ObjectPattern Node)
| NBindingTarget (n : BindingTarget Node)
| NClassLiteral (n : ClassLiteral Node)
| NClassDeclaration (n : ClassDeclaration Node)
| NMethodDefinition (n : MethodDefinition Node)
| NFieldDefinition (n : FieldDefinition Node)
| NClassStaticBlock (n : ClassStaticBlock Node)
| NOptionalChain (n : OptionalChain Node)
| NOptional (n : Optional Node)
| NPrivateDotExpression (n : PrivateDotExpression Node)
| NExpression (n : Expression Node).

End ast.

(** ** The serializer ([serializer/serializer.go]) *)

(** A Go call either returns or panics. *)
Inductive result (A : Type) : Type :=
| Ok (a : A)
| Panic (msg : string).
Arguments Ok {A} a.
Arguments Panic {A} msg.

(** A method of [*Serializer]: it appends to [s.out] (here the bytes of the
    slice, oldest first) or panics. *)
Definition Ser : Type := string -> result string.

Definition skip : Ser := fun out => Ok out.

Definition seq (a b : Ser) : Ser :=
  fun out => match a out with Ok out' => b out' | Panic msg => Panic msg end.

Definition panic (msg : string) : Ser := fun _ => Panic msg.

Declare Scope ser_scope.
Delimit Scope ser_scope with ser.
Bind Scope ser_scope with Ser.
Notation "a ;; b" := (seq a b)
  (at level 100, b at level 200, right associativity) : ser_scope.
Local Open Scope ser_scope.

Definition when (b : bool) (a : Ser) : Ser := if b then a else skip.

(** [let v := r in k v] where evaluating [r] may panic. *)
Definition eval {A : Type} (r : result A) (k : A -> Ser) : Ser :=
  match r with Ok a => k a | Panic msg => panic msg end.

(** [for i, x := range l { f i x }] *)
Fixpoint forEach_from {A : Type} (f : Z -> A -> Ser) (i : Z) (l : list A) : Ser :=
  match l with
  | [] => skip
  | x :: l' => f i x ;; forEach_from f (i + 1) l'
  end.

Definition forEach {A : Type} (l : list A) (f : Z -> A -> Ser) : Ser :=
  forEach_from f 0 l.

(** [f l[len(l)-1]], and [d] when [l] is empty. *)
Fixpoint on_last {A B : Type} (f : A -> B) (d : B) (l : list A) : B :=
  match l with
  | [] => d
  | [x] => f x
  | _ :: l' => on_last f d l'
  end.

(** The Go string literals of the serializer are full of double quotes; they
    are written here with an apostrophe in place of each double quote (no
    literal of the source contains an apostrophe) and [q] puts the double
    quotes back. *)
Fixpoint q (s : string) : string :=
  match s with
  | EmptyString => EmptyString
  | String c s' => String (if Ascii.eqb c "'" then "034"%char else c) (q s')
  end.

Definition writeStr (str : string) : Ser := fun out => Ok (out +:+ str).

Definition writeByte (b : ascii) : Ser := fun out => Ok (out +:+ String b EmptyString).

Definition byte_val (c : ascii) : Z := Z.of_N (N_of_ascii c).

(** [s.writeByte(str[i])] *)
Definition writeByteAt (str : string) (i : Z) : Ser :=
  match String.get (Z.to_nat i) str with
  | Some b => writeByte b
  | None => panic "runtime error: index out of range"
  end.

(** The [switch c] of [writeString], on the byte [c := str[i]]. *)
Definition writeString_byte (c : ascii) : Ser :=
  if Ascii.eqb c "034" then writeStr (q "\'")
  else if Ascii.eqb c "\" then writeStr "\\"
  else if Ascii.eqb c "010" then writeStr "\n"
  else if Ascii.eqb c "013" then writeStr "\r"
  else if Ascii.eqb c "009" then writeStr "\t"
  else if byte_val c <? 32 then
    writeStr "\u00" ;;
    writeByteAt "0123456789abcdef" (Z.shiftr (byte_val c) 4) ;;
    writeByteAt "0123456789abcdef" (Z.land (byte_val c) 15)
  else writeByte c.

(** [for i := 0; i < len(str); i++ { ... }] *)
Fixpoint writeString_loop (str : string) : Ser :=
  match str with
  | EmptyString => skip
  | String c rest => writeString_byte c ;; writeString_loop rest
  end.

Definition writeString (str : string) : Ser :=
  writeByte "034" ;; writeString_loop str ;; writeByte "034".

Definition smallInts : list string := [
  "0"; "1"; "2"; "3"; "4"; "5"; "6"; "7"; "8"; "9";
  "10"; "11"; "12"; "13"; "14"; "15"; "16"; "17"; "18"; "19";
  "20"; "21"; "22"; "23"; "24"; "25"; "26"; "27"; "28"; "29";
  "30"; "31"; "32"; "33"; "34"; "35"; "36"; "37"; "38"; "39";
  "40"; "41"; "42"; "43"; "44"; "45"; "46"; "47"; "48"; "49";
  "50"; "51"; "52"; "53"; "54"; "55"; "56"; "57"; "58"; "59";
  "60"; "61"; "62"; "63"; "64"; "65"; "66"; "67"; "68"; "69";
  "70"; "71"; "72"; "73"; "74"; "75"; "76"; "77"; "78"; "79";
  "80"; "81"; "82"; "83"; "84"; "85"; "86"; "87"; "88"; "89";
  "90"; "91"; "92"; "93"; "94"; "95"; "96"; "97"; "98"; "99" ].

Definition writeSmallInt (n : Z) : Ser :=
  match smallInts !! Z.to_nat n with
  | Some str => writeStr str
  | None => panic "runtime error: index out of range"
  end.

Definition writeInt (n : Z) : Ser :=
  if (0 <=? n) && (n <? 100) then writeSmallInt n
  else writeStr (GoInt.Itoa n).

Definition writeInt64 (n : Z) : Ser :=
  if (0 <=? n) && (n <? 100) then writeSmallInt n
  else writeStr (GoInt.Itoa n).

Definition writeBool (b : bool) : Ser :=
  if b then writeStr "true" else writeStr "false".

Definition writeNull : Ser := writeStr "null".

(** *** [float64]

    A [float64] is a binary64 value of the standard library's specification
    of IEEE 754 ([spec_float] with precision 53 and maximal exponent 1024). *)

Definition float64_of_Z (z : Z) : ast.float64 := binary_normalize 53 1024 z 0 false.

(** The integer part of a finite float, rounding toward zero. *)
Definition float64_trunc (n : ast.float64) : option Z :=
  match n with
  | S754_zero _ => Some 0
  | S754_finite sign m e =>
      let a := if 0 <=? e then Z.shiftl (Z.pos m) e else Z.shiftr (Z.pos m) (- e) in
      Some (if sign then - a else a)
  | _ => None
  end.

Definition operatorStrings (t : token.Token) : option string :=
  match t with
  | token.Plus => Some (q "'+'")
  | token.Minus => Some (q "'-'")
  | token.Multiply => Some (q "'*'")
  | token.Exponent => Some (q "'**'")
  | token.Slash => Some (q "'/'")
  | token.Remainder => Some (q "'%'")
  | token.And => Some (q "'&'")
  | token.Or => Some (q "'|'")
  | token.ExclusiveOr => Some (q "'^'")
  | token.ShiftLeft => Some (q "'<<'")
  | token.ShiftRight => Some (q "'>>'")
  | token.UnsignedShiftRight => Some (q "'>>>'")
  | token.LogicalAnd => Some (q "'&&'")
  | token.LogicalOr => Some (q "'||'")
  | token.Coalesce => Some (q "'??'")
  | token.Equal => Some (q "'=='")
  | token.StrictEqual => Some (q "'==='")
  | token.NotEqual => Some (q "'!='")
  | token.StrictNotEqual => Some (q "'!=='")
  | token.Less => Some (q "'<'")
  | token.Greater => Some (q "'>'")
  | token.LessOrEqual => Some (q "'<='")
  | token.GreaterOrEqual => Some (q "'>='")
  | token.Increment => Some (q "'++'")
  | token.Decrement => Some (q "'--'")
  | token.Not => Some (q "'!'")
  | token.BitwiseNot => Some (q "'~'")
  | token.Typeof => Some (q "'typeof'")
  | token.Void => Some (q "'void'")
  | token.Delete => Some (q "'delete'")
  | token.In => Some (q "'in'")
  | token.InstanceOf => Some (q "'instanceof'")
  | token.Assign => Some (q "'='")
  | token.AddAssign => Some (q "'+='")
  | token.SubtractAssign => Some (q "'-='")
  | token.MultiplyAssign => Some (q "'*='")
  | token.ExponentAssign => Some (q "'**='")
  | token.QuotientAssign => Some (q "'/='")
  | token.RemainderAssign => Some (q "'%='")
  | token.AndAssign => Some (q "'&='")
  | token.OrAssign => Some (q "'|='")
  | token.ExclusiveOrAssign => Some (q "'^='")
  | token.ShiftLeftAssign => Some (q "'<<='")
  | token.ShiftRightAssign => Some (q "'>>='")
  | token.UnsignedShiftRightAssign => Some (q "'>>>='")
  | _ => None
  end.

(** Convert 1-based Go position to 0-based ESTree position; 0 if the
    position is unset (was 0). *)
Definition toESTreePos (pos : Idx) : Z :=
  if pos =? 0 then 0 else GoInt.wrap (pos - 1).

(** An [ast.Node] interface value: its two position methods. *)
Record NodePos : Type := mkNodePos {
  Idx0 : result Idx;
  Idx1 : result Idx
}.

Definition stored (sp : ast.Span) : NodePos :=
  {| Idx0 := Ok (ast.span_Idx0 sp); Idx1 := Ok (ast.span_Idx1 sp) |}.

Definition writePosition (node : NodePos) : Ser :=
  writeStr (q "'start':") ;;
  eval (Idx0 node) (fun i => writeInt (toESTreePos i)) ;;
  writeStr (q ",'end':") ;;
  eval (Idx1 node) (fun i => writeInt (toESTreePos i)).

Definition writePositionStartOnly (start : Idx) : Ser :=
  writeStr (q "'start':") ;;
  writeInt (toESTreePos start).

(** ** Strings as runes

    What the language does with [for _, c := range msg] and [string(c)]:
    the loop decodes one UTF-8 sequence at each step and, on a byte that
    starts none, yields U+FFFD and moves on by one byte; the conversion
    writes the UTF-8 encoding of a code point, and that of U+FFFD for a
    value that is none.  The byte ranges are those of package
    [unicode/utf8]. *)
Module utf8.

Definition RuneError : Z := 65533.

Definition byte (v : Z) : ascii := ascii_of_N (Z.to_N v).

(** A continuation byte, [0x80..0xBF]. *)
Definition is_cont (b : Z) : bool := (128 <=? b) && (b <=? 191).

(** [utf8.DecodeRuneInString]: the rune at the start of [s] and its width
    in bytes; [(RuneError, 1)] for a byte that starts no sequence, for an
    overlong form, a surrogate, a value above U+10FFFF and a sequence cut
    short. *)
Definition DecodeRune (s : string) : Z * nat :=
  match s with
  | EmptyString => (RuneError, 0%nat)
  | String c0 rest =>
      let b0 := byte_val c0 in
      if b0 <? 128 then (b0, 1%nat)
      else if b0 <? 194 then (RuneError, 1%nat)
      else if b0 <? 224 then
        match rest with
        | String c1 _ =>
            let b1 := byte_val c1 in
            if is_cont b1 then ((b0 - 192) * 64 + (b1 - 128), 2%nat)
            else (RuneError, 1%nat)
        | _ => (RuneError, 1%nat)
        end
      else if b0 <? 240 then
        match rest with
        | String c1 (String c2 _) =>
            let b1 := byte_val c1 in
            let b2 := byte_val c2 in
            if ((if b0 =? 224 then 160 else 128) <=? b1)
               && (b1 <=? (if b0 =? 237 then 159 else 191))
               && is_cont b2
            then ((b0 - 224) * 4096 + (b1 - 128) * 64 + (b2 - 128), 3%nat)
            else (RuneError, 1%nat)
        | _ => (RuneError, 1%nat)
        end
      else if b0 <? 245 then
        match rest with
        | String c1 (String c2 (String c3 _)) =>
            let b1 := byte_val c1 in
            let b2 := byte_val c2 in
            let b3 := byte_val c3 in
            if ((if b0 =? 240 then 144 else 128) <=? b1)
               && (b1 <=? (if b0 =? 244 then 143 else 191))
               && is_cont b2 && is_cont b3
            then ((b0 - 240) * 262144 + (b1 - 128) * 4096 + (b2 - 128) * 64
                  + (b3 - 128), 4%nat)
            else (RuneError, 1%nat)
        | _ => (RuneError, 1%nat)
        end
      else (RuneError, 1%nat)
  end.

(** [string(r)], that is [utf8.AppendRune]. *)
Definition EncodeRune (r : Z) : string :=
  if (0 <=? r) && (r <? 128) then String (byte r) EmptyString
  else if (0 <=? r) && (r <? 2048) then
    String (byte (192 + r / 64)) (String (byte (128 + r mod 64)) EmptyString)
  else if (r <? 0) || (1114111 <? r) || ((55296 <=? r) && (r <=? 57343)) then
    String (byte 239) (String (byte 191) (String (byte 189) EmptyString))
  else if r <? 65536 then
    String (byte (224 + r / 4096))
      (String (byte (128 + (r / 64) mod 64))
         (String (byte (128 + r mod 64)) EmptyString))
  else
    String (byte (240 + r / 262144))
      (String (byte (128 + (r / 4096) mod 64))
         (String (byte (128 + (r / 64) mod 64))
            (String (byte (128 + r mod 64)) EmptyString))).

End utf8.

Section GoFast.

(** What the sources use of the packages that are not among them. *)

(** [token.Token.String]. *)
Variable Token_String : token.Token -> string.

(** [ast.PropertyKindMethod]. *)
Variable PropertyKindMethod : ast.PropertyKind.

(** [strconv.FormatFloat(n, 'f', -1, 64)] on the finite values. *)
Variable FormatFloat_finite : ast.float64 -> string.

(** What the conversion [int64(n)] yields for a float the type [int64]
    cannot represent (the Go specification leaves the value to the
    implementation). *)
Variable int64_overflow : ast.float64 -> Z.

(** ** The parser's diagnostics (package [parser]) *)

Definition errUnexpectedToken : string := "Unexpected token %v".
Definition errUnexpectedEndOfInput : string := "Unexpected end of input".

(** The fields of [parser] that the error functions read and write. *)
Record parser : Type := mkParser {
  str : string;
  idx : Idx;
  literal : string;
  errors : ErrorList
}.

(** [p.error]: the parser after the call and the returned error, the last
    element of [p.errors]. *)
Definition parser_error (p : parser) (msg : string) (msgValues : list fmt_arg)
  : parser * option SyntaxError :=
  let msg := Sprintf msg msgValues in
  let errors' := ErrorList_Add (errors p) (str p) (idx p) msg in
  ({| str := str p; idx := idx p; literal := literal p; errors := errors' |},
   last errors').

(** [chr] is a rune, [-1] at the end of the input. *)
Definition errorUnexpected (p : parser) (chr : Z) : parser * option SyntaxError :=
  if chr =? -1 then parser_error p errUnexpectedEndOfInput []
  else parser_error p errUnexpectedToken [AStr (Token_String token.Illegal)].

Definition errorUnexpectedToken (p : parser) (tkn : token.Token)
  : parser * option SyntaxError :=
  match tkn with
  | token.Eof => parser_error p errUnexpectedEndOfInput []
  | _ =>
      let value := Token_String tkn in
      match tkn with
      | token.Boolean | token.Null =>
          let value := literal p in
          parser_error p errUnexpectedToken [AStr value]
      | token.Identifier => parser_error p "Unexpected identifier" []
      | token.Keyword => parser_error p "Unexpected reserved word" []
      | token.EscapedReservedWord =>
          parser_error p "Keyword must not contain escaped characters" []
      | token.Number => parser_error p "Unexpected number" []
      | token.String => parser_error p "Unexpected string" []
      | _ => parser_error p errUnexpectedToken [AStr value]
      end
  end.

(** ** Numbers and operators *)

Definition int64_of_float64 (n : ast.float64) : Z :=
  match float64_trunc n with
  | Some z =>
      if (GoInt.min_int <=? z) && (z <=? GoInt.max_int) then z
      else GoInt.wrap (int64_overflow n)
  | None => GoInt.wrap (int64_overflow n)
  end.

Definition FormatFloat (n : ast.float64) : string :=
  match n with
  | S754_nan => "NaN"
  | S754_infinity false => "+Inf"
  | S754_infinity true => "-Inf"
  | _ => FormatFloat_finite n
  end.

Definition writeNumber (n : ast.float64) : Ser :=
  if SFeqb n (float64_of_Z (int64_of_float64 n))
     && SFleb (float64_of_Z (- 10 ^ 15)) n
     && SFleb n (float64_of_Z (10 ^ 15))
  then writeInt64 (int64_of_float64 n)
  else writeStr (FormatFloat n).

Definition writeOperator (t : token.Token) : Ser :=
  match operatorStrings t with
  | Some str => writeStr str
  | None => writeString (Token_String t)
  end.

(** ** The visit methods

    Every method is written against the nodes [N] it may meet in an
    interface-typed slot: [VisitWith] is the dynamic dispatch
    [node.VisitWith(s)], [N_Idx0] and [N_Idx1] the position methods of a
    statement, and the three last variables the type switches and type
    assertions of the source. *)

Section Visitor.

Context {N : Type}.
Variable VisitWith : N -> Ser.
Variable N_Idx0 : N -> result Idx.
Variable N_Idx1 : N -> result Idx.
Variable typeSwitch_MemberProp :
  forall A : Type, N -> (ast.Identifier -> A) -> (ast.ComputedProperty N -> A) -> A -> A.
Variable typeSwitch_ExprOrDecl :
  forall A : Type, N -> (ast.Expression N -> A) -> (ast.VariableDeclaration N -> A) -> A -> A.
Variable is_BlockStatement : N -> bool.

(** Helper to serialize a child node. *)
Definition serialize (node : option N) : Ser :=
  match node with
  | None => writeStr "null"
  | Some node => VisitWith node
  end.

(** Modelled from the spec: the position methods of [ast.Statement], which
    forward to the statement held; package [ast] is not among the sources. *)
Definition Stmt_Idx0 (stmt : option N) : result Idx :=
  match stmt with
  | Some node => N_Idx0 node
  | None => Panic "runtime error: invalid memory address or nil pointer dereference"
  end.

(** Modelled from the spec: see [Stmt_Idx0]. *)
Definition Stmt_Idx1 (stmt : option N) : result Idx :=
  match stmt with
  | Some node => N_Idx1 node
  | None => Panic "runtime error: invalid memory address or nil pointer dereference"
  end.

(** Modelled from the spec: [ast.Program.Idx0], [n.Body[0].Idx0()]; package
    [ast] is not among the sources, the serializer's comment says that the
    method panics on an empty body. *)
Definition Program_Idx0 (n : ast.Program N) : result Idx :=
  match ast.Program_Body n with
  | stmt :: _ => Stmt_Idx0 stmt
  | [] => Panic "runtime error: index out of range [0] with length 0"
  end.

(** Modelled from the spec: [ast.Program.Idx1],
    [n.Body[len(n.Body)-1].Idx1()]; see [Program_Idx0]. *)
Definition Program_Idx1 (n : ast.Program N) : result Idx :=
  on_last Stmt_Idx1 (Panic "runtime error: index out of range [-1]")
    (ast.Program_Body n).

(** A [*ast.Program] as an [ast.Node]. *)
Definition Program_pos (n : ast.Program N) : NodePos :=
  {| Idx0 := Program_Idx0 n; Idx1 := Program_Idx1 n |}.

(** Modelled from the spec: [ast.CaseStatement.Idx0], the position of the
    keyword; package [ast] is not among the sources. *)
Definition CaseStatement_Idx0 (n : ast.CaseStatement N) : result Idx :=
  Ok (ast.CaseStatement_Case n).

(** Modelled from the spec: [ast.CaseStatement.Idx1],
    [n.Consequent[len(n.Consequent)-1].Idx1()]; the serializer's comment says
    that the method panics on an empty consequent. *)
Definition CaseStatement_Idx1 (n : ast.CaseStatement N) : result Idx :=
  on_last Stmt_Idx1 (Panic "runtime error: index out of range [-1]")
    (ast.CaseStatement_Consequent n).

(** A [*ast.CaseStatement] as an [ast.Node]. *)
Definition CaseStatement_pos (n : ast.CaseStatement N) : NodePos :=
  {| Idx0 := CaseStatement_Idx0 n; Idx1 := CaseStatement_Idx1 n |}.

(** Program *)
Definition VisitProgram (n : ast.Program N) : Ser :=
  writeStr (q "{'type':'Program','body':[") ;;
  forEach (ast.Program_Body n) (fun i stmt =>
    when (0 <? i) (writeStr ",") ;;
    serialize stmt) ;;
  writeStr "]" ;;
  when (0 <? Z.of_nat (length (ast.Program_Body n)))
    (writeStr "," ;;
     writePosition (Program_pos n)) ;;
  writeStr "}".

(** Identifiers *)
Definition VisitIdentifier (n : ast.Identifier) : Ser :=
  writeStr (q "{'type':'Identifier','name':") ;;
  writeString (ast.Identifier_Name n) ;;
  when (negb (ast.Identifier_ScopeContext n =? 0))
    (writeStr (q ",'scopeContext':") ;;
     writeInt (ast.Identifier_ScopeContext n)) ;;
  writeStr "," ;;
  writePosition (stored (ast.Identifier_span n)) ;;
  writeStr "}".

Definition VisitPrivateIdentifier (n : ast.PrivateIdentifier) : Ser :=
  writeStr (q "{'type':'PrivateIdentifier','name':") ;;
  writeString (ast.Identifier_Name (ast.PrivateIdentifier_Identifier n)) ;;
  writeStr "," ;;
  writePosition (stored (ast.PrivateIdentifier_span n)) ;;
  writeStr "}".

(** Literals *)
Definition VisitBooleanLiteral (n : ast.BooleanLiteral) : Ser :=
  writeStr (q "{'type':'Literal','value':") ;;
  writeBool (ast.BooleanLiteral_Value n) ;;
  writeStr "," ;;
  writePosition (stored (ast.BooleanLiteral_span n)) ;;
  writeStr "}".

Definition VisitNullLiteral (n : ast.NullLiteral) : Ser :=
  writeStr (q "{'type':'Literal','value':null,") ;;
  writePosition (stored (ast.NullLiteral_span n)) ;;
  writeStr "}".

Definition VisitNumberLiteral (n : ast.NumberLiteral) : Ser :=
  writeStr (q "{'type':'Literal','value':") ;;
  writeNumber (ast.NumberLiteral_Value n) ;;
  match ast.NumberLiteral_Raw n with
  | Some raw => writeStr (q ",'raw':") ;; writeString raw
  | None => skip
  end ;;
  writeStr "," ;;
  writePosition (stored (ast.NumberLiteral_span n)) ;;
  writeStr "}".

Definition VisitStringLiteral (n : ast.StringLiteral) : Ser :=
  writeStr (q "{'type':'Literal','value':") ;;
  writeString (ast.StringLiteral_Value n) ;;
  match ast.StringLiteral_Raw n with
  | Some raw => writeStr (q ",'raw':") ;; writeString raw
  | None => skip
  end ;;
  writeStr "," ;;
  writePosition (stored (ast.StringLiteral_span n)) ;;
  writeStr "}".

Definition VisitRegExpLiteral (n : ast.RegExpLiteral) : Ser :=
  writeStr (q "{'type':'Literal','regex':{'pattern':") ;;
  writeString (ast.RegExpLiteral_Pattern n) ;;
  writeStr (q ",'flags':") ;;
  writeString (ast.RegExpLiteral_Flags n) ;;
  writeStr "}," ;;
  writePosition (stored (ast.RegExpLiteral_span n)) ;;
  writeStr "}".

(** Expressions *)
Definition VisitBinaryExpression (n : ast.BinaryExpression N) : Ser :=
  writeStr (q "{'type':'BinaryExpression','operator':") ;;
  writeOperator (ast.BinaryExpression_Operator n) ;;
  writeStr (q ",'left':") ;;
  serialize (ast.BinaryExpression_Left n) ;;
  writeStr (q ",'right':") ;;
  serialize (ast.BinaryExpression_Right n) ;;
  writeStr "," ;;
  writePosition (stored (ast.BinaryExpression_span n)) ;;
  writeStr "}".

Definition VisitUnaryExpression (n : ast.UnaryExpression N) : Ser :=
  writeStr (q "{'type':'UnaryExpression','operator':") ;;
  writeOperator (ast.UnaryExpression_Operator n) ;;
  writeStr (q ",'prefix':true,'argument':") ;;
  serialize (ast.UnaryExpression_Operand n) ;;
  writeStr "," ;;
  writePosition (stored (ast.UnaryExpression_span n)) ;;
  writeStr "}".

Definition VisitUpdateExpression (n : ast.UpdateExpression N) : Ser :=
  writeStr (q "{'type':'UpdateExpression','operator':") ;;
  writeOperator (ast.UpdateExpression_Operator n) ;;
  writeStr (q ",'prefix':") ;;
  writeBool (negb (ast.UpdateExpression_Postfix n)) ;;
  writeStr (q ",'argument':") ;;
  serialize (ast.UpdateExpression_Operand n) ;;
  writeStr "," ;;
  writePosition (stored (ast.UpdateExpression_span n)) ;;
  writeStr "}".

Definition VisitAssignExpression (n : ast.AssignExpression N) : Ser :=
  writeStr (q "{'type':'AssignmentExpression','operator':") ;;
  (* For compound operators, we need to add "=" suffix *)
  (let op := Token_String (ast.AssignExpression_Operator n) in
   let op := if token.eqb (ast.AssignExpression_Operator n) token.Assign
             then op else op +:+ "=" in
   writeString op) ;;
  writeStr (q ",'left':") ;;
  serialize (ast.AssignExpression_Left n) ;;
  writeStr (q ",'right':") ;;
  serialize (ast.AssignExpression_Right n) ;;
  writeStr "," ;;
  writePosition (stored (ast.AssignExpression_span n)) ;;
  writeStr "}".

Definition VisitConditionalExpression (n : ast.ConditionalExpression N) : Ser :=
  writeStr (q "{'type':'ConditionalExpression','test':") ;;
  serialize (ast.ConditionalExpression_Test n) ;;
  writeStr (q ",'consequent':") ;;
  serialize (ast.ConditionalExpression_Consequent n) ;;
  writeStr (q ",'alternate':") ;;
  serialize (ast.ConditionalExpression_Alternate n) ;;
  writeStr "," ;;
  writePosition (stored (ast.ConditionalExpression_span n)) ;;
  writeStr "}".

Definition VisitCallExpression (n : ast.CallExpression N) : Ser :=
  writeStr (q "{'type':'CallExpression','callee':") ;;
  serialize (ast.CallExpression_Callee n) ;;
  writeStr (q ",'arguments':[") ;;
  forEach (ast.CallExpression_ArgumentList n) (fun i arg =>
    when (0 <? i) (writeStr ",") ;;
    serialize arg) ;;
  writeStr "]," ;;
  writePosition (stored (ast.CallExpression_span n)) ;;
  writeStr "}".

Definition VisitNewExpression (n : ast.NewExpression N) : Ser :=
  writeStr (q "{'type':'NewExpression','callee':") ;;
  serialize (ast.NewExpression_Callee n) ;;
  writeStr (q ",'arguments':[") ;;
  forEach (ast.NewExpression_ArgumentList n) (fun i arg =>
    when (0 <? i) (writeStr ",") ;;
    serialize arg) ;;
  writeStr "]," ;;
  writePosition (stored (ast.NewExpression_span n)) ;;
  writeStr "}".

Definition VisitMemberProperty (n : ast.MemberProperty N) : Ser :=
  match ast.MemberProperty_Prop n with
  | Some prop =>
      typeSwitch_MemberProp Ser prop
        (fun prop => VisitIdentifier prop)
        (fun prop => serialize (ast.ComputedProperty_Expr prop))
        skip
  | None => skip
  end.

Definition VisitMemberExpression (n : ast.MemberExpression N) : Ser :=
  writeStr (q "{'type':'MemberExpression','object':") ;;
  serialize (ast.MemberExpression_Object n) ;;
  writeStr (q ",'property':") ;;
  VisitMemberProperty (ast.MemberExpression_Property n) ;;
  writeStr (q ",'computed':") ;;
  (* Check if computed *)
  (let isComputed :=
     match ast.MemberProperty_Prop (ast.MemberExpression_Property n) with
     | Some prop => typeSwitch_MemberProp bool prop (fun _ => false) (fun _ => true) false
     | None => false
     end in
   writeBool isComputed) ;;
  writeStr "," ;;
  writePosition (stored (ast.MemberExpression_span n)) ;;
  writeStr "}".

Definition VisitArrayLiteral (n : ast.ArrayLiteral N) : Ser :=
  writeStr (q "{'type':'ArrayExpression','elements':[") ;;
  forEach (ast.ArrayLiteral_Value n) (fun i elem =>
    when (0 <? i) (writeStr ",") ;;
    match elem with
    | None => writeNull
    | Some _ => serialize elem
    end) ;;
  writeStr "]," ;;
  writePosition (stored (ast.ArrayLiteral_span n)) ;;
  writeStr "}".

Definition VisitObjectLiteral (n : ast.ObjectLiteral N) : Ser :=
  writeStr (q "{'type':'ObjectExpression','properties':[") ;;
  forEach (ast.ObjectLiteral_Value n) (fun i prop =>
    when (0 <? i) (writeStr ",") ;;
    serialize prop) ;;
  writeStr "]," ;;
  writePosition (stored (ast.ObjectLiteral_span n)) ;;
  writeStr "}".

Definition VisitPropertyKeyed (n : ast.PropertyKeyed N) : Ser :=
  writeStr (q "{'type':'Property','key':") ;;
  serialize (ast.PropertyKeyed_Key n) ;;
  writeStr (q ",'value':") ;;
  serialize (ast.PropertyKeyed_Value n) ;;
  writeStr (q ",'kind':") ;;
  writeString (ast.PropertyKeyed_Kind n) ;;
  writeStr (q ",'computed':") ;;
  writeBool (ast.PropertyKeyed_Computed n) ;;
  writeStr (q ",'method':") ;;
  writeBool (String.eqb (ast.PropertyKeyed_Kind n) PropertyKindMethod) ;;
  writeStr (q ",'shorthand':false,") ;;
  writePosition (stored (ast.PropertyKeyed_span n)) ;;
  writeStr "}".

Definition VisitPropertyShort (n : ast.PropertyShort N) : Ser :=
  writeStr (q "{'type':'Property','key':") ;;
  VisitIdentifier (ast.PropertyShort_Name n) ;;
  writeStr (q ",'value':") ;;
  match ast.PropertyShort_Initializer n with
  | Some initializer =>
      (* Shorthand with default: {x = 1} *)
      writeStr (q "{'type':'AssignmentPattern','left':") ;;
      VisitIdentifier (ast.PropertyShort_Name n) ;;
      writeStr (q ",'right':") ;;
      serialize initializer ;;
      writeStr "," ;;
      writePosition (stored (ast.PropertyShort_span n)) ;;
      writeStr "}"
  | None => VisitIdentifier (ast.PropertyShort_Name n)
  end ;;
  writeStr (q ",'kind':'init','computed':false,'method':false,'shorthand':true,") ;;
  writePosition (stored (ast.PropertyShort_span n)) ;;
  writeStr "}".

Definition VisitSequenceExpression (n : ast.SequenceExpression N) : Ser :=
  writeStr (q "{'type':'SequenceExpression','expressions':[") ;;
  forEach (ast.SequenceExpression_Sequence n) (fun i expr =>
    when (0 <? i) (writeStr ",") ;;
    serialize expr) ;;
  writeStr "]," ;;
  writePosition (stored (ast.SequenceExpression_span n)) ;;
  writeStr "}".

Definition VisitThisExpression (n : ast.ThisExpression) : Ser :=
  writeStr (q "{'type':'ThisExpression',") ;;
  writePosition (stored (ast.ThisExpression_span n)) ;;
  writeStr "}".

Definition VisitSuperExpression (n : ast.SuperExpression) : Ser :=
  writeStr (q "{'type':'Super',") ;;
  writePosition (stored (ast.SuperExpression_span n)) ;;
  writeStr "}".

Definition VisitYieldExpression (n : ast.YieldExpression N) : Ser :=
  writeStr (q "{'type':'YieldExpression','argument':") ;;
  match ast.YieldExpression_Argument n with
  | Some argument => serialize argument
  | None => writeNull
  end ;;
  writeStr (q ",'delegate':") ;;
  writeBool (ast.YieldExpression_Delegate n) ;;
  writeStr "," ;;
  writePosition (stored (ast.YieldExpression_span n)) ;;
  writeStr "}".

Definition VisitAwaitExpression (n : ast.AwaitExpression N) : Ser :=
  writeStr (q "{'type':'AwaitExpression','argument':") ;;
  serialize (ast.AwaitExpression_Argument n) ;;
  writeStr "," ;;
  writePosition (stored (ast.AwaitExpression_span n)) ;;
  writeStr "}".

Definition VisitSpreadElement (n : ast.SpreadElement N) : Ser :=
  writeStr (q "{'type':'SpreadElement','argument':") ;;
  serialize (ast.SpreadElement_Expression n) ;;
  writeStr "," ;;
  writePosition (stored (ast.SpreadElement_span n)) ;;
  writeStr "}".

Definition VisitTemplateLiteral (n : ast.TemplateLiteral N) : Ser :=
  writeStr (q "{'type':'TemplateLiteral','quasis':[") ;;
  forEach (ast.TemplateLiteral_Elements n) (fun i elem =>
    when (0 <? i) (writeStr ",") ;;
    writeStr (q "{'type':'TemplateElement','value':{'raw':") ;;
    writeString (ast.TemplateElement_Literal elem) ;;
    writeStr (q ",'cooked':") ;;
    writeString (ast.TemplateElement_Parsed elem) ;;
    writeStr (q "},'tail':") ;;
    writeBool (i =? Z.of_nat (length (ast.TemplateLiteral_Elements n)) - 1) ;;
    writeStr "," ;;
    writePosition (stored (ast.TemplateElement_span elem)) ;;
    writeStr "}") ;;
  writeStr (q "],'expressions':[") ;;
  forEach (ast.TemplateLiteral_Expressions n) (fun i expr =>
    when (0 <? i) (writeStr ",") ;;
    serialize expr) ;;
  writeStr "]," ;;
  writePosition (stored (ast.TemplateLiteral_span n)) ;;
  writeStr "}".

Definition VisitMetaProperty (n : ast.MetaProperty) : Ser :=
  writeStr (q "{'type':'MetaProperty','meta':") ;;
  VisitIdentifier (ast.MetaProperty_Meta n) ;;
  writeStr (q ",'property':") ;;
  VisitIdentifier (ast.MetaProperty_Property n) ;;
  writeStr "," ;;
  writePosition (stored (ast.MetaProperty_span n)) ;;
  writeStr "}".

Definition serializeParam (param : ast.VariableDeclarator N) : Ser :=
  match ast.VariableDeclarator_Initializer param with
  | Some initializer =>
      writeStr (q "{'type':'AssignmentPattern','left':") ;;
      serialize (ast.BindingTarget_Target (ast.VariableDeclarator_Target param)) ;;
      writeStr (q ",'right':") ;;
      serialize initializer ;;
      writeStr "," ;;
      writePosition (stored (ast.VariableDeclarator_span param)) ;;
      writeStr "}"
  | None =>
      serialize (ast.BindingTarget_Target (ast.VariableDeclarator_Target param))
  end.

(** Statements *)
Definition VisitBlockStatement (n : ast.BlockStatement N) : Ser :=
  writeStr (q "{'type':'BlockStatement','body':[") ;;
  forEach (ast.BlockStatement_List n) (fun i stmt =>
    when (0 <? i) (writeStr ",") ;;
    serialize stmt) ;;
  writeStr "]" ;;
  when (negb (ast.BlockStatement_ScopeContext n =? 0))
    (writeStr (q ",'scopeContext':") ;;
     writeInt (ast.BlockStatement_ScopeContext n)) ;;
  writeStr "," ;;
  writePosition (stored (ast.BlockStatement_span n)) ;;
  writeStr "}".

(** Functions *)
Definition VisitFunctionLiteral (n : ast.FunctionLiteral N) : Ser :=
  writeStr (q "{'type':'FunctionExpression','id':") ;;
  match ast.FunctionLiteral_Name n with
  | Some name => VisitIdentifier name
  | None => writeNull
  end ;;
  writeStr (q ",'params':[") ;;
  forEach (ast.ParameterList_List (ast.FunctionLiteral_ParameterList n)) (fun i param =>
    when (0 <? i) (writeStr ",") ;;
    serializeParam param) ;;
  match ast.ParameterList_Rest (ast.FunctionLiteral_ParameterList n) with
  | Some _ =>
      when (0 <? Z.of_nat (length (ast.ParameterList_List (ast.FunctionLiteral_ParameterList n)))) (writeStr ",") ;;
      writeStr (q "{'type':'RestElement','argument':") ;;
      serialize (ast.ParameterList_Rest (ast.FunctionLiteral_ParameterList n)) ;;
      writeStr "}"
  | None => skip
  end ;;
  writeStr (q "],'body':") ;;
  VisitBlockStatement (ast.FunctionLiteral_Body n) ;;
  writeStr (q ",'generator':") ;;
  writeBool (ast.FunctionLiteral_Generator n) ;;
  writeStr (q ",'async':") ;;
  writeBool (ast.FunctionLiteral_Async n) ;;
  when (negb (ast.FunctionLiteral_ScopeContext n =? 0))
    (writeStr (q ",'scopeContext':") ;;
     writeInt (ast.FunctionLiteral_ScopeContext n)) ;;
  writeStr "," ;;
  writePosition (stored (ast.FunctionLiteral_span n)) ;;
  writeStr "}".

Definition VisitConciseBody (n : ast.ConciseBody N) : Ser :=
  serialize (ast.ConciseBody_Body n).

Definition VisitArrowFunctionLiteral (n : ast.ArrowFunctionLiteral N) : Ser :=
  writeStr (q "{'type':'ArrowFunctionExpression','id':null,'params':[") ;;
  forEach (ast.ParameterList_List (ast.ArrowFunctionLiteral_ParameterList n)) (fun i param =>
    when (0 <? i) (writeStr ",") ;;
    serializeParam param) ;;
  match ast.ParameterList_Rest (ast.ArrowFunctionLiteral_ParameterList n) with
  | Some _ =>
      when (0 <? Z.of_nat (length (ast.ParameterList_List (ast.ArrowFunctionLiteral_ParameterList n)))) (writeStr ",") ;;
      writeStr (q "{'type':'RestElement','argument':") ;;
      serialize (ast.ParameterList_Rest (ast.ArrowFunctionLiteral_ParameterList n)) ;;
      writeStr "}"
  | None => skip
  end ;;
  writeStr (q "],'body':") ;;
  VisitConciseBody (ast.ArrowFunctionLiteral_Body n) ;;
  writeStr (q ",'expression':") ;;
  (* expression is true if body is not a BlockStatement *)
  (let isBlock :=
     match ast.ConciseBody_Body (ast.ArrowFunctionLiteral_Body n) with
     | Some body => is_BlockStatement body
     | None => false
     end in
   writeBool (negb isBlock)) ;;
  writeStr (q ",'async':") ;;
  writeBool (ast.ArrowFunctionLiteral_Async n) ;;
  when (negb (ast.ArrowFunctionLiteral_ScopeContext n =? 0))
    (writeStr (q ",'scopeContext':") ;;
     writeInt (ast.ArrowFunctionLiteral_ScopeContext n)) ;;
  writeStr "," ;;
  writePosition (stored (ast.ArrowFunctionLiteral_span n)) ;;
  writeStr "}".

Definition VisitExpressionStatement (n : ast.ExpressionStatement N) : Ser :=
  writeStr (q "{'type':'ExpressionStatement','expression':") ;;
  serialize (ast.ExpressionStatement_Expression n) ;;
  writeStr "," ;;
  writePosition (stored (ast.ExpressionStatement_span n)) ;;
  writeStr "}".

Definition VisitEmptyStatement (n : ast.EmptyStatement) : Ser :=
  writeStr (q "{'type':'EmptyStatement',") ;;
  writePosition (stored (ast.EmptyStatement_span n)) ;;
  writeStr "}".

Definition VisitIfStatement (n : ast.IfStatement N) : Ser :=
  writeStr (q "{'type':'IfStatement','test':") ;;
  serialize (ast.IfStatement_Test n) ;;
  writeStr (q ",'consequent':") ;;
  serialize (ast.IfStatement_Consequent n) ;;
  writeStr (q ",'alternate':") ;;
  match ast.IfStatement_Alternate n with
  | Some alternate => serialize alternate
  | None => writeNull
  end ;;
  writeStr "," ;;
  writePosition (stored (ast.IfStatement_span n)) ;;
  writeStr "}".

(** Declarations *)
Definition VisitVariableDeclarator (n : ast.VariableDeclarator N) : Ser :=
  writeStr (q "{'type':'VariableDeclarator','id':") ;;
  serialize (ast.BindingTarget_Target (ast.VariableDeclarator_Target n)) ;;
  writeStr (q ",'init':") ;;
  match ast.VariableDeclarator_Initializer n with
  | Some initializer => serialize initializer
  | None => writeNull
  end ;;
  writeStr "," ;;
  writePosition (stored (ast.VariableDeclarator_span n)) ;;
  writeStr "}".

Definition VisitVariableDeclaration (n : ast.VariableDeclaration N) : Ser :=
  writeStr (q "{'type':'VariableDeclaration','declarations':[") ;;
  forEach (ast.VariableDeclaration_List n) (fun i decl =>
    when (0 <? i) (writeStr ",") ;;
    VisitVariableDeclarator decl) ;;
  writeStr (q "],'kind':") ;;
  writeString (Token_String (ast.VariableDeclaration_Token n)) ;;
  writeStr "," ;;
  writePosition (stored (ast.VariableDeclaration_span n)) ;;
  writeStr "}".

(** Modelled from the spec: [ast.NoopVisitor.VisitExpression], which the
    serializer inherits; a no-op visitor visits the children of the node. *)
Definition VisitExpression (n : ast.Expression N) : Ser :=
  match ast.Expression_Expr n with
  | Some expr => VisitWith expr
  | None => skip
  end.

Definition VisitForLoopInitializer (n : ast.ForLoopInitializer N) : Ser :=
  match ast.ForLoopInitializer_Initializer n with
  | Some init =>
      typeSwitch_ExprOrDecl Ser init
        (fun init => serialize (ast.Expression_Expr init))
        (fun init => VisitVariableDeclaration init)
        skip
  | None => skip
  end.

Definition VisitForStatement (n : ast.ForStatement N) : Ser :=
  writeStr (q "{'type':'ForStatement','init':") ;;
  match ast.ForStatement_Initializer n with
  | Some initializer => VisitForLoopInitializer initializer
  | None => writeNull
  end ;;
  writeStr (q ",'test':") ;;
  match ast.ForStatement_Test n with
  | Some _ => serialize (ast.ForStatement_Test n)
  | None => writeNull
  end ;;
  writeStr (q ",'update':") ;;
  match ast.ForStatement_Update n with
  | Some _ => serialize (ast.ForStatement_Update n)
  | None => writeNull
  end ;;
  writeStr (q ",'body':") ;;
  serialize (ast.ForStatement_Body n) ;;
  writeStr "," ;;
  writePosition (stored (ast.ForStatement_span n)) ;;
  writeStr "}".

Definition VisitForInto (n : ast.ForInto N) : Ser :=
  match ast.ForInto_Into n with
  | Some into =>
      typeSwitch_ExprOrDecl Ser into
        (fun into => serialize (ast.Expression_Expr into))
        (fun into => VisitVariableDeclaration into)
        skip
  | None => skip
  end.

Definition VisitForInStatement (n : ast.ForInStatement N) : Ser :=
  writeStr (q "{'type':'ForInStatement','left':") ;;
  VisitForInto (ast.ForInStatement_Into n) ;;
  writeStr (q ",'right':") ;;
  serialize (ast.ForInStatement_Source n) ;;
  writeStr (q ",'body':") ;;
  serialize (ast.ForInStatement_Body n) ;;
  writeStr "," ;;
  writePosition (stored (ast.ForInStatement_span n)) ;;
  writeStr "}".

Definition VisitForOfStatement (n : ast.ForOfStatement N) : Ser :=
  writeStr (q "{'type':'ForOfStatement','left':") ;;
  VisitForInto (ast.ForOfStatement_Into n) ;;
  writeStr (q ",'right':") ;;
  serialize (ast.ForOfStatement_Source n) ;;
  writeStr (q ",'body':") ;;
  serialize (ast.ForOfStatement_Body n) ;;
  writeStr (q ",'await':false,") ;;
  writePosition (stored (ast.ForOfStatement_span n)) ;;
  writeStr "}".

Definition VisitWhileStatement (n : ast.WhileStatement N) : Ser :=
  writeStr (q "{'type':'WhileStatement','test':") ;;
  serialize (ast.WhileStatement_Test n) ;;
  writeStr (q ",'body':") ;;
  serialize (ast.WhileStatement_Body n) ;;
  writeStr "," ;;
  writePosition (stored (ast.WhileStatement_span n)) ;;
  writeStr "}".

Definition VisitDoWhileStatement (n : ast.DoWhileStatement N) : Ser :=
  writeStr (q "{'type':'DoWhileStatement','body':") ;;
  serialize (ast.DoWhileStatement_Body n) ;;
  writeStr (q ",'test':") ;;
  serialize (ast.DoWhileStatement_Test n) ;;
  writeStr "," ;;
  writePosition (stored (ast.DoWhileStatement_span n)) ;;
  writeStr "}".

Definition VisitCaseStatement (n : ast.CaseStatement N) : Ser :=
  writeStr (q "{'type':'SwitchCase','test':") ;;
  match ast.CaseStatement_Test n with
  | Some test => serialize test
  | None => writeNull
  end ;;
  writeStr (q ",'consequent':[") ;;
  forEach (ast.CaseStatement_Consequent n) (fun i stmt =>
    when (0 <? i) (writeStr ",") ;;
    serialize stmt) ;;
  writeStr "]," ;;
  (* CaseStatement.Idx1() panics on empty Consequent, so use start only for
     fallthrough cases *)
  (if 0 <? Z.of_nat (length (ast.CaseStatement_Consequent n))
   then writePosition (CaseStatement_pos n)
   else writePositionStartOnly (ast.CaseStatement_Case n)) ;;
  writeStr "}".

Definition VisitSwitchStatement (n : ast.SwitchStatement N) : Ser :=
  writeStr (q "{'type':'SwitchStatement','discriminant':") ;;
  serialize (ast.SwitchStatement_Discriminant n) ;;
  writeStr (q ",'cases':[") ;;
  forEach (ast.SwitchStatement_Body n) (fun i case =>
    when (0 <? i) (writeStr ",") ;;
    VisitCaseStatement case) ;;
  writeStr "]," ;;
  writePosition (stored (ast.SwitchStatement_span n)) ;;
  writeStr "}".

Definition VisitCatchStatement (n : ast.CatchStatement N) : Ser :=
  writeStr (q "{'type':'CatchClause','param':") ;;
  match ast.CatchStatement_Parameter n with
  | Some parameter =>
      match ast.BindingTarget_Target parameter with
      | Some _ => serialize (ast.BindingTarget_Target parameter)
      | None => writeNull
      end
  | None => writeNull
  end ;;
  writeStr (q ",'body':") ;;
  VisitBlockStatement (ast.CatchStatement_Body n) ;;
  writeStr "," ;;
  writePosition (stored (ast.CatchStatement_span n)) ;;
  writeStr "}".

Definition VisitTryStatement (n : ast.TryStatement N) : Ser :=
  writeStr (q "{'type':'TryStatement','block':") ;;
  VisitBlockStatement (ast.TryStatement_Body n) ;;
  writeStr (q ",'handler':") ;;
  match ast.TryStatement_Catch n with
  | Some catch => VisitCatchStatement catch
  | None => writeNull
  end ;;
  writeStr (q ",'finalizer':") ;;
  match ast.TryStatement_Finally n with
  | Some finally => VisitBlockStatement finally
  | None => writeNull
  end ;;
  writeStr "," ;;
  writePosition (stored (ast.TryStatement_span n)) ;;
  writeStr "}".

Definition VisitThrowStatement (n : ast.ThrowStatement N) : Ser :=
  writeStr (q "{'type':'ThrowStatement','argument':") ;;
  serialize (ast.ThrowStatement_Argument n) ;;
  writeStr "," ;;
  writePosition (stored (ast.ThrowStatement_span n)) ;;
  writeStr "}".

Definition VisitReturnStatement (n : ast.ReturnStatement N) : Ser :=
  writeStr (q "{'type':'ReturnStatement','argument':") ;;
  match ast.ReturnStatement_Argument n with
  | Some argument => serialize argument
  | None => writeNull
  end ;;
  writeStr "," ;;
  writePosition (stored (ast.ReturnStatement_span n)) ;;
  writeStr "}".

Definition VisitBreakStatement (n : ast.BreakStatement) : Ser :=
  writeStr (q "{'type':'BreakStatement','label':") ;;
  match ast.BreakStatement_Label n with
  | Some label => VisitIdentifier label
  | None => writeNull
  end ;;
  writeStr "," ;;
  writePosition (stored (ast.BreakStatement_span n)) ;;
  writeStr "}".

Definition VisitContinueStatement (n : ast.ContinueStatement) : Ser :=
  writeStr (q "{'type':'ContinueStatement','label':") ;;
  match ast.ContinueStatement_Label n with
  | Some label => VisitIdentifier label
  | None => writeNull
  end ;;
  writeStr "," ;;
  writePosition (stored (ast.ContinueStatement_span n)) ;;
  writeStr "}".

Definition VisitLabelledStatement (n : ast.LabelledStatement N) : Ser :=
  writeStr (q "{'type':'LabeledStatement','label':") ;;
  VisitIdentifier (ast.LabelledStatement_Label n) ;;
  writeStr (q ",'body':") ;;
  serialize (ast.LabelledStatement_Statement n) ;;
  writeStr "," ;;
  writePosition (stored (ast.LabelledStatement_span n)) ;;
  writeStr "}".

Definition VisitWithStatement (n : ast.WithStatement N) : Ser :=
  writeStr (q "{'type':'WithStatement','object':") ;;
  serialize (ast.WithStatement_Object n) ;;
  writeStr (q ",'body':") ;;
  serialize (ast.WithStatement_Body n) ;;
  writeStr "," ;;
  writePosition (stored (ast.WithStatement_span n)) ;;
  writeStr "}".

Definition VisitDebuggerStatement (n : ast.DebuggerStatement) : Ser :=
  writeStr (q "{'type':'DebuggerStatement',") ;;
  writePosition (stored (ast.DebuggerStatement_span n)) ;;
  writeStr "}".

Definition VisitFunctionDeclaration (n : ast.FunctionDeclaration N) : Ser :=
  let function := ast.FunctionDeclaration_Function n in
  writeStr (q "{'type':'FunctionDeclaration','id':") ;;
  match ast.FunctionLiteral_Name function with
  | Some name => VisitIdentifier name
  | None => writeNull
  end ;;
  writeStr (q ",'params':[") ;;
  forEach (ast.ParameterList_List (ast.FunctionLiteral_ParameterList function)) (fun i param =>
    when (0 <? i) (writeStr ",") ;;
    serializeParam param) ;;
  match ast.ParameterList_Rest (ast.FunctionLiteral_ParameterList function) with
  | Some _ =>
      when (0 <? Z.of_nat (length (ast.ParameterList_List (ast.FunctionLiteral_ParameterList function)))) (writeStr ",") ;;
      writeStr (q "{'type':'RestElement','argument':") ;;
      serialize (ast.ParameterList_Rest (ast.FunctionLiteral_ParameterList function)) ;;
      writeStr "}"
  | None => skip
  end ;;
  writeStr (q "],'body':") ;;
  VisitBlockStatement (ast.FunctionLiteral_Body function) ;;
  writeStr (q ",'generator':") ;;
  writeBool (ast.FunctionLiteral_Generator function) ;;
  writeStr (q ",'async':") ;;
  writeBool (ast.FunctionLiteral_Async function) ;;
  when (negb (ast.FunctionLiteral_ScopeContext function =? 0))
    (writeStr (q ",'scopeContext':") ;;
     writeInt (ast.FunctionLiteral_ScopeContext function)) ;;
  writeStr "," ;;
  writePosition (stored (ast.FunctionDeclaration_span n)) ;;
  writeStr "}".

(** Patterns *)
Definition VisitArrayPattern (n : ast.ArrayPattern N) : Ser :=
  writeStr (q "{'type':'ArrayPattern','elements':[") ;;
  forEach (ast.ArrayPattern_Elements n) (fun i elem =>
    when (0 <? i) (writeStr ",") ;;
    match elem with
    | None => writeNull
    | Some _ => serialize elem
    end) ;;
  match ast.ArrayPattern_Rest n with
  | Some rest =>
      when (0 <? Z.of_nat (length (ast.ArrayPattern_Elements n))) (writeStr ",") ;;
      writeStr (q "{'type':'RestElement','argument':") ;;
      serialize rest ;;
      writeStr "}"
  | None => skip
  end ;;
  writeStr "]," ;;
  writePosition (stored (ast.ArrayPattern_span n)) ;;
  writeStr "}".

Definition VisitObjectPattern (n : ast.ObjectPattern N) : Ser :=
  writeStr (q "{'type':'ObjectPattern','properties':[") ;;
  forEach (ast.ObjectPattern_Properties n) (fun i prop =>
    when (0 <? i) (writeStr ",") ;;
    serialize prop) ;;
  match ast.ObjectPattern_Rest n with
  | Some _ =>
      when (0 <? Z.of_nat (length (ast.ObjectPattern_Properties n))) (writeStr ",") ;;
      writeStr (q "{'type':'RestElement','argument':") ;;
      serialize (ast.ObjectPattern_Rest n) ;;
      writeStr "}"
  | None => skip
  end ;;
  writeStr "]," ;;
  writePosition (stored (ast.ObjectPattern_span n)) ;;
  writeStr "}".

Definition VisitBindingTarget (n : ast.BindingTarget N) : Ser :=
  serialize (ast.BindingTarget_Target n).

(** Classes *)
Definition VisitClassLiteral (n : ast.ClassLiteral N) : Ser :=
  writeStr (q "{'type':'ClassExpression','id':") ;;
  match ast.ClassLiteral_Name n with
  | Some name => VisitIdentifier name
  | None => writeNull
  end ;;
  writeStr (q ",'superClass':") ;;
  match ast.ClassLiteral_SuperClass n with
  | Some superClass => serialize superClass
  | None => writeNull
  end ;;
  writeStr (q ",'body':{'type':'ClassBody','body':[") ;;
  forEach (ast.ClassLiteral_Body n) (fun i elem =>
    when (0 <? i) (writeStr ",") ;;
    serialize elem) ;;
  writeStr "]}," ;;
  writePosition (stored (ast.ClassLiteral_span n)) ;;
  writeStr "}".

Definition VisitClassDeclaration (n : ast.ClassDeclaration N) : Ser :=
  let class := ast.ClassDeclaration_Class n in
  writeStr (q "{'type':'ClassDeclaration','id':") ;;
  match ast.ClassLiteral_Name class with
  | Some name => VisitIdentifier name
  | None => writeNull
  end ;;
  writeStr (q ",'superClass':") ;;
  match ast.ClassLiteral_SuperClass class with
  | Some superClass => serialize superClass
  | None => writeNull
  end ;;
  writeStr (q ",'body':{'type':'ClassBody','body':[") ;;
  forEach (ast.ClassLiteral_Body class) (fun i elem =>
    when (0 <? i) (writeStr ",") ;;
    serialize elem) ;;
  writeStr "]}," ;;
  writePosition (stored (ast.ClassDeclaration_span n)) ;;
  writeStr "}".

Definition VisitMethodDefinition (n : ast.MethodDefinition N) : Ser :=
  writeStr (q "{'type':'MethodDefinition','key':") ;;
  serialize (ast.MethodDefinition_Key n) ;;
  writeStr (q ",'value':") ;;
  VisitFunctionLiteral (ast.MethodDefinition_Body n) ;;
  writeStr (q ",'kind':") ;;
  (let kind := ast.MethodDefinition_Kind n in
   let kind := if String.eqb kind "method" then "method"
               else if String.eqb kind "" then "method"
               else kind in
   writeString kind) ;;
  writeStr (q ",'computed':") ;;
  writeBool (ast.MethodDefinition_Computed n) ;;
  writeStr (q ",'static':") ;;
  writeBool (ast.MethodDefinition_Static n) ;;
  writeStr "," ;;
  writePosition (stored (ast.MethodDefinition_span n)) ;;
  writeStr "}".

Definition VisitFieldDefinition (n : ast.FieldDefinition N) : Ser :=
  writeStr (q "{'type':'PropertyDefinition','key':") ;;
  serialize (ast.FieldDefinition_Key n) ;;
  writeStr (q ",'value':") ;;
  match ast.FieldDefinition_Initializer n with
  | Some initializer => serialize initializer
  | None => writeNull
  end ;;
  writeStr (q ",'computed':") ;;
  writeBool (ast.FieldDefinition_Computed n) ;;
  writeStr (q ",'static':") ;;
  writeBool (ast.FieldDefinition_Static n) ;;
  writeStr "," ;;
  writePosition (stored (ast.FieldDefinition_span n)) ;;
  writeStr "}".

Definition VisitClassStaticBlock (n : ast.ClassStaticBlock N) : Ser :=
  writeStr (q "{'type':'StaticBlock','body':[") ;;
  forEach (ast.BlockStatement_List (ast.ClassStaticBlock_Block n)) (fun i stmt =>
    when (0 <? i) (writeStr ",") ;;
    serialize stmt) ;;
  writeStr "]," ;;
  writePosition (stored (ast.ClassStaticBlock_span n)) ;;
  writeStr "}".

(** Optional chaining *)
Definition VisitOptionalChain (n : ast.OptionalChain N) : Ser :=
  writeStr (q "{'type':'ChainExpression','expression':") ;;
  serialize (ast.OptionalChain_Base n) ;;
  writeStr "," ;;
  writePosition (stored (ast.OptionalChain_span n)) ;;
  writeStr "}".

Definition VisitOptional (n : ast.Optional N) : Ser :=
  serialize (ast.Optional_Expr n).

Definition VisitPrivateDotExpression (n : ast.PrivateDotExpression N) : Ser :=
  writeStr (q "{'type':'MemberExpression','object':") ;;
  serialize (ast.PrivateDotExpression_Left n) ;;
  writeStr (q ",'property':") ;;
  VisitPrivateIdentifier (ast.PrivateDotExpression_Identifier n) ;;
  writeStr (q ",'computed':false,") ;;
  writePosition (stored (ast.PrivateDotExpression_span n)) ;;
  writeStr "}".

(** Modelled from the spec: [ast.NoopVisitor.VisitComputedProperty], which
    the serializer inherits; it visits the expression of the property. *)
Definition VisitComputedProperty (n : ast.ComputedProperty N) : Ser :=
  match ast.ComputedProperty_Expr n with
  | Some expr => VisitWith expr
  | None => skip
  end.

End Visitor.

(** ** Dynamic dispatch over [ast.Node] *)

(** Modelled from the spec: the span a node stores (section 3, "every node
    carries its own span"); package [ast] is not among the sources. *)
Definition stored_span (node : ast.Node) : option ast.Span :=
  match node with
  | ast.NProgram _ | ast.NCaseStatement _ | ast.NExpression _ => None
  | ast.NIdentifier n => Some (ast.Identifier_span n)
  | ast.NPrivateIdentifier n => Some (ast.PrivateIdentifier_span n)
  | ast.NBooleanLiteral n => Some (ast.BooleanLiteral_span n)
  | ast.NNullLiteral n => Some (ast.NullLiteral_span n)
  | ast.NNumberLiteral n => Some (ast.NumberLiteral_span n)
  | ast.NStringLiteral n => Some (ast.StringLiteral_span n)
  | ast.NRegExpLiteral n => Some (ast.RegExpLiteral_span n)
  | ast.NBinaryExpression n => Some (ast.BinaryExpression_span n)
  | ast.NUnaryExpression n => Some (ast.UnaryExpression_span n)
  | ast.NUpdateExpression n => Some (ast.UpdateExpression_span n)
  | ast.NAssignExpression n => Some (ast.AssignExpression_span n)
  | ast.NConditionalExpression n => Some (ast.ConditionalExpression_span n)
  | ast.NCallExpression n => Some (ast.CallExpression_span n)
  | ast.NNewExpression n => Some (ast.NewExpression_span n)
  | ast.NMemberExpression n => Some (ast.MemberExpression_span n)
  | ast.NMemberProperty n => Some (ast.MemberProperty_span n)
  | ast.NComputedProperty n => Some (ast.ComputedProperty_span n)
  | ast.NArrayLiteral n => Some (ast.ArrayLiteral_span n)
  | ast.NObjectLiteral n => Some (ast.ObjectLiteral_span n)
  | ast.NPropertyKeyed n => Some (ast.PropertyKeyed_span n)
  | ast.NPropertyShort n => Some (ast.PropertyShort_span n)
  | ast.NSequenceExpression n => Some (ast.SequenceExpression_span n)
  | ast.NThisExpression n => Some (ast.ThisExpression_span n)
  | ast.NSuperExpression n => Some (ast.SuperExpression_span n)
  | ast.NYieldExpression n => Some (ast.YieldExpression_span n)
  | ast.NAwaitExpression n => Some (ast.AwaitExpression_span n)
  | ast.NSpreadElement n => Some (ast.SpreadElement_span n)
  | ast.NTemplateLiteral n => Some (ast.TemplateLiteral_span n)
  | ast.NMetaProperty n => Some (ast.MetaProperty_span n)
  | ast.NFunctionLiteral n => Some (ast.FunctionLiteral_span n)
  | ast.NArrowFunctionLiteral n => Some (ast.ArrowFunctionLiteral_span n)
  | ast.NConciseBody n => Some (ast.ConciseBody_span n)
  | ast.NBlockStatement n => Some (ast.BlockStatement_span n)
  | ast.NExpressionStatement n => Some (ast.ExpressionStatement_span n)
  | ast.NEmptyStatement n => Some (ast.EmptyStatement_span n)
  | ast.NIfStatement n => Some (ast.IfStatement_span n)
  | ast.NForStatement n => Some (ast.ForStatement_span n)
  | ast.NForLoopInitializer n => Some (ast.ForLoopInitializer_span n)
  | ast.NForInStatement n => Some (ast.ForInStatement_span n)
  | ast.NForOfStatement n => Some (ast.ForOfStatement_span n)
  | ast.NForInto n => Some (ast.ForInto_span n)
  | ast.NWhileStatement n => Some (ast.WhileStatement_span n)
  | ast.NDoWhileStatement n => Some (ast.DoWhileStatement_span n)
  | ast.NSwitchStatement n => Some (ast.SwitchStatement_span n)
  | ast.NTryStatement n => Some (ast.TryStatement_span n)
  | ast.NCatchStatement n => Some (ast.CatchStatement_span n)
  | ast.NThrowStatement n => Some (ast.ThrowStatement_span n)
  | ast.NReturnStatement n => Some (ast.ReturnStatement_span n)
  | ast.NBreakStatement n => Some (ast.BreakStatement_span n)
  | ast.NContinueStatement n => Some (ast.ContinueStatement_span n)
  | ast.NLabelledStatement n => Some (ast.LabelledStatement_span n)
  | ast.NWithStatement n => Some (ast.WithStatement_span n)
  | ast.NDebuggerStatement n => Some (ast.DebuggerStatement_span n)
  | ast.NVariableDeclaration n => Some (ast.VariableDeclaration_span n)
  | ast.NVariableDeclarator n => Some (ast.VariableDeclarator_span n)
  | ast.NFunctionDeclaration n => Some (ast.FunctionDeclaration_span n)
  | ast.NArrayPattern n => Some (ast.ArrayPattern_span n)
  | ast.NObjectPattern n => Some (ast.ObjectPattern_span n)
  | ast.NBindingTarget n => Some (ast.BindingTarget_span n)
  | ast.NClassLiteral n => Some (ast.ClassLiteral_span n)
  | ast.NClassDeclaration n => Some (ast.ClassDeclaration_span n)
  | ast.NMethodDefinition n => Some (ast.MethodDefinition_span n)
  | ast.NFieldDefinition n => Some (ast.FieldDefinition_span n)
  | ast.NClassStaticBlock n => Some (ast.ClassStaticBlock_span n)
  | ast.NOptionalChain n => Some (ast.OptionalChain_span n)
  | ast.NOptional n => Some (ast.Optional_span n)
  | ast.NPrivateDotExpression n => Some (ast.PrivateDotExpression_span n)
  end.

(** Modelled from the spec: [node.Idx0()], the stored start of the span or
    the method of the two nodes that compute it. *)
Fixpoint Node_Idx0 (node : ast.Node) : result Idx :=
  match node with
  | ast.NProgram n => Program_Idx0 Node_Idx0 n
  | ast.NCaseStatement n => CaseStatement_Idx0 n
  | ast.NExpression n => Stmt_Idx0 Node_Idx0 (ast.Expression_Expr n)
  | _ =>
      match stored_span node with
      | Some sp => Ok (ast.span_Idx0 sp)
      | None => Panic "unreachable"
      end
  end.

(** Modelled from the spec: [node.Idx1()]; see [Node_Idx0]. *)
Fixpoint Node_Idx1 (node : ast.Node) : result Idx :=
  match node with
  | ast.NProgram n => Program_Idx1 Node_Idx1 n
  | ast.NCaseStatement n => CaseStatement_Idx1 Node_Idx1 n
  | ast.NExpression n => Stmt_Idx1 Node_Idx1 (ast.Expression_Expr n)
  | _ =>
      match stored_span node with
      | Some sp => Ok (ast.span_Idx1 sp)
      | None => Panic "unreachable"
      end
  end.

(** [switch prop := n.Prop.(type)] with the cases [*ast.Identifier] and
    [*ast.ComputedProperty]. *)
Definition typeSwitch_MemberProp (A : Type) (node : ast.Node)
    (caseIdentifier : ast.Identifier -> A)
    (caseComputedProperty : ast.ComputedProperty ast.Node -> A)
    (default : A) : A :=
  match node with
  | ast.NIdentifier prop => caseIdentifier prop
  | ast.NComputedProperty prop => caseComputedProperty prop
  | _ => default
  end.

(** [switch init := n.Initializer.(type)] with the cases [*ast.Expression]
    and [*ast.VariableDeclaration]. *)
Definition typeSwitch_ExprOrDecl (A : Type) (node : ast.Node)
    (caseExpression : ast.Expression ast.Node -> A)
    (caseVariableDeclaration : ast.VariableDeclaration ast.Node -> A)
    (default : A) : A :=
  match node with
  | ast.NExpression init => caseExpression init
  | ast.NVariableDeclaration init => caseVariableDeclaration init
  | _ => default
  end.

(** The type assertion of a body to a pointer to [ast.BlockStatement]. *)
Definition is_BlockStatement (node : ast.Node) : bool :=
  match node with
  | ast.NBlockStatement _ => true
  | _ => false
  end.

(** [node.VisitWith(s)]: the visit method of the node's dynamic type. *)
Fixpoint VisitWith (node : ast.Node) : Ser :=
  match node with
  | ast.NProgram n => VisitProgram VisitWith Node_Idx0 Node_Idx1 n
  | ast.NIdentifier n => VisitIdentifier n
  | ast.NPrivateIdentifier n => VisitPrivateIdentifier n
  | ast.NBooleanLiteral n => VisitBooleanLiteral n
  | ast.NNullLiteral n => VisitNullLiteral n
  | ast.NNumberLiteral n => VisitNumberLiteral n
  | ast.NStringLiteral n => VisitStringLiteral n
  | ast.NRegExpLiteral n => VisitRegExpLiteral n
  | ast.NBinaryExpression n => VisitBinaryExpression VisitWith n
  | ast.NUnaryExpression n => VisitUnaryExpression VisitWith n
  | ast.NUpdateExpression n => VisitUpdateExpression VisitWith n
  | ast.NAssignExpression n => VisitAssignExpression VisitWith n
  | ast.NConditionalExpression n => VisitConditionalExpression VisitWith n
  | ast.NCallExpression n => VisitCallExpression VisitWith n
  | ast.NNewExpression n => VisitNewExpression VisitWith n
  | ast.NMemberExpression n => VisitMemberExpression VisitWith typeSwitch_MemberProp n
  | ast.NMemberProperty n => VisitMemberProperty VisitWith typeSwitch_MemberProp n
  | ast.NComputedProperty n => VisitComputedProperty VisitWith n
  | ast.NArrayLiteral n => VisitArrayLiteral VisitWith n
  | ast.NObjectLiteral n => VisitObjectLiteral VisitWith n
  | ast.NPropertyKeyed n => VisitPropertyKeyed VisitWith n
  | ast.NPropertyShort n => VisitPropertyShort VisitWith n
  | ast.NSequenceExpression n => VisitSequenceExpression VisitWith n
  | ast.NThisExpression n => VisitThisExpression n
  | ast.NSuperExpression n => VisitSuperExpression n
  | ast.NYieldExpression n => VisitYieldExpression VisitWith n
  | ast.NAwaitExpression n => VisitAwaitExpression VisitWith n
  | ast.NSpreadElement n => VisitSpreadElement VisitWith n
  | ast.NTemplateLiteral n => VisitTemplateLiteral VisitWith n
  | ast.NMetaProperty n => VisitMetaProperty n
  | ast.NFunctionLiteral n => VisitFunctionLiteral VisitWith n
  | ast.NArrowFunctionLiteral n => VisitArrowFunctionLiteral VisitWith is_BlockStatement n
  | ast.NConciseBody n => VisitConciseBody VisitWith n
  | ast.NBlockStatement n => VisitBlockStatement VisitWith n
  | ast.NExpressionStatement n => VisitExpressionStatement VisitWith n
  | ast.NEmptyStatement n => VisitEmptyStatement n
  | ast.NIfStatement n => VisitIfStatement VisitWith n
  | ast.NForStatement n => VisitForStatement VisitWith typeSwitch_ExprOrDecl n
  | ast.NForLoopInitializer n => VisitForLoopInitializer VisitWith typeSwitch_ExprOrDecl n
  | ast.NForInStatement n => VisitForInStatement VisitWith typeSwitch_ExprOrDecl n
  | ast.NForOfStatement n => VisitForOfStatement VisitWith typeSwitch_ExprOrDecl n
  | ast.NForInto n => VisitForInto VisitWith typeSwitch_ExprOrDecl n
  | ast.NWhileStatement n => VisitWhileStatement VisitWith n
  | ast.NDoWhileStatement n => VisitDoWhileStatement VisitWith n
  | ast.NSwitchStatement n => VisitSwitchStatement VisitWith Node_Idx1 n
  | ast.NCaseStatement n => VisitCaseStatement VisitWith Node_Idx1 n
  | ast.NTryStatement n => VisitTryStatement VisitWith n
  | ast.NCatchStatement n => VisitCatchStatement VisitWith n
  | ast.NThrowStatement n => VisitThrowStatement VisitWith n
  | ast.NReturnStatement n => VisitReturnStatement VisitWith n
  | ast.NBreakStatement n => VisitBreakStatement n
  | ast.NContinueStatement n => VisitContinueStatement n
  | ast.NLabelledStatement n => VisitLabelledStatement VisitWith n
  | ast.NWithStatement n => VisitWithStatement VisitWith n
  | ast.NDebuggerStatement n => VisitDebuggerStatement n
  | ast.NVariableDeclaration n => VisitVariableDeclaration VisitWith n
  | ast.NVariableDeclarator n => VisitVariableDeclarator VisitWith n
  | ast.NFunctionDeclaration n => VisitFunctionDeclaration VisitWith n
  | ast.NArrayPattern n => VisitArrayPattern VisitWith n
  | ast.NObjectPattern n => VisitObjectPattern VisitWith n
  | ast.NBindingTarget n => VisitBindingTarget VisitWith n
  | ast.NClassLiteral n => VisitClassLiteral VisitWith n
  | ast.NClassDeclaration n => VisitClassDeclaration VisitWith n
  | ast.NMethodDefinition n => VisitMethodDefinition VisitWith n
  | ast.NFieldDefinition n => VisitFieldDefinition VisitWith n
  | ast.NClassStaticBlock n => VisitClassStaticBlock VisitWith n
  | ast.NOptionalChain n => VisitOptionalChain VisitWith n
  | ast.NOptional n => VisitOptional VisitWith n
  | ast.NPrivateDotExpression n => VisitPrivateDotExpression VisitWith n
  | ast.NExpression n => VisitExpression VisitWith n
  end.

(** ** [Serialize] and the buffer pool

    [Serialize] hands out a string built by [unsafe.String] on the bytes of
    [s.out] and then returns the serializer to [serializerPool], so what a
    caller holds is a view of memory the next call may write.  The store is
    therefore explicit: backing arrays live in a heap, a slice and a string
    are headers that point into it. *)

(** A slice header: backing array, length and capacity. *)
Record slice : Type := mkSlice {
  slice_data : nat;
  slice_len : nat;
  slice_cap : nat
}.

(** A string header: first byte and length. *)
Record gostring : Type := mkGostring {
  string_data : nat;
  string_len : nat
}.

(** [Serializer]: the embedded [ast.NoopVisitor] holds no data of its own. *)
Record Serializer : Type := mkSerializer { out : slice }.

(** The heap of backing arrays, the next free address, and the items of
    [serializerPool].  A [sync.Pool] may drop items at any time; keeping them
    and handing back the most recent one is what the pool is there for, and
    what it does between two collections. *)
Record world : Type := mkWorld {
  heap : gmap nat (list ascii);
  next : nat;
  pool : list Serializer
}.

Definition empty_world : world := {| heap := ∅; next := 0%nat; pool := [] |}.

(** [make([]byte, 0, cap)] *)
Definition make_bytes (cap : nat) (w : world) : slice * world :=
  ({| slice_data := next w; slice_len := 0; slice_cap := cap |},
   {| heap := <[next w := replicate cap zero]> (heap w);
      next := S (next w);
      pool := pool w |}).

Definition array_at (w : world) (a : nat) : list ascii :=
  default [] (heap w !! a).

(** [append(sl, b)]: in place while the capacity lasts, otherwise into a
    larger array with the old bytes copied.  The capacity of the new array is
    the runtime's choice; it is taken to be twice the old one.  The source
    appends chunk by chunk ([append(s.out, str...)]) where the model appends
    byte by byte: the slice that results holds the same bytes, but a chunk
    that does not fit is copied by the runtime to the new array only, where
    the model first fills the array that is given up.  What is left in an
    array that was given up is not used below. *)
Definition append_byte (sl : slice) (b : ascii) (w : world) : slice * world :=
  if (slice_len sl <? slice_cap sl)%nat then
    ({| slice_data := slice_data sl;
        slice_len := S (slice_len sl);
        slice_cap := slice_cap sl |},
     {| heap := <[slice_data sl := <[slice_len sl := b]> (array_at w (slice_data sl))]> (heap w);
        next := next w;
        pool := pool w |})
  else
    let cap' := Nat.max 1 (2 * slice_cap sl) in
    let arr' := take (slice_len sl) (array_at w (slice_data sl)) ++ b ::
                replicate (cap' - S (slice_len sl)) zero in
    ({| slice_data := next w; slice_len := S (slice_len sl); slice_cap := cap' |},
     {| heap := <[next w := arr']> (heap w);
        next := S (next w);
        pool := pool w |}).

Fixpoint append_bytes (sl : slice) (bytes : string) (w : world) : slice * world :=
  match bytes with
  | EmptyString => (sl, w)
  | String b bytes' =>
      let '(sl', w') := append_byte sl b w in
      append_bytes sl' bytes' w'
  end.

(** [serializerPool.Get()], with the pool's [New]. *)
Definition serializerPool_Get (w : world) : Serializer * world :=
  match pool w with
  | s :: rest => (s, {| heap := heap w; next := next w; pool := rest |})
  | [] =>
      let '(buf, w') := make_bytes 8192 w in (* Pre-allocate 8KB *)
      ({| out := buf |}, w')
  end.

Definition serializerPool_Put (s : Serializer) (w : world) : world :=
  {| heap := heap w; next := next w; pool := s :: pool w |}.

(** [s.String()]: the buffer as a string without copying. *)
Definition Serializer_String (s : Serializer) : gostring :=
  {| string_data := slice_data (out s); string_len := slice_len (out s) |}.

(** The bytes a string header denotes in a given heap. *)
Definition string_value (w : world) (str : gostring) : string :=
  string_of_list_ascii (take (string_len str) (array_at w (string_data str))).

(** What a visit that panics had appended to [s.out] when it panicked.  A
    visit is modelled by what it returns, and of a panic the model keeps the
    message, not the buffer; the bytes written up to the panic are therefore
    taken as given, whatever they are. *)
Variable written_before_panic : ast.Node -> string.

(** Serialize converts an AST node to ESTree-compatible JSON.  The visit
    methods touch [s.out] through [writeStr] and [writeByte] alone, that is
    through [append]: the visit of [node] appends to the emptied slice the
    bytes [VisitWith node] produces.  A visit that panics has appended some
    bytes already, and the panic unwinds before [String] and [Put]: the
    serializer is not handed back. *)
Definition Serialize (node : ast.Node) (w : world) : result gostring * world :=
  let '(s, w) := serializerPool_Get w in
  let s := {| out := {| slice_data := slice_data (out s);
                        slice_len := 0;  (* Reset length, keep capacity *)
                        slice_cap := slice_cap (out s) |} |} in
  match VisitWith node EmptyString with
  | Ok bytes =>
      let '(buf, w) := append_bytes (out s) bytes w in
      let s := {| out := buf |} in
      let result := Serializer_String s in
      let w := serializerPool_Put s w in
      (Ok result, w)
  | Panic msg =>
      let '(_, w) := append_bytes (out s) (written_before_panic node) w in
      (Panic msg, w)
  end.

(** ** The host entry point ([wasm/main.go]) *)

(** One run of the tokenizer and the parser over a source, with the contract
    of section 4.2 of the spec, "parse(source) -> (Program, ErrorList)": the
    tree built and the diagnostics accumulated. *)
Variable parser_run : string -> ast.Program ast.Node * ErrorList.

(** Modelled from the spec: [parser.ParseFile] is not among the sources.  It
    applies the error policy of sections 4.2 and 7 to a run of the parser:
    when diagnostics were recorded they are returned (as [ErrorList.Err] makes
    them an [error]) and no Program is; otherwise the Program is returned with
    a nil error. *)
Definition ParseFile (src : string) : option (ast.Program ast.Node) * option ErrorList :=
  let '(program, errs) := parser_run src in
  match ErrorList_Err errs with
  | Some err => (None, Some err)
  | None => (Some program, None)
  end.

(** [resolver.Resolve], which stamps scope contexts on the tree in place. *)
Variable Resolve : ast.Program ast.Node -> ast.Program ast.Node.

(** errorJSON returns a JSON string for error responses.  The loop ranges
    over the runes of [msg]: [skip] counts the bytes of the current rune
    that are still to be passed over, and a rune is handled at its first
    byte. *)
Fixpoint errorJSON_runes (skip : nat) (msg : string) : string :=
  match msg with
  | EmptyString => EmptyString
  | String _ rest =>
      match skip with
      | S skip' => errorJSON_runes skip' rest
      | O =>
          let '(c, width) := utf8.DecodeRune msg in
          (if c =? 34 then q "\'"
           else if c =? 92 then "\\"
           else if c =? 10 then "\n"
           else if c =? 13 then "\r"
           else if c =? 9 then "\t"
           else utf8.EncodeRune c) +:+ errorJSON_runes (width - 1) rest
      end
  end.

Definition errorJSON_escape (msg : string) : string := errorJSON_runes 0 msg.

Definition errorJSON (msg : string) : string :=
  q "{'error':'" +:+ errorJSON_escape msg +:+ q "'}".

(** [parseJS] once its arguments are read: [source] is [args[0].String()]
    ([None] when there is no argument) and [shouldResolve] the [resolve]
    option.  The result is the string handed to the host, read when the
    function returns. *)
Definition parseJS (source : option string) (shouldResolve : bool) (w : world)
  : string * world :=
  match source with
  | None => (errorJSON "no source code provided", w)
  | Some source =>
      match ParseFile source with
      | (_, Some err) => (errorJSON (ErrorList_Error err), w)
      | (None, None) =>
          (errorJSON (Sprintf "internal error: %v"
             [AStr "runtime error: invalid memory address or nil pointer dereference"]), w)
      | (Some program, None) =>
          let program := if shouldResolve then Resolve program else program in
          match Serialize (ast.NProgram program) w with
          | (Ok result, w') => (string_value w' result, w')
          | (Panic r, w') =>
              (* Recover from panics to prevent WASM from crashing *)
              (errorJSON (Sprintf "internal error: %v" [AStr r]), w')
          end
      end
  end.

(** ** Binary expressions, as the spec describes their parsing

    The tokenizer and the parser are not among the sources.  Section 4.2 of
    the spec: "Expression parsing uses precedence climbing: each
    binary/logical/relational operator has a fixed precedence and
    associativity (exponentiation is right-associative; all others
    left-associative)"; section 8 puts [* / %] above [+ -].  The model covers
    the arithmetic operators over number literals, which is what the
    expression of section 8 is made of. *)

(** Modelled from the spec: the tokens of the tokenizer, which is not among
    the sources; a number literal with its text, or an operator. *)
Inductive spec_token : Type :=
| TNumber (raw : string)
| TOperator (op : token.Token).

(** Modelled from the spec: the tree of a binary expression, as the parser,
    which is not among the sources, builds it. *)
Inductive spec_expr : Type :=
| SNumberLiteral (raw : string)
| SBinaryExpression (op : token.Token) (lhs rhs : spec_expr).

Definition is_digit (c : ascii) : bool :=
  (48 <=? byte_val c) && (byte_val c <=? 57).

Definition is_space (c : ascii) : bool :=
  Ascii.eqb c " " || Ascii.eqb c "009" || Ascii.eqb c "010" || Ascii.eqb c "013".

Definition flush_number (num : string) (toks : list spec_token) : list spec_token :=
  match num with
  | EmptyString => toks
  | _ => TNumber num :: toks
  end.

(** Modelled from the spec: the tokenizer, which is not among the sources,
    on digits, blanks and arithmetic operators; [num] holds the digits of the
    number being read. *)
Fixpoint spec_tokenize (src : string) (num : string) : option (list spec_token) :=
  match src with
  | EmptyString => Some (flush_number num [])
  | String c rest =>
      if is_digit c then spec_tokenize rest (num +:+ String c EmptyString)
      else if is_space c then flush_number num <$> spec_tokenize rest EmptyString
      else if Ascii.eqb c "+" then
        (fun toks => flush_number num (TOperator token.Plus :: toks)) <$> spec_tokenize rest EmptyString
      else if Ascii.eqb c "-" then
        (fun toks => flush_number num (TOperator token.Minus :: toks)) <$> spec_tokenize rest EmptyString
      else if Ascii.eqb c "/" then
        (fun toks => flush_number num (TOperator token.Slash :: toks)) <$> spec_tokenize rest EmptyString
      else if Ascii.eqb c "%" then
        (fun toks => flush_number num (TOperator token.Remainder :: toks)) <$> spec_tokenize rest EmptyString
      else if Ascii.eqb c "*" then
        match rest with
        | String c' rest' =>
            if Ascii.eqb c' "*" then
              (fun toks => flush_number num (TOperator token.Exponent :: toks)) <$> spec_tokenize rest' EmptyString
            else
              (fun toks => flush_number num (TOperator token.Multiply :: toks)) <$> spec_tokenize rest EmptyString
        | EmptyString => Some (flush_number num [TOperator token.Multiply])
        end
      else None
  end.

(** Modelled from the spec: the fixed precedence of a binary operator of the
    parser, which is not among the sources. *)
Definition spec_precedence (op : token.Token) : option Z :=
  match op with
  | token.Plus | token.Minus => Some 1
  | token.Multiply | token.Slash | token.Remainder => Some 2
  | token.Exponent => Some 3
  | _ => None
  end.

(** Modelled from the spec: the associativity of a binary operator of the
    parser, which is not among the sources. *)
Definition spec_right_associative (op : token.Token) : bool :=
  token.eqb op token.Exponent.

(** Modelled from the spec: precedence climbing, for the expression parser,
    which is not among the sources.  [spec_parseBinary] reads an operand and
    climbs;
    [spec_climb] extends [lhs] while the next operator binds at least as
    tightly as [min].  The right operand of a left-associative operator is
    parsed one level higher, that of a right-associative one at its level. *)
Fixpoint spec_parseBinary (fuel : nat) (min : Z) (toks : list spec_token)
  : option (spec_expr * list spec_token) :=
  match fuel with
  | O => None
  | S fuel' =>
      match toks with
      | TNumber raw :: rest => spec_climb fuel' min (SNumberLiteral raw) rest
      | _ => None
      end
  end
with spec_climb (fuel : nat) (min : Z) (lhs : spec_expr) (toks : list spec_token)
  : option (spec_expr * list spec_token) :=
  match fuel with
  | O => None
  | S fuel' =>
      match toks with
      | TOperator op :: rest =>
          match spec_precedence op with
          | Some p =>
              if min <=? p then
                match spec_parseBinary fuel'
                        (if spec_right_associative op then p else p + 1) rest with
                | Some (rhs, rest') =>
                    spec_climb fuel' min (SBinaryExpression op lhs rhs) rest'
                | None => None
                end
              else Some (lhs, toks)
          | None => Some (lhs, toks)
          end
      | _ => Some (lhs, toks)
      end
  end.

(** Modelled from the spec: [parse] on a binary expression; the tokenizer and
    the parser are not among the sources. *)
Definition spec_parse (src : string) : option spec_expr :=
  match spec_tokenize src EmptyString with
  | Some toks =>
      match spec_parseBinary (2 * length toks + 2) 0 toks with
      | Some (e, []) => Some e
      | _ => None
      end
  | None => None
  end.

(** ** JSON tokens (RFC 8259)

    [number = [ minus ] int [ frac ] [ exp ]], recognised by the automaton
    of the grammar. *)

Inductive number_state : Type :=
| NumStart | NumMinus | NumZero | NumInt
| NumDot | NumFrac | NumE | NumESign | NumExp.

Definition number_step (st : number_state) (c : ascii) : option number_state :=
  match st with
  | NumStart =>
      if Ascii.eqb c "-" then Some NumMinus
      else if Ascii.eqb c "0" then Some NumZero
      else if is_digit c then Some NumInt
      else None
  | NumMinus =>
      if Ascii.eqb c "0" then Some NumZero
      else if is_digit c then Some NumInt
      else None
  | NumZero =>
      if Ascii.eqb c "." then Some NumDot
      else if Ascii.eqb c "e" || Ascii.eqb c "E" then Some NumE
      else None
  | NumInt =>
      if is_digit c then Some NumInt
      else if Ascii.eqb c "." then Some NumDot
      else if Ascii.eqb c "e" || Ascii.eqb c "E" then Some NumE
      else None
  | NumDot => if is_digit c then Some NumFrac else None
  | NumFrac =>
      if is_digit c then Some NumFrac
      else if Ascii.eqb c "e" || Ascii.eqb c "E" then Some NumE
      else None
  | NumE =>
      if Ascii.eqb c "+" || Ascii.eqb c "-" then Some NumESign
      else if is_digit c then Some NumExp
      else None
  | NumESign => if is_digit c then Some NumExp else None
  | NumExp => if is_digit c then Some NumExp else None
  end.

Definition number_final (st : number_state) : bool :=
  match st with
  | NumZero | NumInt | NumFrac | NumExp => true
  | _ => false
  end.

Fixpoint number_run (st : number_state) (s : string) : bool :=
  match s with
  | EmptyString => number_final st
  | String c s' =>
      match number_step st c with
      | Some st' => number_run st' s'
      | None => false
      end
  end.

(** [s] is a JSON number token. *)
Definition is_json_number (s : string) : bool := number_run NumStart s.

Definition is_hex (c : ascii) : bool :=
  is_digit c
  || ((65 <=? byte_val c) && (byte_val c <=? 70))
  || ((97 <=? byte_val c) && (byte_val c <=? 102)).

(** [json_chars s]: [s] is a run of JSON string characters ([char =
    unescaped / escape ...]) closed by a quotation mark, and nothing more. *)
Fixpoint json_chars (s : string) : bool :=
  match s with
  | EmptyString => false
  | String c rest =>
      if Ascii.eqb c "034" then
        match rest with EmptyString => true | _ => false end
      else if Ascii.eqb c "\" then
        match rest with
        | String e rest' =>
            if Ascii.eqb e "034" || Ascii.eqb e "\" || Ascii.eqb e "/"
               || Ascii.eqb e "b" || Ascii.eqb e "f" || Ascii.eqb e "n"
               || Ascii.eqb e "r" || Ascii.eqb e "t"
            then json_chars rest'
            else if Ascii.eqb e "u" then
              match rest' with
              | String h1 (String h2 (String h3 (String h4 rest''))) =>
                  is_hex h1 && is_hex h2 && is_hex h3 && is_hex h4
                  && json_chars rest''
              | _ => false
              end
            else false
        | EmptyString => false
        end
      else if byte_val c <? 32 then false
      else json_chars rest
  end.

(** [s] is a JSON string token. *)
Definition is_json_string (s : string) : bool :=
  match s with
  | String c rest => Ascii.eqb c "034" && json_chars rest
  | EmptyString => false
  end.

(** ** The claims' own words

    Definitions that follow the wording of the specification, to be compared
    with what the code computes. *)

(** The rendering of one error: "message (line L, column C)". *)
Definition rendering (e : SyntaxError) : string :=
  Message e +:+ " (line " +:+ GoInt.Itoa (Line e) +:+ ", column "
  +:+ GoInt.Itoa (Column e) +:+ ")".

(** The message [errorUnexpectedToken] reports for a token, as the claim
    lists them. *)
Definition unexpected_message (p : parser) (tkn : token.Token) : string :=
  match tkn with
  | token.Eof => "Unexpected end of input"
  | token.Identifier => "Unexpected identifier"
  | token.Keyword => "Unexpected reserved word"
  | token.EscapedReservedWord => "Keyword must not contain escaped characters"
  | token.Number => "Unexpected number"
  | token.String => "Unexpected string"
  | token.Boolean | token.Null => "Unexpected token " +:+ literal p
  | _ => "Unexpected token " +:+ Token_String tkn
  end.

(** What [parseJS] hands to the host after a serialization. *)
Definition host_answer (r : result gostring * world) : string * world :=
  match r with
  | (Ok result, w) => (string_value w result, w)
  | (Panic msg, w) => (errorJSON ("internal error: " +:+ msg), w)
  end.

(** The 0-based offset of a position: [i - 1] for a set position, 0 for the
    unset one. *)
Definition zero_based (i : Idx) : Z := if 1 <=? i then i - 1 else 0.

(** The two position fields of a node with a stored span. *)
Definition position_text (sp : ast.Span) : string :=
  q "'start':" +:+ GoInt.Itoa (toESTreePos (ast.span_Idx0 sp))
  +:+ q ",'end':" +:+ GoInt.Itoa (toESTreePos (ast.span_Idx1 sp)).

(** The [scopeContext] field of a node: absent for the stamp 0. *)
Definition scopeContext_field (stamp : ast.ScopeContext) : string :=
  if stamp =? 0 then "" else q ",'scopeContext':" +:+ GoInt.Itoa stamp.

(** The hexadecimal digit of a value below 16. *)
Definition hex_digit (i : Z) : ascii :=
  default zero (String.get (Z.to_nat i) "0123456789abcdef").

(** The escape of one byte inside a JSON string. *)
Definition json_escape_byte (c : ascii) : string :=
  if Ascii.eqb c "034" then q "\'"
  else if Ascii.eqb c "\" then "\\"
  else if Ascii.eqb c "010" then "\n"
  else if Ascii.eqb c "013" then "\r"
  else if Ascii.eqb c "009" then "\t"
  else if byte_val c <? 32 then
    "\u00" +:+ String (hex_digit (byte_val c / 16))
                 (String (hex_digit (byte_val c mod 16)) "")
  else String c "".

Fixpoint json_escape (str : string) : string :=
  match str with
  | EmptyString => EmptyString
  | String c rest => json_escape_byte c +:+ json_escape rest
  end.

(** A string as a JSON string token. *)
Definition json_quote (str : string) : string :=
  String "034" (json_escape str +:+ String "034" "").

(** The node [n] with the stamp [stamp] as its scope context. *)
Definition BlockStatement_stamped (n : ast.BlockStatement ast.Node) (stamp : ast.ScopeContext)
  : ast.BlockStatement ast.Node :=
  {| ast.BlockStatement_List := ast.BlockStatement_List n;
     ast.BlockStatement_ScopeContext := stamp;
     ast.BlockStatement_span := ast.BlockStatement_span n |}.

(** The end of the JSON object of a node that may carry a stamp: the
    [scopeContext] field, if any, then the position fields. *)
Definition stamped_tail (stamp : ast.ScopeContext) (sp : ast.Span) : string :=
  scopeContext_field stamp +:+ "," +:+ position_text sp +:+ "}".

(** A [Program] without statements and a [case] without statements. *)
Definition empty_Program : ast.Program ast.Node := {| ast.Program_Body := [] |}.

Definition empty_Case (case : Idx) (test : option (option ast.Node)) : ast.CaseStatement ast.Node :=
  {| ast.CaseStatement_Case := case;
     ast.CaseStatement_Test := test;
     ast.CaseStatement_Consequent := [] |}.

(** The value of the [test] field of a [SwitchCase]. *)
Definition write_test (test : option (option ast.Node)) : Ser :=
  match test with
  | Some test => serialize VisitWith test
  | None => writeNull
  end.

(** The expression of section 8 of the spec and its expected grouping,
    ((1+2) - (((3*4)/5)%6)). *)
Definition precedence_example : string := "1 + 2 - 3 * 4 / 5 % 6".

Definition precedence_example_tree : spec_expr :=
  SBinaryExpression token.Minus
    (SBinaryExpression token.Plus (SNumberLiteral "1") (SNumberLiteral "2"))
    (SBinaryExpression token.Remainder
       (SBinaryExpression token.Slash
          (SBinaryExpression token.Multiply (SNumberLiteral "3") (SNumberLiteral "4"))
          (SNumberLiteral "5"))
       (SNumberLiteral "6")).

(** Two trees: the empty program, and the literal [null] at the first four
    bytes of a source. *)
Definition first_tree : ast.Node := ast.NProgram empty_Program.

Definition second_tree : ast.Node :=
  ast.NNullLiteral {| ast.NullLiteral_span := ast.mkSpan 1 5 |}.

(** The tree of the one-statement program [1e999]: the literal is out of the
    range of [float64] and its value is positive infinity. *)
Definition infinity_literal : ast.NumberLiteral :=
  {| ast.NumberLiteral_Value := S754_infinity false;
     ast.NumberLiteral_Raw := Some "1e999";
     ast.NumberLiteral_span := ast.mkSpan 1 6 |}.

Definition infinity_program : ast.Node :=
  ast.NProgram
    {| ast.Program_Body :=
         [ Some (ast.NExpressionStatement
                   {| ast.ExpressionStatement_Expression :=
                        Some (ast.NNumberLiteral infinity_literal);
                      ast.ExpressionStatement_span := ast.mkSpan 1 6 |}) ] |}.

(** ** Sample instances

    Concrete stand-ins for the packages outside the sources, and small trees,
    on which the statements below are run. *)

Definition sample_Token_String (t : token.Token) : string :=
  match t with
  | token.Plus => "+"
  | token.Assign => "="
  | token.Illegal => "ILLEGAL"
  | _ => "token"
  end.

Definition sample_FormatFloat_finite (n : ast.float64) : string := "0.5".

Definition sample_int64_overflow (n : ast.float64) : Z := GoInt.min_int.

(** The block [{ x }] of a source that starts with it. *)
Definition sample_block : ast.BlockStatement ast.Node :=
  {| ast.BlockStatement_List :=
       [ Some (ast.NExpressionStatement
                 {| ast.ExpressionStatement_Expression :=
                      Some (ast.NIdentifier
                              {| ast.Identifier_Name := "x";
                                 ast.Identifier_ScopeContext := 0;
                                 ast.Identifier_span := ast.mkSpan 3 4 |});
                    ast.ExpressionStatement_span := ast.mkSpan 3 4 |}) ];
     ast.BlockStatement_ScopeContext := 0;
     ast.BlockStatement_span := ast.mkSpan 1 6 |}.

(** The bytes of [later] laid over the bytes of [earlier]: what the string
    returned first reads as once the next result has been written into the
    same array. *)
Definition overwritten (earlier later : string) : string :=
  string_of_list_ascii
    (take (String.length earlier)
       (list_ascii_of_string later
        ++ drop (String.length later) (list_ascii_of_string earlier))).


(** The tree of [1 + 250;], and a run of the parser that stops at the first
    byte of any source but the empty one. *)
Definition sample_number (value : Z) (raw : string) (idx0 idx1 : Idx) : option ast.Node :=
  Some (ast.NNumberLiteral
          {| ast.NumberLiteral_Value := float64_of_Z value;
             ast.NumberLiteral_Raw := Some raw;
             ast.NumberLiteral_span := ast.mkSpan idx0 idx1 |}).

Definition sample_sum : ast.Node :=
  ast.NProgram
    {| ast.Program_Body :=
         [ Some (ast.NExpressionStatement
                   {| ast.ExpressionStatement_Expression :=
                        Some (ast.NBinaryExpression
                                {| ast.BinaryExpression_Operator := token.Plus;
                                   ast.BinaryExpression_Left := sample_number 1 "1" 1 2;
                                   ast.BinaryExpression_Right := sample_number 250 "250" 5 8;
                                   ast.BinaryExpression_span := ast.mkSpan 1 8 |});
                      ast.ExpressionStatement_span := ast.mkSpan 1 9 |}) ] |}.

Definition sample_parser_run (src : string) : ast.Program ast.Node * ErrorList :=
  ({| ast.Program_Body := [] |},
   if String.eqb src "" then [] else ErrorList_Add [] src 1 "Unexpected identifier").


(** ** Further notions *)

(** An offset brought back into the source: between 0 and [len(src)]. *)
Definition clamp_offset (src : string) (offset : Z) : Z :=
  Z.max 0 (Z.min offset (len src)).

(** [msg] holds no percent sign. *)
Fixpoint no_percent (msg : string) : bool :=
  match msg with
  | EmptyString => true
  | String c rest => negb (Ascii.eqb c "%") && no_percent rest
  end.


(** The value of a hexadecimal digit. *)
Definition hex_value (c : ascii) : option Z :=
  let v := byte_val c in
  if (48 <=? v) && (v <=? 57) then Some (v - 48)
  else if (97 <=? v) && (v <=? 102) then Some (v - 87)
  else if (65 <=? v) && (v <=? 70) then Some (v - 55)
  else None.

Definition byte_of (v : Z) : ascii := ascii_of_N (Z.to_N v).

(** The bytes a run of JSON string characters stands for, up to the closing
    quotation mark (RFC 8259, section 7).  An escape [\uXXXX] is decoded when
    it names an ASCII character, which takes one byte. *)
Fixpoint json_unescape (s : string) : option string :=
  match s with
  | EmptyString => None
  | String c rest =>
      if Ascii.eqb c "034" then
        match rest with EmptyString => Some EmptyString | _ => None end
      else if Ascii.eqb c "\" then
        match rest with
        | String e rest' =>
            if Ascii.eqb e "034" then String "034" <$> json_unescape rest'
            else if Ascii.eqb e "\" then String "\" <$> json_unescape rest'
            else if Ascii.eqb e "/" then String "/" <$> json_unescape rest'
            else if Ascii.eqb e "b" then String "008" <$> json_unescape rest'
            else if Ascii.eqb e "f" then String "012" <$> json_unescape rest'
            else if Ascii.eqb e "n" then String "010" <$> json_unescape rest'
            else if Ascii.eqb e "r" then String "013" <$> json_unescape rest'
            else if Ascii.eqb e "t" then String "009" <$> json_unescape rest'
            else if Ascii.eqb e "u" then
              match rest' with
              | String h1 (String h2 (String h3 (String h4 rest''))) =>
                  match hex_value h1, hex_value h2, hex_value h3, hex_value h4 with
                  | Some v1, Some v2, Some v3, Some v4 =>
                      let code := ((v1 * 16 + v2) * 16 + v3) * 16 + v4 in
                      if code <? 128 then String (byte_of code) <$> json_unescape rest''
                      else None
                  | _, _, _, _ => None
                  end
              | _ => None
              end
            else None
        | EmptyString => None
        end
      else if byte_val c <? 32 then None
      else String c <$> json_unescape rest
  end.

(** The string a JSON string token stands for. *)
Definition json_decode (s : string) : option string :=
  match s with
  | String c rest => if Ascii.eqb c "034" then json_unescape rest else None
  | EmptyString => None
  end.


(** A byte [errorJSON] renders as JSON: one it escapes, or one that needs no
    escape. *)
Definition errorJSON_safe_byte (c : ascii) : bool :=
  Ascii.eqb c "010" || Ascii.eqb c "013" || Ascii.eqb c "009" || (32 <=? byte_val c).

Fixpoint errorJSON_safe (msg : string) : bool :=
  match msg with
  | EmptyString => true
  | String c rest => errorJSON_safe_byte c && errorJSON_safe rest
  end.


(** Well-formed stores.  A slice is backed by an allocated array of its
    capacity; addresses from [next] on are free; the pooled serializers are
    backed, each by an array of its own. *)
Definition slice_ok (w : world) (sl : slice) : Prop :=
  exists arr : list ascii,
    heap w !! slice_data sl = Some arr
    /\ length arr = slice_cap sl
    /\ (slice_len sl <= slice_cap sl)%nat.

Definition fresh (w : world) : Prop :=
  forall a : nat, (next w <= a)%nat -> heap w !! a = None.

Definition world_ok (w : world) : Prop :=
  fresh w
  /\ Forall (fun s => slice_ok w (out s)) (pool w)
  /\ NoDup ((fun s => slice_data (out s)) <$> pool w).

(** The bytes of a slice. *)
Definition contents (w : world) (sl : slice) : list ascii :=
  take (slice_len sl) (array_at w (slice_data sl)).

(** What [append] does to the store: the slice it returns holds the old
    bytes and the new ones, no array other than the slice's own is written,
    and a new array, if any, is taken from the free addresses. *)
Definition grows (w : world) (sl : slice) (l : list ascii)
    (w' : world) (sl' : slice) : Prop :=
  slice_ok w' sl'
  /\ contents w' sl' = contents w sl ++ l
  /\ fresh w'
  /\ pool w' = pool w
  /\ (next w <= next w')%nat
  /\ (forall a : nat, a <> slice_data sl -> (a < next w)%nat ->
        heap w' !! a = heap w !! a)
  /\ (slice_data sl' = slice_data sl \/ (next w <= slice_data sl')%nat).


(** A store with three arrays: the first holds a string handed out earlier;
    the second, two bytes long and full, backs the serializer on top of the
    pool; the third backs another pooled serializer. *)
Definition sample_world : world :=
  {| heap := <[0%nat := ["o"; "k"]%char]>
               (<[1%nat := ["{"; "}"]%char]>
                  (<[2%nat := [zero; zero; zero; zero]]> ∅));
     next := 3%nat;
     pool := [ {| out := {| slice_data := 1; slice_len := 2; slice_cap := 2 |} |};
               {| out := {| slice_data := 2; slice_len := 0; slice_cap := 4 |} |} ] |}.

(** A program whose one statement is nil: its visit panics on the position
    of the statement, after the bytes below were written. *)
Definition panicking_tree : ast.Node :=
  ast.NProgram {| ast.Program_Body := [None] |}.

Definition sample_written_before_panic (node : ast.Node) : string :=
  q "{'type':'Program','body':[null],'start':".


(** A writer that only appends: what it leaves in the buffer is what the
    buffer held followed by what the writer leaves in an empty buffer, and
    whether it panics does not depend on the buffer. *)
Definition appends (a : Ser) : Prop :=
  forall out : string,
    a out = match a "" with
            | Ok text => Ok (out +:+ text)
            | Panic msg => Panic msg
            end.

(** A property of every element of a list. *)
Fixpoint All {A : Type} (P : A -> Prop) (l : list A) : Prop :=
  match l with
  | [] => True
  | x :: l' => P x /\ All P l'
  end.


(** The texts of a JSON array, a comma between any two of them. *)
Definition commas_before (texts : list string) : string :=
  fold_right (fun text acc => "," +:+ text +:+ acc) "" texts.

Definition join_commas (texts : list string) : string :=
  match texts with
  | [] => ""
  | text :: rest => text +:+ commas_before rest
  end.

(** The JSON of one quasi of a template literal, given its [tail] flag, and
    the JSON of all quasis of a template: the flag is set on the last. *)
Definition quasi_text (elem : ast.TemplateElement) (tail : bool) : string :=
  q "{'type':'TemplateElement','value':{'raw':"
  +:+ json_quote (ast.TemplateElement_Literal elem)
  +:+ q ",'cooked':" +:+ json_quote (ast.TemplateElement_Parsed elem)
  +:+ q "},'tail':" +:+ (if tail then "true" else "false")
  +:+ "," +:+ position_text (ast.TemplateElement_span elem) +:+ "}".

Fixpoint quasis_texts (elems : list ast.TemplateElement) : list string :=
  match elems with
  | [] => []
  | elem :: rest =>
      quasi_text elem (match rest with [] => true | _ => false end)
      :: quasis_texts rest
  end.


(** What [parseJS] answers, told from its arguments alone. *)
Definition parseJS_reply (source : option string) (shouldResolve : bool) : string :=
  match source with
  | None => errorJSON "no source code provided"
  | Some source =>
      match ParseFile source with
      | (_, Some err) => errorJSON (ErrorList_Error err)
      | (None, None) =>
          errorJSON "internal error: runtime error: invalid memory address or nil pointer dereference"
      | (Some program, None) =>
          match VisitWith (ast.NProgram (if shouldResolve then Resolve program
                                         else program)) "" with
          | Ok json => json
          | Panic r => errorJSON ("internal error: " +:+ r)
          end
      end
  end.

(** Calls of [parseJS] one after the other, each on the store the one before
    leaves. *)
Fixpoint parseJS_calls (calls : list (option string * bool)) (w : world)
  : list string * world :=
  match calls with
  | [] => ([], w)
  | (source, shouldResolve) :: rest =>
      let '(answer, w) := parseJS source shouldResolve w in
      let '(answers, w) := parseJS_calls rest w in
      (answer :: answers, w)
  end.


(** The trees of [[1, , 250]] and of the template [`a${x}b`]. *)
Definition sample_array : ast.ArrayLiteral ast.Node :=
  {| ast.ArrayLiteral_Value := [ sample_number 1 "1" 2 3; None; sample_number 250 "250" 7 10 ];
     ast.ArrayLiteral_span := ast.mkSpan 1 11 |}.

Definition sample_template : ast.TemplateLiteral ast.Node :=
  {| ast.TemplateLiteral_Elements :=
       [ {| ast.TemplateElement_Literal := "a";
            ast.TemplateElement_Parsed := "a";
            ast.TemplateElement_span := ast.mkSpan 2 3 |};
         {| ast.TemplateElement_Literal := "b";
            ast.TemplateElement_Parsed := "b";
            ast.TemplateElement_span := ast.mkSpan 7 8 |} ];
     ast.TemplateLiteral_Expressions :=
       [ Some (ast.NIdentifier
                 {| ast.Identifier_Name := "x";
                    ast.Identifier_ScopeContext := 0;
                    ast.Identifier_span := ast.mkSpan 5 6 |}) ];
     ast.TemplateLiteral_span := ast.mkSpan 1 9 |}.


(** The tree of the class member [static { x }]. *)
Definition sample_static : ast.ClassStaticBlock ast.Node :=
  {| ast.ClassStaticBlock_Block :=
       {| ast.BlockStatement_List :=
            [ Some (ast.NExpressionStatement
                      {| ast.ExpressionStatement_Expression :=
                           Some (ast.NIdentifier
                                   {| ast.Identifier_Name := "x";
                                      ast.Identifier_ScopeContext := 0;
                                      ast.Identifier_span := ast.mkSpan 10 11 |});
                         ast.ExpressionStatement_span := ast.mkSpan 10 11 |}) ];
          ast.BlockStatement_ScopeContext := 0;
          ast.BlockStatement_span := ast.mkSpan 8 13 |};
     ast.ClassStaticBlock_span := ast.mkSpan 1 13 |}.


(** ** The lexical structure of JSON

    A scanner for the tokens of a JSON text without white space: strings
    with their escapes, braces and brackets nested in one another, commas,
    colons, and bare words made of letters, digits, signs and dots (the
    numbers and the literals [true], [false], [null]).  It checks that every
    string is closed and holds no raw control byte, that every escape is one
    of JSON's, and that every closing brace or bracket closes the innermost
    open one.  It does not check the order of the tokens. *)
Inductive bracket : Type := Brace | Square.

Inductive lex_mode : Type :=
| Outside             (* between tokens *)
| InString            (* after an opening quotation mark *)
| Escaped             (* after a backslash *)
| Hex (more : nat).   (* after the u of an escape, [S more] digits to come *)

Definition is_letter (c : ascii) : bool :=
  ((65 <=? byte_val c) && (byte_val c <=? 90))
  || ((97 <=? byte_val c) && (byte_val c <=? 122)).

Definition bare_char (c : ascii) : bool :=
  is_digit c || is_letter c
  || Ascii.eqb c "+" || Ascii.eqb c "-" || Ascii.eqb c ".".

Fixpoint bare (s : string) : bool :=
  match s with
  | EmptyString => true
  | String c rest => bare_char c && bare rest
  end.

Fixpoint lex_scan (mode : lex_mode) (stack : list bracket) (s : string)
  : option (list bracket) :=
  match s with
  | EmptyString =>
      match mode with
      | Outside => Some stack
      | _ => None
      end
  | String c rest =>
      match mode with
      | Outside =>
          if Ascii.eqb c "034" then lex_scan InString stack rest
          else if Ascii.eqb c "{" then lex_scan Outside (Brace :: stack) rest
          else if Ascii.eqb c "[" then lex_scan Outside (Square :: stack) rest
          else if Ascii.eqb c "}" then
            match stack with
            | Brace :: stack' => lex_scan Outside stack' rest
            | _ => None
            end
          else if Ascii.eqb c "]" then
            match stack with
            | Square :: stack' => lex_scan Outside stack' rest
            | _ => None
            end
          else if Ascii.eqb c "," || Ascii.eqb c ":" || bare_char c
          then lex_scan Outside stack rest
          else None
      | InString =>
          if Ascii.eqb c "034" then lex_scan Outside stack rest
          else if Ascii.eqb c "\" then lex_scan Escaped stack rest
          else if byte_val c <? 32 then None
          else lex_scan InString stack rest
      | Escaped =>
          if Ascii.eqb c "034" || Ascii.eqb c "\" || Ascii.eqb c "/"
             || Ascii.eqb c "b" || Ascii.eqb c "f" || Ascii.eqb c "n"
             || Ascii.eqb c "r" || Ascii.eqb c "t"
          then lex_scan InString stack rest
          else if Ascii.eqb c "u" then lex_scan (Hex 3) stack rest
          else None
      | Hex more =>
          if is_hex c then
            match more with
            | O => lex_scan InString stack rest
            | S more' => lex_scan (Hex more') stack rest
            end
          else None
      end
  end.

(** A text that scans from its first byte to its last with every string and
    every bracket closed. *)
Definition lexically_sound (text : string) : bool :=
  match lex_scan Outside [] text with
  | Some [] => true
  | _ => false
  end.

(** A writer whose text, when it returns, takes the scanner from the open
    brackets [stack] to the open brackets [stack'], and that only appends. *)
Definition lexes (a : Ser) (stack stack' : list bracket) : Prop :=
  appends a
  /\ match a "" with
     | Ok text => lex_scan Outside stack text = Some stack'
     | Panic _ => True
     end.

(** The buffer of the serializer taken from the pool, emptied. *)
Definition taken (w : world) : slice :=
  {| slice_data := slice_data (out (fst (serializerPool_Get w)));
     slice_len := 0;
     slice_cap := slice_cap (out (fst (serializerPool_Get w))) |}.


(** The runes of a string written back one after the other: the string
    itself where it is UTF-8, with U+FFFD in place of every byte that is
    part of no sequence. *)
Fixpoint reencode_from (skip : nat) (msg : string) : string :=
  match msg with
  | EmptyString => EmptyString
  | String _ rest =>
      match skip with
      | S skip' => reencode_from skip' rest
      | O =>
          utf8.EncodeRune (fst (utf8.DecodeRune msg))
          +:+ reencode_from (snd (utf8.DecodeRune msg) - 1) rest
      end
  end.

Definition reencode (msg : string) : string := reencode_from 0 msg.

(** [utf8.ValidString]: no step of the decoding yields [(RuneError, 1)]. *)
Fixpoint valid_from (skip : nat) (msg : string) : bool :=
  match msg with
  | EmptyString => true
  | String _ rest =>
      match skip with
      | S skip' => valid_from skip' rest
      | O =>
          negb ((fst (utf8.DecodeRune msg) =? utf8.RuneError)
                && (snd (utf8.DecodeRune msg) =? 1)%nat)
          && valid_from (snd (utf8.DecodeRune msg) - 1) rest
      end
  end.

Definition valid_utf8 (msg : string) : bool := valid_from 0 msg.

(** [s[n:]], empty beyond the end of [s]. *)
Fixpoint str_drop (n : nat) (s : string) : string :=
  match n, s with
  | S n', String _ s' => str_drop n' s'
  | _, _ => s
  end.

(** The first [k] bytes of [s] are there and are not ASCII. *)
Fixpoint high_prefix (k : nat) (s : string) : Prop :=
  match k, s with
  | O, _ => True
  | S k', String c s' => 128 <= byte_val c /\ high_prefix k' s'
  | S _, EmptyString => False
  end.

Fixpoint high (s : string) : bool :=
  match s with
  | EmptyString => true
  | String c s' => (128 <=? byte_val c) && high s'
  end.


(** ** The JSON of the nodes that carry a scope context

    The texts of the children come first as givens; the text of the node is
    built around them, with the [scopeContext] field of the node itself in
    [stamped_tail]. *)
Definition identifier_text (n : ast.Identifier) : string :=
  q "{'type':'Identifier','name':" +:+ json_quote (ast.Identifier_Name n)
  +:+ stamped_tail (ast.Identifier_ScopeContext n) (ast.Identifier_span n).

Definition name_text (name : option ast.Identifier) : string :=
  match name with
  | Some n => identifier_text n
  | None => "null"
  end.

Definition block_text (texts : list string) (stamp : ast.ScopeContext) (sp : ast.Span)
  : string :=
  q "{'type':'BlockStatement','body':[" +:+ join_commas texts +:+ "]"
  +:+ stamped_tail stamp sp.

(** The rest parameter of a function, after a comma when parameters come
    before it; then the parameters of a function, the rest parameter last. *)
Definition rest_text (params : list string) (rest : option string) : string :=
  match rest with
  | Some text =>
      (match params with [] => "" | _ => "," end)
      +:+ q "{'type':'RestElement','argument':" +:+ text +:+ "}"
  | None => ""
  end.

Definition params_text (params : list string) (rest : option string) : string :=
  join_commas params +:+ rest_text params rest.

Definition bool_text (b : bool) : string := if b then "true" else "false".

(** The texts of the statements of a list, of the parameters of a function
    and of its rest parameter, each as its visit writes it. *)
Definition statements_written (stmts : list (option ast.Node)) (texts : list string)
  : Prop :=
  Forall2 (fun stmt text => serialize VisitWith stmt "" = Ok text) stmts texts.

Definition params_written (params : list (ast.VariableDeclarator ast.Node))
    (texts : list string) : Prop :=
  Forall2 (fun param text => serializeParam VisitWith param "" = Ok text) params texts.

Definition rest_written (rest : option ast.Node) (text : option string) : Prop :=
  match rest, text with
  | Some node, Some text => VisitWith node "" = Ok text
  | None, None => True
  | _, _ => False
  end.

(** [needle] occurs in [hay]. *)
Fixpoint contains (needle hay : string) : bool :=
  String.prefix needle hay
  || match hay with
     | EmptyString => false
     | String _ hay' => contains needle hay'
     end.


(** The trees of [async function f(x, ...r) { x }], of the same text as a
    declaration and of the arrow function [x => x], stamped the way the
    resolver stamps them: the function scope is 2, the block of the body 3,
    the scope of the arrow function 4. *)
Definition sample_identifier (name : string) (stamp : ast.ScopeContext) (idx0 idx1 : Idx)
  : ast.Identifier :=
  {| ast.Identifier_Name := name;
     ast.Identifier_ScopeContext := stamp;
     ast.Identifier_span := ast.mkSpan idx0 idx1 |}.

Definition sample_param (name : string) (stamp : ast.ScopeContext) (idx0 idx1 : Idx)
  : ast.VariableDeclarator ast.Node :=
  {| ast.VariableDeclarator_Target :=
       {| ast.BindingTarget_Target :=
            Some (ast.NIdentifier (sample_identifier name stamp idx0 idx1));
          ast.BindingTarget_span := ast.mkSpan idx0 idx1 |};
     ast.VariableDeclarator_Initializer := None;
     ast.VariableDeclarator_span := ast.mkSpan idx0 idx1 |}.

Definition sample_function : ast.FunctionLiteral ast.Node :=
  {| ast.FunctionLiteral_Name := Some (sample_identifier "f" 1 16 17);
     ast.FunctionLiteral_ParameterList :=
       {| ast.ParameterList_List := [ sample_param "x" 2 18 19 ];
          ast.ParameterList_Rest :=
            Some (ast.NIdentifier (sample_identifier "r" 2 24 25)) |};
     ast.FunctionLiteral_Body :=
       {| ast.BlockStatement_List :=
            [ Some (ast.NExpressionStatement
                      {| ast.ExpressionStatement_Expression :=
                           Some (ast.NIdentifier (sample_identifier "x" 2 29 30));
                         ast.ExpressionStatement_span := ast.mkSpan 29 30 |}) ];
          ast.BlockStatement_ScopeContext := 3;
          ast.BlockStatement_span := ast.mkSpan 27 32 |};
     ast.FunctionLiteral_Generator := false;
     ast.FunctionLiteral_Async := true;
     ast.FunctionLiteral_ScopeContext := 2;
     ast.FunctionLiteral_span := ast.mkSpan 1 32 |}.

Definition sample_declaration : ast.FunctionDeclaration ast.Node :=
  {| ast.FunctionDeclaration_Function := sample_function;
     ast.FunctionDeclaration_span := ast.mkSpan 1 32 |}.

Definition sample_arrow : ast.ArrowFunctionLiteral ast.Node :=
  {| ast.ArrowFunctionLiteral_ParameterList :=
       {| ast.ParameterList_List := [ sample_param "x" 4 1 2 ];
          ast.ParameterList_Rest := None |};
     ast.ArrowFunctionLiteral_Body :=
       {| ast.ConciseBody_Body :=
            Some (ast.NIdentifier (sample_identifier "x" 4 6 7));
          ast.ConciseBody_span := ast.mkSpan 6 7 |};
     ast.ArrowFunctionLiteral_Async := false;
     ast.ArrowFunctionLiteral_ScopeContext := 4;
     ast.ArrowFunctionLiteral_span := ast.mkSpan 1 7 |}.

(** The member [static { x }] with its block stamped 3, and the private
    name [#secret] with its identifier stamped 5. *)
Definition sample_static_stamped : ast.ClassStaticBlock ast.Node :=
  {| ast.ClassStaticBlock_Block :=
       BlockStatement_stamped (ast.ClassStaticBlock_Block sample_static) 3;
     ast.ClassStaticBlock_span := ast.ClassStaticBlock_span sample_static |}.

Definition sample_private : ast.PrivateIdentifier :=
  {| ast.PrivateIdentifier_Identifier := sample_identifier "secret" 5 2 8;
     ast.PrivateIdentifier_span := ast.mkSpan 1 8 |}.

(** * Properties *)

(** ** Integers and strings *)

Lemma wrap_id (z : Z) : GoInt.in_range z -> GoInt.wrap z = z.
Proof.
  unfold GoInt.in_range, GoInt.wrap, GoInt.min_int, GoInt.max_int. intros H.
  rewrite Z.mod_small; lia.
Qed.

Lemma str_app_assoc (a b c : string) : (a +:+ b) +:+ c = a +:+ (b +:+ c).
Proof. induction a as [|x a IH]; simpl; [reflexivity | f_equal; exact IH]. Qed.

Lemma str_app_nil_r (a : string) : a +:+ "" = a.
Proof. induction a as [|x a IH]; simpl; [reflexivity | f_equal; exact IH]. Qed.

Lemma len_String (c : ascii) (s : string) : len (String c s) = 1 + len s.
Proof. unfold len. simpl String.length. lia. Qed.

Lemma len_nonneg (s : string) : 0 <= len s.
Proof. unfold len. lia. Qed.

Lemma after_last_newline_none (s : string) :
  has_newline s = false -> after_last_newline s = s.
Proof.
  destruct s as [|c s]; simpl; [reflexivity|].
  intros H. apply orb_false_iff in H as [Hc Hs]. now rewrite Hs, Hc.
Qed.

(** ** The error collector *)

(** The loop of [positionToLineColumn], started at byte [i] with counters
    [line] and [col], has scanned [rest[0 : offset - i]] when it stops. *)
Lemma positionToLineColumn_loop_spec (rest : string) :
  forall i offset line col,
    1 <= line -> 1 <= col ->
    line + len rest <= GoInt.max_int ->
    col + len rest <= GoInt.max_int ->
    let prefix := str_take (Z.to_nat (offset - i)) rest in
    positionToLineColumn_loop rest i offset line col =
      (line + count_newlines prefix,
       if has_newline prefix then 1 + len (after_last_newline prefix)
       else col + len prefix).
Proof.
  induction rest as [|c rest IH]; intros i offset line col Hl Hc Hlb Hcb prefix.
  - subst prefix. destruct (Z.to_nat (offset - i)); simpl; f_equal; unfold len; simpl; lia.
  - rewrite len_String in Hlb, Hcb. pose proof (len_nonneg rest) as Hn.
    simpl positionToLineColumn_loop.
    destruct (Z.ltb_spec i offset) as [Hlt|Hge].
    + assert (Hk : Z.to_nat (offset - i) = S (Z.to_nat (offset - (i + 1)))) by lia.
      subst prefix. rewrite Hk. simpl str_take.
      set (p := str_take (Z.to_nat (offset - (i + 1))) rest).
      assert (Hmax : GoInt.max_int = 2 ^ 63 - 1) by reflexivity.
      assert (Hmin : GoInt.min_int = - 2 ^ 63) by reflexivity.
      destruct (Ascii.eqb c LF) eqn:Ec.
      * rewrite wrap_id by (unfold GoInt.in_range; lia).
        rewrite IH by lia. fold p.
        simpl. rewrite Ec. simpl.
        destruct (has_newline p) eqn:Hp; f_equal; lia.
      * rewrite wrap_id by (unfold GoInt.in_range; lia).
        rewrite IH by lia. fold p.
        simpl. rewrite Ec. simpl.
        destruct (has_newline p) eqn:Hp; f_equal; try lia.
        rewrite len_String. lia.
    + subst prefix. replace (Z.to_nat (offset - i)) with 0%nat by lia.
      simpl. f_equal; unfold len; simpl; lia.
Qed.

Lemma positionToLineColumn_spec (src : string) (offset : Z) :
  len src < GoInt.max_int ->
  let prefix := str_take (Z.to_nat offset) src in
  positionToLineColumn src offset =
    (1 + count_newlines prefix, len (after_last_newline prefix) + 1).
Proof.
  intros Hlen prefix. unfold positionToLineColumn.
  rewrite positionToLineColumn_loop_spec by lia.
  rewrite Z.sub_0_r. fold prefix.
  destruct (has_newline prefix) eqn:Hp.
  - f_equal. lia.
  - rewrite after_last_newline_none by exact Hp. f_equal. lia.
Qed.

(** C2. [ErrorList.Add] appends a [SyntaxError] whose [Offset] is [idx - 1],
    or 0 when that is negative; its [Line] is 1 plus the number of newline
    bytes of the prefix [src[0:Offset]] (cut at the end of [src]) and its
    [Column] the number of bytes after the last newline of that prefix, plus
    1.  A position is an [int] above its least value, and a source is shorter
    than the largest [int]. *)
Theorem ErrorList_Add_position (e : ErrorList) (src : string) (idx : Idx) (msg : string) :
  GoInt.min_int < idx <= GoInt.max_int ->
  len src < GoInt.max_int ->
  let offset := Z.max 0 (idx - 1) in
  let prefix := str_take (Z.to_nat offset) src in
  ErrorList_Add e src idx msg =
    e ++ [ {| Message := msg;
              Line := 1 + count_newlines prefix;
              Column := len (after_last_newline prefix) + 1;
              Offset := offset |} ].
Proof.
  intros Hidx Hlen offset prefix. unfold ErrorList_Add.
  assert (Hmax : GoInt.max_int = 2 ^ 63 - 1) by reflexivity.
  assert (Hmin : GoInt.min_int = - 2 ^ 63) by reflexivity.
  rewrite wrap_id by (unfold GoInt.in_range; lia).
  replace (if idx - 1 <? 0 then 0 else idx - 1) with offset
    by (subst offset; destruct (Z.ltb_spec (idx - 1) 0); lia).
  rewrite positionToLineColumn_spec by exact Hlen.
  reflexivity.
Qed.

Lemma SyntaxError_Error_rendering (e : SyntaxError) :
  SyntaxError_Error e = rendering e.
Proof. reflexivity. Qed.

(** C3. The summary of an [ErrorList] is "no errors" for the empty list, the
    rendering of the error for a list of one, and otherwise the rendering of
    the first error followed by " (and N more errors)", N being the length of
    the list minus one. *)
Theorem ErrorList_Error_summary :
  ErrorList_Error [] = "no errors"
  /\ (forall e0 : SyntaxError, ErrorList_Error [e0] = rendering e0)
  /\ (forall (e0 e1 : SyntaxError) (rest : ErrorList),
        let e := e0 :: e1 :: rest in
        ErrorList_Error e =
          rendering e0 +:+ " (and " +:+ GoInt.Itoa (Z.of_nat (length e) - 1)
          +:+ " more errors)").
Proof.
  split; [reflexivity|]. split; [reflexivity|].
  intros e0 e1 rest e. subst e.
  unfold ErrorList_Error. rewrite SyntaxError_Error_rendering.
  reflexivity.
Qed.

Lemma parser_error_appends (p : parser) (msg : string) (vals : list fmt_arg) :
  exists e : SyntaxError,
    snd (parser_error p msg vals) = Some e
    /\ errors (fst (parser_error p msg vals)) = errors p ++ [e]
    /\ Message e = Sprintf msg vals.
Proof.
  unfold parser_error, ErrorList_Add.
  destruct (positionToLineColumn _ _) as [line col]. simpl.
  eexists. rewrite last_snoc. split; [reflexivity|]. split; reflexivity.
Qed.

(** C7. Every call of [errorUnexpectedToken] records, and returns, one more
    diagnostic, whose message is chosen by the kind of the token: fixed texts
    for [Eof], [Identifier], [Keyword], [EscapedReservedWord], [Number] and
    [String]; "Unexpected token " and the literal of the source for [Boolean]
    and [Null]; "Unexpected token " and the text of the token otherwise. *)
Theorem errorUnexpectedToken_message (p : parser) (tkn : token.Token) :
  exists e : SyntaxError,
    snd (errorUnexpectedToken p tkn) = Some e
    /\ errors (fst (errorUnexpectedToken p tkn)) = errors p ++ [e]
    /\ Message e = unexpected_message p tkn.
Proof.
  destruct tkn; unfold errorUnexpectedToken, unexpected_message;
    match goal with
    | |- context [parser_error p ?m ?v] =>
        destruct (parser_error_appends p m v) as (e & He & Hes & Hm);
        exists e; split; [exact He|]; split; [exact Hes|];
        rewrite Hm; unfold errUnexpectedToken, errUnexpectedEndOfInput; simpl;
        rewrite ?str_app_nil_r; reflexivity
    end.
Qed.

(** C1. [ErrorList.Err] is nil exactly for the empty list and is the list
    itself otherwise; so [ParseFile], which returns a run's diagnostics
    through [Err] and the Program only when there are none, gives its caller
    either a Program and a nil error, or no Program and a non-empty list of
    diagnostics; [parseJS] serializes the Program in the first case and
    answers with the summary of the diagnostics in the second. *)
Theorem ParseFile_tree_or_diagnostics :
  (forall e : ErrorList,
     ErrorList_Err e = match e with [] => None | _ :: _ => Some e end)
  /\ (forall (src : string) (resolve : bool) (w : world),
        (exists program,
           ParseFile src = (Some program, None)
           /\ parseJS (Some src) resolve w =
                host_answer
                  (Serialize (ast.NProgram (if resolve then Resolve program else program)) w))
        \/ (exists e0 errs,
              ParseFile src = (None, Some (e0 :: errs))
              /\ parseJS (Some src) resolve w =
                   (errorJSON (ErrorList_Error (e0 :: errs)), w))).
Proof.
  split.
  - intros [|x e]; reflexivity.
  - intros src resolve w. unfold parseJS, ParseFile.
    destruct (parser_run src) as [program [|e0 errs]].
    + left. exists program. split; [reflexivity|]. simpl.
      destruct (Serialize _ w) as [[result|msg] w']; simpl; [reflexivity|].
      rewrite str_app_nil_r. reflexivity.
    + right. exists e0, errs. split; reflexivity.
Qed.

(** ** The output buffer *)

Lemma seq_ok (a b : Ser) (out out' : string) :
  a out = Ok out' -> (a ;; b)%ser out = b out'.
Proof. unfold seq. now intros ->. Qed.

Lemma seq_panic (a b : Ser) (out msg : string) :
  a out = Panic msg -> (a ;; b)%ser out = Panic msg.
Proof. unfold seq. now intros ->. Qed.

Lemma writeStr_ok (str out : string) : writeStr str out = Ok (out +:+ str).
Proof. reflexivity. Qed.

Lemma seq_writeStr (str : string) (b : Ser) (out : string) :
  (writeStr str ;; b)%ser out = b (out +:+ str).
Proof. reflexivity. Qed.

Lemma smallInts_lookup (k : nat) :
  (k < 100)%nat -> smallInts !! k = Some (GoInt.Itoa (Z.of_nat k)).
Proof.
  intros H.
  do 100 (destruct k as [|k]; [reflexivity|]).
  lia.
Qed.

(** The table of small integers agrees with [strconv.Itoa]. *)
Lemma writeInt_Itoa (n : Z) (out : string) :
  writeInt n out = Ok (out +:+ GoInt.Itoa n).
Proof.
  unfold writeInt.
  destruct (Z.leb_spec 0 n); [destruct (Z.ltb_spec n 100)|]; simpl; try reflexivity.
  unfold writeSmallInt. rewrite smallInts_lookup by lia.
  rewrite Z2Nat.id by lia. reflexivity.
Qed.

Lemma writeInt64_Itoa (n : Z) (out : string) :
  writeInt64 n out = Ok (out +:+ GoInt.Itoa n).
Proof. exact (writeInt_Itoa n out). Qed.

Lemma writePosition_stored (sp : ast.Span) (out : string) :
  writePosition (stored sp) out = Ok (out +:+ position_text sp).
Proof.
  unfold writePosition, stored, position_text, eval. simpl Idx0. simpl Idx1.
  rewrite seq_writeStr. erewrite seq_ok by apply writeInt_Itoa.
  rewrite seq_writeStr. rewrite writeInt_Itoa.
  now rewrite !str_app_assoc.
Qed.

Lemma toESTreePos_zero_based (i : Idx) :
  0 <= i <= GoInt.max_int -> toESTreePos i = zero_based i.
Proof.
  intros H. unfold toESTreePos, zero_based.
  assert (Hmax : GoInt.max_int = 2 ^ 63 - 1) by reflexivity.
  destruct (Z.eqb_spec i 0) as [->|Hne]; [reflexivity|].
  destruct (Z.leb_spec 1 i); [|lia].
  apply wrap_id. unfold GoInt.in_range, GoInt.min_int. lia.
Qed.

(** C4. The start and end the serializer writes for a span are the 0-based
    offsets of its two positions: a position [i >= 1] is written as [i - 1]
    and the unset position 0 as 0, so that the unset position and the
    position of the first byte are both written as 0. *)
Theorem writePosition_zero_based (sp : ast.Span) (out : string) :
  0 <= ast.span_Idx0 sp <= GoInt.max_int ->
  0 <= ast.span_Idx1 sp <= GoInt.max_int ->
  writePosition (stored sp) out =
    Ok (out +:+ q "'start':" +:+ GoInt.Itoa (zero_based (ast.span_Idx0 sp))
            +:+ q ",'end':" +:+ GoInt.Itoa (zero_based (ast.span_Idx1 sp)))
  /\ toESTreePos 0 = 0
  /\ toESTreePos 1 = 0.
Proof.
  intros H0 H1. split; [|split; reflexivity].
  rewrite writePosition_stored. unfold position_text.
  now rewrite !toESTreePos_zero_based by assumption.
Qed.

Lemma hex_get (i : Z) :
  0 <= i < 16 ->
  String.get (Z.to_nat i) "0123456789abcdef" = Some (hex_digit i).
Proof.
  intros H. unfold hex_digit.
  assert (Hk : (Z.to_nat i < 16)%nat) by lia.
  revert Hk. generalize (Z.to_nat i). intros k Hk.
  do 16 (destruct k as [|k]; [reflexivity|]). lia.
Qed.

Lemma byte_val_range (c : ascii) : 0 <= byte_val c < 256.
Proof.
  unfold byte_val. pose proof (N_ascii_bounded c). lia.
Qed.

Lemma writeString_byte_spec (c : ascii) (out : string) :
  writeString_byte c out = Ok (out +:+ json_escape_byte c).
Proof.
  unfold writeString_byte, json_escape_byte.
  repeat match goal with
         | |- context [Ascii.eqb c ?x] => destruct (Ascii.eqb c x); [reflexivity|]
         end.
  destruct (Z.ltb_spec (byte_val c) 32) as [Hlt|Hge]; [|reflexivity].
  pose proof (byte_val_range c) as Hr.
  rewrite Z.shiftr_div_pow2 by lia.
  change 15 with (Z.ones 4). rewrite Z.land_ones by lia.
  change (2 ^ 4) with 16.
  unfold writeByteAt.
  rewrite !hex_get by (try apply Z.mod_pos_bound; try split; try lia;
                       try (apply Z.div_pos; lia);
                       try (apply Z.div_lt_upper_bound; lia)).
  unfold seq, writeStr, writeByte. now rewrite !str_app_assoc.
Qed.

Lemma writeString_loop_spec (str : string) :
  forall out, writeString_loop str out = Ok (out +:+ json_escape str).
Proof.
  induction str as [|c rest IH]; intros out; simpl.
  - unfold skip. now rewrite str_app_nil_r.
  - erewrite seq_ok by apply writeString_byte_spec.
    rewrite IH. now rewrite str_app_assoc.
Qed.

(** [writeString] writes its argument as a JSON string token. *)
Lemma writeString_spec (str out : string) :
  writeString str out = Ok (out +:+ json_quote str).
Proof.
  unfold writeString, json_quote, writeByte, seq.
  rewrite writeString_loop_spec.
  rewrite !str_app_assoc. reflexivity.
Qed.

(** ** Scope contexts *)

Lemma scopeContext_field_empty (stamp : ast.ScopeContext) :
  scopeContext_field stamp = "" <-> stamp = 0.
Proof.
  unfold scopeContext_field. destruct (Z.eqb_spec stamp 0) as [->|Hne].
  - split; reflexivity.
  - split; [discriminate | contradiction].
Qed.

(** The statements every stamped node ends with. *)
Lemma write_stamped_tail (stamp : ast.ScopeContext) (sp : ast.Span) (mid : string) :
  (when (negb (stamp =? 0))
     (writeStr (q ",'scopeContext':") ;; writeInt stamp) ;;
   writeStr "," ;;
   writePosition (stored sp) ;;
   writeStr "}")%ser mid = Ok (mid +:+ stamped_tail stamp sp).
Proof.
  unfold stamped_tail, scopeContext_field.
  destruct (Z.eqb_spec stamp 0) as [->|Hne]; simpl when.
  - rewrite (seq_ok skip _ mid mid) by reflexivity.
    rewrite seq_writeStr. erewrite seq_ok by apply writePosition_stored.
    rewrite writeStr_ok. now rewrite !str_app_assoc.
  - erewrite seq_ok
      by (rewrite seq_writeStr; apply writeInt_Itoa).
    rewrite seq_writeStr. erewrite seq_ok by apply writePosition_stored.
    rewrite writeStr_ok. now rewrite !str_app_assoc.
Qed.

Lemma VisitIdentifier_stamp (n : ast.Identifier) (out : string) :
  VisitIdentifier n out =
    Ok (out +:+ q "{'type':'Identifier','name':"
            +:+ json_quote (ast.Identifier_Name n)
            +:+ stamped_tail (ast.Identifier_ScopeContext n) (ast.Identifier_span n)).
Proof.
  unfold VisitIdentifier. rewrite seq_writeStr.
  erewrite seq_ok by apply writeString_spec.
  rewrite write_stamped_tail. now rewrite !str_app_assoc.
Qed.

(** ** Nodes without a span *)

(** C6. A [Program] with an empty body is written as its type and an empty
    body, with no position: the position methods, which panic on it, are not
    called.  A [CaseStatement] with an empty consequent is written with the
    start field alone, taken from the position of its keyword; its end, which
    would panic, is not computed.  So [Serialize] returns on both. *)
Theorem empty_body_nodes_serialize :
  (forall out : string,
     VisitWith (ast.NProgram empty_Program) out =
       Ok (out +:+ q "{'type':'Program','body':[]}"))
  /\ (exists msg0 msg1,
        Node_Idx0 (ast.NProgram empty_Program) = Panic msg0
        /\ Node_Idx1 (ast.NProgram empty_Program) = Panic msg1)
  /\ (forall (case : Idx) (test : option (option ast.Node)) (out mid : string),
        write_test test (out +:+ q "{'type':'SwitchCase','test':") = Ok mid ->
        VisitWith (ast.NCaseStatement (empty_Case case test)) out =
          Ok (mid +:+ q ",'consequent':[],'start':"
                  +:+ GoInt.Itoa (toESTreePos case) +:+ "}"))
  /\ (forall (case : Idx) (test : option (option ast.Node)),
        exists msg, Node_Idx1 (ast.NCaseStatement (empty_Case case test)) = Panic msg)
  /\ (forall w : world,
        exists result w', Serialize (ast.NProgram empty_Program) w = (Ok result, w'))
  /\ (forall (case : Idx) (w : world),
        exists result w',
          Serialize (ast.NCaseStatement (empty_Case case None)) w = (Ok result, w')).
Proof.
  assert (HP : forall out : string,
             VisitWith (ast.NProgram empty_Program) out =
               Ok (out +:+ q "{'type':'Program','body':[]}")).
  { intros out. simpl VisitWith. unfold VisitProgram, empty_Program. simpl.
    unfold seq, forEach, skip, writeStr. simpl. now rewrite !str_app_assoc. }
  assert (HC : forall (case : Idx) (test : option (option ast.Node)) (out mid : string),
             write_test test (out +:+ q "{'type':'SwitchCase','test':") = Ok mid ->
             VisitWith (ast.NCaseStatement (empty_Case case test)) out =
               Ok (mid +:+ q ",'consequent':[],'start':"
                       +:+ GoInt.Itoa (toESTreePos case) +:+ "}")).
  { intros case test out mid H. simpl VisitWith.
    unfold VisitCaseStatement, empty_Case. simpl.
    rewrite seq_writeStr. erewrite seq_ok by exact H.
    rewrite seq_writeStr. unfold forEach. simpl forEach_from.
    rewrite (seq_ok skip) with (out' := mid +:+ q ",'consequent':[") by reflexivity.
    rewrite seq_writeStr. unfold writePositionStartOnly.
    erewrite seq_ok by (rewrite seq_writeStr; apply writeInt_Itoa).
    rewrite writeStr_ok. now rewrite !str_app_assoc. }
  split; [exact HP|]. split.
  { eexists. eexists. split; reflexivity. }
  split; [exact HC|]. split.
  { intros case test. eexists. reflexivity. }
  split.
  - intros w. unfold Serialize.
    destruct (serializerPool_Get w) as [s w1].
    rewrite HP.
    destruct (append_bytes _ _ w1) as [buf w2].
    eexists. eexists. reflexivity.
  - intros case w. unfold Serialize.
    destruct (serializerPool_Get w) as [s w1].
    erewrite HC by reflexivity.
    destruct (append_bytes _ _ w1) as [buf w2].
    eexists. eexists. reflexivity.
Qed.

(** ** Operator precedence *)

(** C9. The expression [1 + 2 - 3 * 4 / 5 % 6] is parsed as
    ((1+2) - (((3*4)/5)%6)): [+] and [-] share one precedence level and
    associate to the left, [*], [/] and [%] share a strictly higher level and
    associate to the left. *)
Theorem precedence_example_grouping :
  spec_parse precedence_example = Some precedence_example_tree
  /\ spec_precedence token.Plus = spec_precedence token.Minus
  /\ spec_precedence token.Multiply = spec_precedence token.Slash
  /\ spec_precedence token.Slash = spec_precedence token.Remainder
  /\ (exists lo hi, spec_precedence token.Plus = Some lo
                    /\ spec_precedence token.Multiply = Some hi /\ lo < hi)
  /\ Forall (fun op => spec_right_associative op = false)
       [token.Plus; token.Minus; token.Multiply; token.Slash; token.Remainder]
  /\ spec_parse "1 - 2 + 3" =
       Some (SBinaryExpression token.Plus
               (SBinaryExpression token.Minus (SNumberLiteral "1") (SNumberLiteral "2"))
               (SNumberLiteral "3"))
  /\ spec_parse "1 / 2 * 3" =
       Some (SBinaryExpression token.Multiply
               (SBinaryExpression token.Slash (SNumberLiteral "1") (SNumberLiteral "2"))
               (SNumberLiteral "3")).
Proof.
  split; [vm_compute; reflexivity|].
  split; [reflexivity|]. split; [reflexivity|]. split; [reflexivity|].
  split; [exists 1, 2; repeat split; lia|].
  split; [repeat constructor|].
  split; vm_compute; reflexivity.
Qed.

(** ** The pooled buffer *)

Lemma length_list_ascii_of_string (s : string) :
  length (list_ascii_of_string s) = String.length s.
Proof. induction s as [|c s IH]; simpl; [reflexivity | now rewrite IH]. Qed.

(** Appending within the capacity writes the bytes into the backing array,
    after the bytes of the slice, and allocates nothing. *)
Lemma append_bytes_in_place (bytes : string) :
  forall (sl : slice) (w : world) (arr : list ascii),
    heap w !! slice_data sl = Some arr ->
    slice_cap sl = length arr ->
    (slice_len sl + String.length bytes <= length arr)%nat ->
    append_bytes sl bytes w =
      ({| slice_data := slice_data sl;
          slice_len := slice_len sl + String.length bytes;
          slice_cap := slice_cap sl |},
       {| heap := <[slice_data sl :=
                      take (slice_len sl) arr ++ list_ascii_of_string bytes
                      ++ drop (slice_len sl + String.length bytes) arr]> (heap w);
          next := next w;
          pool := pool w |}).
Proof.
  induction bytes as [|b bytes IH]; intros [data n cap] [h nx pl] arr Harr Hcap Hlen;
    simpl in *.
  - rewrite Nat.add_0_r, take_drop, insert_id by exact Harr. reflexivity.
  - unfold append_byte, array_at. simpl. rewrite Harr. simpl.
    destruct (Nat.ltb_spec n cap) as [Hlt|Hge]; [|lia].
    erewrite IH with (arr := <[n := b]> arr); simpl.
    + rewrite insert_insert_eq. f_equal; [f_equal; lia|]. f_equal. f_equal.
      rewrite (take_S_r _ _ b) by (apply list_lookup_insert_eq; lia).
      rewrite take_insert_ge by lia.
      rewrite drop_insert_lt by lia.
      rewrite <- app_assoc. simpl.
      now replace (n + S (String.length bytes))%nat
        with (S (n + String.length bytes)) by lia.
    + apply lookup_insert_eq.
    + now rewrite length_insert.
    + rewrite length_insert. lia.
Qed.

(** On a fresh pool, a first tree whose JSON fits the 8 KB of the buffer is
    returned as a string that reads as that JSON; after a second such tree
    has been serialized, the first string reads as the second JSON laid
    over the first. *)
Lemma Serialize_twice (a b : ast.Node) (ja jb : string) :
  VisitWith a "" = Ok ja ->
  VisitWith b "" = Ok jb ->
  (String.length ja <= 8192)%nat ->
  (String.length jb <= 8192)%nat ->
  let first := Serialize a empty_world in
  let second := Serialize b (snd first) in
  exists ra rb : gostring,
    fst first = Ok ra
    /\ fst second = Ok rb
    /\ string_value (snd first) ra = ja
    /\ string_value (snd second) rb = jb
    /\ string_value (snd second) ra = overwritten ja jb
    /\ string_data ra = string_data rb.
Proof.
  unfold Serialize, serializerPool_Get, empty_world, make_bytes.
  generalize 8192%nat. intros cap Ha Hb Hla Hlb. cbv zeta.
  set (zeros := replicate cap zero).
  assert (Hz : length zeros = cap) by apply length_replicate.
  set (la := list_ascii_of_string ja). set (lb := list_ascii_of_string jb).
  assert (Hlal : length la = String.length ja) by apply length_list_ascii_of_string.
  assert (Hlbl : length lb = String.length jb) by apply length_list_ascii_of_string.
  set (arr1 := la ++ drop (String.length ja) zeros).
  assert (Harr1 : length arr1 = cap).
  { unfold arr1. rewrite length_app, length_drop. lia. }
  cbn [heap next pool out slice_data slice_len slice_cap fst snd].
  rewrite Ha.
  rewrite (append_bytes_in_place ja _ _ zeros);
    [| apply lookup_insert_eq | now rewrite Hz | cbn [slice_len]; lia ].
  cbn [heap next pool out slice_data slice_len slice_cap fst snd
       serializerPool_Put Serializer_String].
  unfold serializerPool_Put, Serializer_String.
  cbn [heap next pool out slice_data slice_len slice_cap fst snd].
  rewrite insert_insert_eq, insert_empty, take_0, Nat.add_0_l.
  cbn [app]. fold la arr1.
  rewrite Hb.
  rewrite (append_bytes_in_place jb _ _ arr1);
    [| apply lookup_singleton_eq | now rewrite Harr1 | cbn [slice_len]; lia ].
  cbn [heap next pool out slice_data slice_len slice_cap fst snd].
  rewrite insert_singleton_eq, take_0, Nat.add_0_l. cbn [app]. fold lb.
  eexists. eexists. split; [reflexivity|]. split; [reflexivity|].
  unfold string_value, array_at, overwritten.
  cbn [string_data string_len heap].
  rewrite !lookup_singleton_eq. cbn [default id].
  repeat split.
  - unfold arr1. rewrite take_app_length' by lia.
    apply string_of_list_ascii_of_string.
  - rewrite take_app_length' by lia.
    apply string_of_list_ascii_of_string.
  - f_equal. fold la lb.
    rewrite !take_app. f_equal. rewrite !Hlbl.
    unfold arr1. rewrite !take_drop_commute, !take_app.
    rewrite Hlal.
    destruct (le_lt_dec (String.length jb) (String.length ja)) as [Hle|Hgt].
    + replace (String.length jb + (String.length ja - String.length jb)
               - String.length ja)%nat with 0%nat by lia.
      rewrite take_0, app_nil_r. reflexivity.
    + rewrite !drop_ge; [reflexivity | |].
      * rewrite length_take. lia.
      * rewrite length_app, !length_take, length_drop. lia.
Qed.

(** C5 fails on the code.  Serializing the empty program and then the
    literal [null]: the second call takes the serializer of the first from
    the pool and writes over the bytes the first result points to, so the
    string returned for the first tree no longer reads as its JSON. *)
Theorem Serialize_overwrites_returned_string :
  let first := Serialize first_tree empty_world in
  let second := Serialize second_tree (snd first) in
  exists ra rb : gostring,
    fst first = Ok ra
    /\ fst second = Ok rb
    /\ string_value (snd first) ra = q "{'type':'Program','body':[]}"
    /\ string_value (snd second) rb = q "{'type':'Literal','value':null,'start':0,'end':4}"
    /\ string_value (snd second) ra = q "{'type':'Literal','value':nu"
    /\ string_data ra = string_data rb.
Proof.
  intros first second. subst first second.
  exists {| string_data := 0; string_len := 28 |},
         {| string_data := 0; string_len := 49 |}.
  repeat split; vm_compute; reflexivity.
Qed.

(** ** JSON tokens *)

Lemma hex_digit_is_hex (i : Z) : 0 <= i < 16 -> is_hex (hex_digit i) = true.
Proof.
  intros H. unfold hex_digit.
  assert (Hk : (Z.to_nat i < 16)%nat) by lia.
  revert Hk. generalize (Z.to_nat i). intros k Hk.
  do 16 (destruct k as [|k]; [reflexivity|]). lia.
Qed.

(** One escaped byte is a well-formed piece of a JSON string. *)
Lemma json_chars_escape_byte (c : ascii) (s : string) :
  json_chars (json_escape_byte c +:+ s) = json_chars s.
Proof.
  unfold json_escape_byte.
  repeat match goal with
         | |- context [Ascii.eqb c ?x] =>
             destruct (Ascii.eqb_spec c x) as [->|?]; [reflexivity|]
         end.
  destruct (Z.ltb_spec (byte_val c) 32) as [Hlt|Hge].
  - pose proof (byte_val_range c) as Hr.
    simpl. rewrite !hex_digit_is_hex; [reflexivity | |].
    + apply Z.mod_pos_bound. lia.
    + split; [apply Z.div_pos; lia | apply Z.div_lt_upper_bound; lia].
  - simpl.
    destruct (Ascii.eqb_spec c "034") as [->|_]; [contradiction|].
    destruct (Ascii.eqb_spec c "\") as [->|_]; [contradiction|].
    destruct (Z.ltb_spec (byte_val c) 32); [lia | reflexivity].
Qed.

Lemma json_chars_escape (str : string) :
  json_chars (json_escape str +:+ String "034" "") = true.
Proof.
  induction str as [|c rest IH]; simpl; [reflexivity|].
  rewrite str_app_assoc. now rewrite json_chars_escape_byte.
Qed.

(** What [writeString] writes is a JSON string token. *)
Lemma writeString_json (str : string) :
  writeString str "" = Ok (json_quote str) /\ is_json_string (json_quote str) = true.
Proof.
  split; [apply writeString_spec|].
  unfold is_json_string, json_quote. simpl. apply json_chars_escape.
Qed.

Lemma writeNumber_not_finite (n : ast.float64) (out : string) :
  SFleb (float64_of_Z (- 10 ^ 15)) n && SFleb n (float64_of_Z (10 ^ 15)) = false ->
  writeNumber n out = Ok (out +:+ FormatFloat n).
Proof.
  intros H. unfold writeNumber.
  rewrite <- andb_assoc, H, andb_false_r. reflexivity.
Qed.

(** C10 fails on the code.  [writeString] does write JSON string tokens, but
    [writeNumber] writes the three values of [float64] that are not finite as
    [+Inf], [-Inf] and [NaN], none of which is a JSON number token: the
    program [1e999] is serialized with [+Inf] as the value of its literal. *)
Theorem writeNumber_infinity_not_json :
  (forall str : string,
     writeString str "" = Ok (json_quote str)
     /\ is_json_string (json_quote str) = true)
  /\ (forall out : string,
        writeNumber (S754_infinity false) out = Ok (out +:+ "+Inf")
        /\ writeNumber (S754_infinity true) out = Ok (out +:+ "-Inf")
        /\ writeNumber S754_nan out = Ok (out +:+ "NaN"))
  /\ is_json_number "+Inf" = false
  /\ is_json_number "-Inf" = false
  /\ is_json_number "NaN" = false
  /\ VisitWith infinity_program "" =
       Ok (q "{'type':'Program','body':[{'type':'ExpressionStatement','expression':{'type':'Literal','value':+Inf,'raw':'1e999','start':0,'end':5},'start':0,'end':5}],'start':0,'end':5}").
Proof.
  split; [exact writeString_json|]. split.
  { intros out. repeat split; apply writeNumber_not_finite; reflexivity. }
  split; [reflexivity|]. split; [reflexivity|]. split; [reflexivity|].
  assert (HN : forall out : string,
             VisitNumberLiteral infinity_literal out =
               Ok (out +:+ q "{'type':'Literal','value':+Inf,'raw':'1e999','start':0,'end':5}")).
  { intros out. unfold VisitNumberLiteral, infinity_literal. simpl.
    rewrite seq_writeStr.
    erewrite seq_ok by (apply writeNumber_not_finite; reflexivity).
    erewrite seq_ok by (rewrite seq_writeStr; apply writeString_spec).
    rewrite seq_writeStr.
    erewrite seq_ok by apply writePosition_stored.
    rewrite writeStr_ok. now rewrite !str_app_assoc. }
  simpl VisitWith. unfold VisitProgram, infinity_program. simpl.
  unfold forEach. simpl forEach_from.
  unfold VisitExpressionStatement. simpl.
  fold infinity_literal. unfold seq, skip, writeStr.
  rewrite HN. vm_compute. reflexivity.
Qed.

(** * Further properties of the code *)

(** ** Positions of errors *)

Lemma positionToLineColumn_loop_done (rest : string) (i offset line col : Z) :
  offset <= i -> positionToLineColumn_loop rest i offset line col = (line, col).
Proof.
  intros H. destruct rest as [|c rest]; simpl; [reflexivity|].
  destruct (Z.ltb_spec i offset); [lia | reflexivity].
Qed.

Lemma positionToLineColumn_loop_beyond (rest : string) :
  forall i offset offset' line col,
    i + len rest <= offset -> i + len rest <= offset' ->
    positionToLineColumn_loop rest i offset line col =
    positionToLineColumn_loop rest i offset' line col.
Proof.
  induction rest as [|c rest IH]; intros i offset offset' line col H H'; simpl;
    [reflexivity|].
  rewrite len_String in H, H'. pose proof (len_nonneg rest).
  destruct (Z.ltb_spec i offset); [|lia].
  destruct (Z.ltb_spec i offset'); [|lia].
  destruct (Ascii.eqb c LF); apply IH; lia.
Qed.

(** X1. [positionToLineColumn] clamps its offset to the source: an offset
    below 0 counts as 0 and an offset beyond the end as the length of the
    source. *)
Theorem positionToLineColumn_clamps (src : string) (offset : Z) :
  positionToLineColumn src offset =
  positionToLineColumn src (clamp_offset src offset).
Proof.
  unfold positionToLineColumn, clamp_offset. pose proof (len_nonneg src).
  destruct (Z.le_gt_cases offset 0) as [Hneg|Hpos].
  - rewrite !positionToLineColumn_loop_done by lia. reflexivity.
  - destruct (Z.le_gt_cases (len src) offset) as [Hend|Hin].
    + apply positionToLineColumn_loop_beyond; lia.
    + replace (Z.max 0 (Z.min offset (len src))) with offset by lia. reflexivity.
Qed.

Lemma len_str_take (n : nat) (s : string) :
  len (str_take n s) = Z.min (Z.of_nat n) (len s).
Proof.
  revert s. induction n as [|n IH]; intros [|c s]; simpl str_take;
    rewrite ?len_String; unfold len in *; simpl String.length; try lia.
  specialize (IH s). lia.
Qed.

Lemma count_newlines_nonneg (s : string) : 0 <= count_newlines s.
Proof.
  induction s as [|c s IH]; simpl; [lia|]. destruct (Ascii.eqb c LF); lia.
Qed.

Lemma newlines_and_tail_fit (s : string) :
  count_newlines s + len (after_last_newline s) <= len s.
Proof.
  induction s as [|c s IH]; simpl; [unfold len; simpl; lia|].
  rewrite len_String. pose proof (count_newlines_nonneg s).
  destruct (has_newline s) eqn:Hs.
  - destruct (Ascii.eqb c LF); lia.
  - rewrite (after_last_newline_none s Hs) in IH.
    destruct (Ascii.eqb c LF); [lia|]. rewrite len_String. lia.
Qed.

(** X2. The line and the column of a position are at least 1, and the
    newlines passed plus the bytes passed on the last line never exceed the
    offset scanned: [(line - 1) + (col - 1) <= min(offset, len(src))]. *)
Theorem positionToLineColumn_bounds (src : string) (offset : Z) :
  len src < GoInt.max_int ->
  let '(line, col) := positionToLineColumn src offset in
  1 <= line /\ 1 <= col /\ (line - 1) + (col - 1) <= clamp_offset src offset.
Proof.
  intros Hlen. rewrite positionToLineColumn_spec by exact Hlen.
  set (p := str_take (Z.to_nat offset) src).
  pose proof (count_newlines_nonneg p). pose proof (len_nonneg (after_last_newline p)).
  pose proof (newlines_and_tail_fit p) as Hfit.
  assert (Hp : len p = clamp_offset src offset).
  { unfold p, clamp_offset. rewrite len_str_take. pose proof (len_nonneg src). lia. }
  repeat split; lia.
Qed.

Lemma count_newlines_str_take_mono (s : string) :
  forall n m : nat, (n <= m)%nat ->
    count_newlines (str_take n s) <= count_newlines (str_take m s).
Proof.
  induction s as [|c s IH]; intros n m H.
  - destruct n, m; simpl; lia.
  - destruct n as [|n]; destruct m as [|m]; simpl; try lia.
    + pose proof (count_newlines_nonneg (str_take m s)).
      destruct (Ascii.eqb c LF); lia.
    + specialize (IH n m ltac:(lia)). lia.
Qed.

(** X3. Line numbers grow with the offset: a later position of the same
    source is never on an earlier line. *)
Theorem positionToLineColumn_line_monotone (src : string) (offset offset' : Z) :
  len src < GoInt.max_int ->
  offset <= offset' ->
  fst (positionToLineColumn src offset) <= fst (positionToLineColumn src offset').
Proof.
  intros Hlen Hle. rewrite !positionToLineColumn_spec by exact Hlen. simpl.
  pose proof (count_newlines_str_take_mono src (Z.to_nat offset) (Z.to_nat offset')
                ltac:(lia)).
  lia.
Qed.

Lemma has_newline_count (s : string) :
  has_newline s = (0 <? count_newlines s).
Proof.
  induction s as [|c s IH]; simpl; [reflexivity|].
  pose proof (count_newlines_nonneg s).
  rewrite IH. destruct (Ascii.eqb c LF); simpl.
  - symmetry. apply Z.ltb_lt. lia.
  - reflexivity.
Qed.

Lemma tail_grows_on_a_line (s : string) :
  forall n m : nat,
    (n <= m <= String.length s)%nat ->
    count_newlines (str_take n s) = count_newlines (str_take m s) ->
    len (after_last_newline (str_take m s)) =
      len (after_last_newline (str_take n s)) + (Z.of_nat m - Z.of_nat n).
Proof.
  induction s as [|c s IH]; intros n m Hnm Hcount.
  - simpl in Hnm. assert (n = 0 /\ m = 0)%nat as [-> ->] by lia. simpl. lia.
  - destruct m as [|m].
    + assert (n = 0)%nat as -> by lia. simpl. lia.
    + simpl String.length in Hnm.
      assert (Hm : len (str_take m s) = Z.of_nat m)
        by (rewrite len_str_take; unfold len; lia).
      destruct n as [|n].
      * simpl in Hcount.
        pose proof (count_newlines_nonneg (str_take m s)).
        destruct (Ascii.eqb c LF) eqn:Hc; [lia|].
        simpl str_take. simpl after_last_newline.
        rewrite has_newline_count.
        destruct (Z.ltb_spec 0 (count_newlines (str_take m s))); [lia|].
        rewrite Hc, len_String. unfold len at 2. simpl String.length. lia.
      * simpl in Hcount.
        assert (Hc' : count_newlines (str_take n s) = count_newlines (str_take m s)).
        { destruct (Ascii.eqb c LF); lia. }
        specialize (IH n m ltac:(lia) Hc').
        assert (Hn : len (str_take n s) = Z.of_nat n)
          by (rewrite len_str_take; unfold len; lia).
        simpl str_take. simpl after_last_newline.
        rewrite !has_newline_count, Hc'.
        destruct (0 <? count_newlines (str_take m s)); [lia|].
        destruct (Ascii.eqb c LF); rewrite ?len_String; lia.
Qed.

(** X19. Within a source, the line and the column name the position: two
    different offsets between 0 and the length of the source are never given
    the same line and the same column. *)
Theorem positionToLineColumn_injective (src : string) (offset offset' : Z) :
  len src < GoInt.max_int ->
  0 <= offset <= len src ->
  0 <= offset' <= len src ->
  offset <> offset' ->
  positionToLineColumn src offset <> positionToLineColumn src offset'.
Proof.
  intros Hlen H1 H2 Hne. rewrite !positionToLineColumn_spec by exact Hlen. cbv zeta.
  intros Heq. injection Heq as Hline Hcol.
  unfold len in H1, H2.
  destruct (Z.le_ge_cases offset offset') as [Hle|Hle].
  - pose proof (tail_grows_on_a_line src (Z.to_nat offset) (Z.to_nat offset')
                  ltac:(lia) ltac:(lia)).
    lia.
  - pose proof (tail_grows_on_a_line src (Z.to_nat offset') (Z.to_nat offset)
                  ltac:(lia) ltac:(lia)).
    lia.
Qed.

(** ** The list of errors *)

Lemma wrap_range (z : Z) : GoInt.min_int <= GoInt.wrap z <= GoInt.max_int.
Proof.
  unfold GoInt.wrap, GoInt.min_int, GoInt.max_int.
  pose proof (Z.mod_pos_bound (z + 2 ^ 63) (2 ^ 64) ltac:(lia)). lia.
Qed.

Lemma ErrorList_Add_appends_one_aux (e : ErrorList) (src : string) (idx : Idx) (msg : string) :
  exists err : SyntaxError, ErrorList_Add e src idx msg = e ++ [err].
Proof.
  unfold ErrorList_Add. destruct (positionToLineColumn _ _) as [line col].
  eexists. reflexivity.
Qed.

(** X4. Whatever its position argument, [ErrorList.Add] appends exactly one
    error with the given message and keeps the earlier errors in place; the
    offset it stores is never negative and fits an [int]; afterwards [Err] is
    not nil. *)
Theorem ErrorList_Add_appends_one (e : ErrorList) (src : string) (idx : Idx) (msg : string) :
  exists err : SyntaxError,
    ErrorList_Add e src idx msg = e ++ [err]
    /\ Message err = msg
    /\ 0 <= Offset err <= GoInt.max_int
    /\ ErrorList_Err (ErrorList_Add e src idx msg) = Some (ErrorList_Add e src idx msg).
Proof.
  unfold ErrorList_Add.
  set (offset := if GoInt.wrap (idx - 1) <? 0 then 0 else GoInt.wrap (idx - 1)).
  destruct (positionToLineColumn src offset) as [line col].
  eexists. split; [reflexivity|]. split; [reflexivity|]. split.
  - simpl. subst offset. pose proof (wrap_range (idx - 1)) as Hr.
    assert (Hmax : GoInt.max_int = 2 ^ 63 - 1) by reflexivity.
    destruct (Z.ltb_spec (GoInt.wrap (idx - 1)) 0); lia.
  - unfold ErrorList_Err. rewrite length_app. simpl.
    destruct (Z.eqb_spec (Z.of_nat (length e + 1)) 0); [lia | reflexivity].
Qed.

(** X5. The summary of a list keeps its first error as the headline when a
    further error is added: after [Add] on a list that starts with [e0] the
    summary is the rendering of [e0] and the count of the other errors, one
    more than before. *)
Theorem ErrorList_Error_after_Add (e0 : SyntaxError) (rest : ErrorList)
    (src : string) (idx : Idx) (msg : string) :
  ErrorList_Error (ErrorList_Add (e0 :: rest) src idx msg) =
    rendering e0 +:+ " (and " +:+ GoInt.Itoa (Z.of_nat (length rest) + 1)
    +:+ " more errors)".
Proof.
  destruct (ErrorList_Add_appends_one_aux (e0 :: rest) src idx msg) as (err & ->).
  destruct rest as [|e1 rest]; simpl app.
  - reflexivity.
  - unfold ErrorList_Error. rewrite SyntaxError_Error_rendering.
    simpl length. rewrite length_app. simpl length.
    replace (Z.of_nat (S (S (length rest + 1))) - 1)
      with (Z.of_nat (S (length rest)) + 1) by lia.
    reflexivity.
Qed.

(** ** Diagnostics of the parser *)

(** X6. [errorUnexpected] records, and returns, one more diagnostic; it
    reports the end of the input exactly for the rune -1, and the illegal
    token for every other rune. *)
Theorem errorUnexpected_message (p : parser) (chr : Z) :
  exists e : SyntaxError,
    snd (errorUnexpected p chr) = Some e
    /\ errors (fst (errorUnexpected p chr)) = errors p ++ [e]
    /\ Message e =
         (if chr =? -1 then "Unexpected end of input"
          else "Unexpected token " +:+ Token_String token.Illegal).
Proof.
  unfold errorUnexpected. destruct (chr =? -1);
    match goal with
    | |- context [parser_error p ?m ?v] =>
        destruct (parser_error_appends p m v) as (e & He & Hes & Hm);
        exists e; split; [exact He|]; split; [exact Hes|];
        rewrite Hm; unfold errUnexpectedToken, errUnexpectedEndOfInput; simpl;
        rewrite ?str_app_nil_r; reflexivity
    end.
Qed.

Lemma Sprintf_no_percent (msg : string) :
  no_percent msg = true -> Sprintf msg [] = msg.
Proof.
  induction msg as [|c rest IH]; simpl; [reflexivity|].
  destruct (Ascii.eqb c "%"); simpl; [discriminate|].
  intros H. now rewrite IH.
Qed.

(** X7. [p.error] uses its message as a format: a message without a percent
    sign, given no values, is recorded verbatim, as the last error of the
    parser, which is the error returned; the source, the position and the
    literal of the parser are left as they were. *)
Theorem parser_error_verbatim (p : parser) (msg : string) :
  no_percent msg = true ->
  exists e : SyntaxError,
    snd (parser_error p msg []) = Some e
    /\ last (errors (fst (parser_error p msg []))) = Some e
    /\ Message e = msg
    /\ str (fst (parser_error p msg [])) = str p
    /\ idx (fst (parser_error p msg [])) = idx p
    /\ literal (fst (parser_error p msg [])) = literal p.
Proof.
  intros H. destruct (parser_error_appends p msg []) as (e & He & Hes & Hm).
  exists e. split; [exact He|]. split.
  - rewrite Hes. apply last_snoc.
  - split; [now rewrite Hm, Sprintf_no_percent|]. repeat split.
Qed.

(** ** Positions written by the serializer *)

(** X8. On positions, [toESTreePos] keeps the order, and it sends two
    positions to the same offset only when they are equal or are the unset
    position 0 and the first position 1. *)
Theorem toESTreePos_order (i j : Idx) :
  0 <= i <= GoInt.max_int ->
  0 <= j <= GoInt.max_int ->
  (i <= j -> toESTreePos i <= toESTreePos j)
  /\ (toESTreePos i = toESTreePos j -> i = j \/ (i <= 1 /\ j <= 1)).
Proof.
  intros Hi Hj. rewrite !toESTreePos_zero_based by assumption.
  unfold zero_based.
  destruct (Z.leb_spec 1 i); destruct (Z.leb_spec 1 j); split; lia.
Qed.

(** ** JSON tokens written by the helpers *)

Lemma hex_value_digit (i : Z) : 0 <= i < 16 -> hex_value (hex_digit i) = Some i.
Proof.
  intros H. unfold hex_digit.
  assert (Hi : i = Z.of_nat (Z.to_nat i)) by lia.
  assert (Hk : (Z.to_nat i < 16)%nat) by lia.
  rewrite Hi at 2. revert Hk. generalize (Z.to_nat i). intros k Hk.
  do 16 (destruct k as [|k]; [reflexivity|]). lia.
Qed.

Lemma byte_of_byte_val (c : ascii) : byte_of (byte_val c) = c.
Proof.
  unfold byte_of, byte_val. rewrite N2Z.id. apply ascii_N_embedding.
Qed.

Lemma json_unescape_escape_byte (c : ascii) (s : string) :
  json_unescape (json_escape_byte c +:+ s) = String c <$> json_unescape s.
Proof.
  unfold json_escape_byte.
  repeat match goal with
         | |- context [Ascii.eqb c ?x] =>
             destruct (Ascii.eqb_spec c x) as [->|?]; [reflexivity|]
         end.
  destruct (Z.ltb_spec (byte_val c) 32) as [Hlt|Hge].
  - pose proof (byte_val_range c) as Hr.
    assert (H1 : 0 <= byte_val c / 16 < 16)
      by (split; [apply Z.div_pos; lia | apply Z.div_lt_upper_bound; lia]).
    assert (H2 : 0 <= byte_val c mod 16 < 16) by (apply Z.mod_pos_bound; lia).
    simpl. rewrite !hex_value_digit by assumption.
    match goal with
    | |- context [?code <? 128] =>
        replace code with (byte_val c)
          by (change (byte_val "0") with 48;
              pose proof (Z.div_mod (byte_val c) 16 ltac:(lia)); lia)
    end.
    destruct (Z.ltb_spec (byte_val c) 128); [|lia].
    now rewrite byte_of_byte_val.
  - simpl.
    destruct (Ascii.eqb_spec c "034") as [->|_]; [contradiction|].
    destruct (Ascii.eqb_spec c "\") as [->|_]; [contradiction|].
    destruct (Z.ltb_spec (byte_val c) 32); [lia | reflexivity].
Qed.

Lemma json_unescape_escape (str : string) :
  json_unescape (json_escape str +:+ String "034" "") = Some str.
Proof.
  induction str as [|c rest IH]; simpl; [reflexivity|].
  rewrite str_app_assoc, json_unescape_escape_byte, IH. reflexivity.
Qed.

(** X9. [writeString] loses nothing: decoding the JSON string token it writes
    gives back the string, byte for byte. *)
Theorem writeString_round_trip (str : string) :
  exists token : string,
    writeString str "" = Ok token /\ json_decode token = Some str.
Proof.
  exists (json_quote str). split; [apply writeString_spec|].
  unfold json_decode, json_quote. simpl. apply json_unescape_escape.
Qed.

(** X10. Whatever the token, [writeOperator] writes one JSON string token:
    the cached texts of the operators are well-formed, and the text of any
    other token goes through [writeString]. *)
Theorem writeOperator_json_string (t : token.Token) (out : string) :
  exists text : string,
    writeOperator t out = Ok (out +:+ text) /\ is_json_string text = true.
Proof.
  unfold writeOperator.
  destruct (operatorStrings t) as [cached|] eqn:E.
  - exists cached. split; [reflexivity|].
    destruct t; simpl in E; try discriminate; injection E as <-; reflexivity.
  - exists (json_quote (Token_String t)). split; [apply writeString_spec|].
    apply writeString_json.
Qed.

(** X20. The table of cached operator texts tells the operators apart: two
    different tokens of the table are written as different texts. *)
Theorem writeOperator_distinct (t t' : token.Token) (text text' : string) :
  operatorStrings t = Some text ->
  operatorStrings t' = Some text' ->
  t <> t' ->
  writeOperator t "" <> writeOperator t' "".
Proof.
  intros Ht Ht' Hne. unfold writeOperator. rewrite Ht, Ht'.
  intros Heq. apply Hne. injection Heq as Heq. subst text'.
  destruct t; simpl in Ht; try discriminate Ht; injection Ht as <-;
    destruct t'; simpl in Ht'; try discriminate Ht'; reflexivity.
Qed.

Lemma nzhead_not_D0 (u u' : Decimal.uint) : Decimal.nzhead u <> Decimal.D0 u'.
Proof. induction u; simpl; try discriminate; exact IHu. Qed.

Lemma digits_run (d : Decimal.uint) :
  number_run NumInt (NilEmpty.string_of_uint d) = true.
Proof. induction d; simpl; try reflexivity; exact IHd. Qed.

(** The decimal numeral of a positive number is a JSON integer, at the start
    of a number and after a minus sign. *)
Lemma to_uint_json (p : positive) (st : number_state) :
  st = NumStart \/ st = NumMinus ->
  number_run st (NilZero.string_of_uint (Pos.to_uint p)) = true.
Proof.
  intros Hst.
  assert (Hn : Decimal.unorm (Pos.to_uint p) = Pos.to_uint p).
  { rewrite <- (Unsigned.to_of (Pos.to_uint p)), Unsigned.of_to. reflexivity. }
  pose proof (Unsigned.to_uint_nonnil p) as Hnil.
  destruct (Pos.to_uint p) as [|d|d|d|d|d|d|d|d|d|d] eqn:E; try contradiction;
    try (destruct Hst as [-> | ->]; simpl; apply digits_run).
  (* a leading zero: the numeral is 0 itself *)
  unfold Decimal.unorm in Hn. simpl in Hn.
  destruct (Decimal.nzhead d) eqn:Ed.
  - injection Hn as <-. destruct Hst as [-> | ->]; reflexivity.
  - exfalso. apply (nzhead_not_D0 d d). now rewrite Ed.
  - discriminate. - discriminate. - discriminate. - discriminate.
  - discriminate. - discriminate. - discriminate. - discriminate.
  - discriminate.
Qed.

Lemma Itoa_json (n : Z) : is_json_number (GoInt.Itoa n) = true.
Proof.
  unfold is_json_number, GoInt.Itoa. destruct n as [|p|p]; simpl.
  - reflexivity.
  - apply to_uint_json. now left.
  - unfold NilZero.string_of_int. simpl. apply to_uint_json. now right.
Qed.

(** X11. [writeInt] and [writeInt64] write a JSON number token for every
    integer, through the table of small integers or through [strconv]. *)
Theorem writeInt_json_number (n : Z) (out : string) :
  exists text : string,
    writeInt n out = Ok (out +:+ text)
    /\ writeInt64 n out = Ok (out +:+ text)
    /\ is_json_number text = true.
Proof.
  exists (GoInt.Itoa n). split; [apply writeInt_Itoa|].
  split; [apply writeInt64_Itoa | apply Itoa_json].
Qed.

(** ** Error responses of the host entry point *)

Lemma byte_val_byte (v : Z) : 0 <= v < 256 -> byte_val (utf8.byte v) = v.
Proof.
  intros H. unfold byte_val, utf8.byte.
  rewrite N_ascii_embedding by lia. lia.
Qed.

Lemma byte_byte_val (c : ascii) : utf8.byte (byte_val c) = c.
Proof.
  unfold utf8.byte, byte_val. rewrite N2Z.id. apply ascii_N_embedding.
Qed.

Ltac bool_facts :=
  repeat match goal with
         | H : (_ && _)%bool = true |- _ => apply andb_true_iff in H; destruct H
         | H : (_ <=? _) = true |- _ => apply Z.leb_le in H
         | H : (_ <? _) = true |- _ => apply Z.ltb_lt in H
         | H : (_ =? _) = true |- _ => apply Z.eqb_eq in H
         | H : (_ =? _) = false |- _ => apply Z.eqb_neq in H
         end.

(** What a step of the decoding gives: an ASCII byte is its own rune; any
    other rune is 128 or more and the bytes passed over are not ASCII. *)
Lemma DecodeRune_facts (c : ascii) (rest : string) :
  high_prefix (snd (utf8.DecodeRune (String c rest)) - 1) rest
  /\ (byte_val c < 128 ->
      utf8.DecodeRune (String c rest) = (byte_val c, 1%nat))
  /\ (128 <= byte_val c -> 128 <= fst (utf8.DecodeRune (String c rest))).
Proof.
  unfold utf8.DecodeRune, utf8.is_cont, utf8.RuneError.
  pose proof (byte_val_range c) as Hc.
  destruct (Z.ltb_spec (byte_val c) 128); [cbn; repeat split; lia|].
  destruct (Z.ltb_spec (byte_val c) 194); [cbn; repeat split; lia|].
  destruct (Z.ltb_spec (byte_val c) 224).
  { destruct rest as [|c1 rest]; [cbn; repeat split; lia|].
    match goal with |- context [if ?b then _ else _] => destruct b eqn:E end;
      bool_facts; cbn; repeat split; lia. }
  destruct (Z.ltb_spec (byte_val c) 240).
  { destruct rest as [|c1 [|c2 rest]]; try (cbn; repeat split; lia).
    destruct (byte_val c =? 224) eqn:E1; destruct (byte_val c =? 237) eqn:E2;
      match goal with |- context [if ?b then _ else _] => destruct b eqn:E end;
      bool_facts; cbn; repeat split; lia. }
  destruct (Z.ltb_spec (byte_val c) 245); [|cbn; repeat split; lia].
  destruct rest as [|c1 [|c2 [|c3 rest]]]; try (cbn; repeat split; lia).
  destruct (byte_val c =? 240) eqn:E1; destruct (byte_val c =? 244) eqn:E2;
    match goal with |- context [if ?b then _ else _] => destruct b eqn:E end;
    bool_facts; cbn; repeat split; lia.
Qed.

Lemma high_byte (v : Z) (s : string) :
  128 <= v < 256 -> high s = true -> high (String (utf8.byte v) s) = true.
Proof.
  intros Hv Hs. cbn [high]. rewrite byte_val_byte by lia. rewrite Hs.
  destruct (Z.leb_spec 128 v); [reflexivity | lia].
Qed.

Lemma EncodeRune_high (r : Z) : 128 <= r -> high (utf8.EncodeRune r) = true.
Proof.
  clear Token_String PropertyKindMethod FormatFloat_finite int64_overflow
    written_before_panic parser_run Resolve.
  intros Hr. unfold utf8.EncodeRune.
  destruct (Z.leb_spec 0 r); [|lia]. cbn [andb].
  destruct (Z.ltb_spec r 128); [lia|].
  destruct (Z.ltb_spec r 2048).
  { repeat apply high_byte; try reflexivity; Z.div_mod_to_equations; lia. }
  destruct (Z.ltb_spec r 0); [lia|]. cbn [orb].
  destruct (Z.ltb_spec 1114111 r); [reflexivity|]. cbn [orb].
  destruct ((55296 <=? r) && (r <=? 57343)); [reflexivity|].
  destruct (Z.ltb_spec r 65536);
    repeat apply high_byte; try reflexivity; Z.div_mod_to_equations; lia.
Qed.

Lemma high_not_special (c : ascii) :
  128 <= byte_val c ->
  Ascii.eqb c "034" = false /\ Ascii.eqb c "\" = false
  /\ (byte_val c <? 32) = false /\ errorJSON_safe_byte c = true.
Proof.
  intros H. unfold errorJSON_safe_byte.
  destruct (Ascii.eqb_spec c "034") as [->|_];
    [change (byte_val "034") with 34 in H; lia|].
  destruct (Ascii.eqb_spec c "\") as [->|_];
    [change (byte_val "\") with 92 in H; lia|].
  destruct (Z.ltb_spec (byte_val c) 32); [lia|].
  destruct (Z.leb_spec 32 (byte_val c)); [|lia].
  now rewrite !orb_true_r.
Qed.

Lemma json_chars_high (h s : string) :
  high h = true -> json_chars (h +:+ s) = json_chars s.
Proof.
  induction h as [|c h IH]; intros H; [reflexivity|].
  cbn [high] in H. apply andb_true_iff in H as [Hc Hh]. apply Z.leb_le in Hc.
  destruct (high_not_special c Hc) as (E1 & E2 & E3 & _).
  cbn [String.append json_chars]. rewrite E1, E2, E3. now apply IH.
Qed.

Lemma json_unescape_high (h s : string) :
  high h = true ->
  json_unescape (h +:+ s) = String.append h <$> json_unescape s.
Proof.
  induction h as [|c h IH]; intros H.
  - cbn [String.append]. now destruct (json_unescape s).
  - cbn [high] in H. apply andb_true_iff in H as [Hc Hh]. apply Z.leb_le in Hc.
    destruct (high_not_special c Hc) as (E1 & E2 & E3 & _).
    cbn [String.append json_unescape]. rewrite E1, E2, E3, (IH Hh).
    now destruct (json_unescape s).
Qed.

(** What [errorJSON] puts between the quotation marks, from any point of
    the loop on. *)
Lemma errorJSON_runes_chars (msg : string) :
  forall skip : nat,
    high_prefix skip msg ->
    json_chars (errorJSON_runes skip msg +:+ String "034" "") = errorJSON_safe msg
    /\ json_unescape (errorJSON_runes skip msg +:+ String "034" "") =
         (if errorJSON_safe msg then Some (reencode_from skip msg) else None).
Proof.
  induction msg as [|c rest IH]; intros skip Hskip.
  - destruct skip; [split; reflexivity | contradiction].
  - cbn [errorJSON_safe]. destruct skip as [|skip].
    + cbn [errorJSON_runes reencode_from].
      destruct (DecodeRune_facts c rest) as (Hpre & Hlow & Hhigh).
      destruct (Z.lt_ge_cases (byte_val c) 128) as [Hc|Hc].
      * rewrite (Hlow Hc) in Hpre |- *. cbn [fst snd] in Hpre |- *.
        change (1 - 1)%nat with 0%nat in Hpre |- *.
        destruct (IH _ Hpre) as [IHc IHu].
        unfold errorJSON_safe_byte.
        assert (Hq : forall x : ascii,
                   (byte_val c =? byte_val x) = Ascii.eqb c x).
        { intros x. destruct (Ascii.eqb_spec c x) as [->|Hne].
          - apply Z.eqb_refl.
          - apply Z.eqb_neq. intros E. apply Hne.
            now rewrite <- (byte_byte_val c), <- (byte_byte_val x), E. }
        change 34 with (byte_val "034"). change 92 with (byte_val "\").
        change 10 with (byte_val "010"). change 13 with (byte_val "013").
        change 9 with (byte_val "009"). rewrite !Hq.
        assert (He : utf8.EncodeRune (byte_val c) = String c "").
        { unfold utf8.EncodeRune. pose proof (byte_val_range c).
          destruct (Z.leb_spec 0 (byte_val c)); [|lia].
          destruct (Z.ltb_spec (byte_val c) 128); [|lia].
          cbn [andb]. now rewrite byte_byte_val. }
        rewrite He.
        repeat match goal with
               | |- context [Ascii.eqb c ?x] =>
                   destruct (Ascii.eqb_spec c x) as [->|?];
                   [simpl; rewrite IHc, IHu; split; [reflexivity|];
                    destruct (errorJSON_safe rest); reflexivity|]
               end.
        rewrite str_app_assoc. simpl.
        destruct (Ascii.eqb_spec c "034") as [->|_]; [contradiction|].
        destruct (Ascii.eqb_spec c "\") as [->|_]; [contradiction|].
        destruct (Z.ltb_spec (byte_val c) 32); destruct (Z.leb_spec 32 (byte_val c));
          try lia; simpl; [split; reflexivity|].
        rewrite IHc, IHu. split; [reflexivity|].
        destruct (errorJSON_safe rest); reflexivity.
      * specialize (Hhigh Hc).
        destruct (utf8.DecodeRune (String c rest)) as [r width].
        cbn [fst snd] in Hpre, Hhigh |- *.
        destruct (IH _ Hpre) as [IHc IHu].
        destruct (high_not_special c Hc) as (_ & _ & _ & Es). rewrite Es.
        cbn [andb].
        destruct (Z.eqb_spec r 34); [lia|]. destruct (Z.eqb_spec r 92); [lia|].
        destruct (Z.eqb_spec r 10); [lia|]. destruct (Z.eqb_spec r 13); [lia|].
        destruct (Z.eqb_spec r 9); [lia|].
        rewrite str_app_assoc.
        rewrite json_chars_high, json_unescape_high by now apply EncodeRune_high.
        rewrite IHc, IHu. split; [reflexivity|].
        destruct (errorJSON_safe rest); reflexivity.
    + cbn [errorJSON_runes reencode_from]. cbn [high_prefix] in Hskip.
      destruct Hskip as [Hc Hskip].
      destruct (high_not_special c Hc) as (_ & _ & _ & Es). rewrite Es.
      cbn [andb]. now apply IH.
Qed.

Ltac encode_case :=
  clear Token_String PropertyKindMethod FormatFloat_finite int64_overflow
    written_before_panic parser_run Resolve;
  unfold utf8.EncodeRune;
  repeat match goal with
         | |- context [?a <=? ?b] => destruct (Z.leb_spec a b)
         | |- context [?a <? ?b] => destruct (Z.ltb_spec a b)
         end;
  cbn [andb orb]; try lia;
  repeat f_equal; Z.div_mod_to_equations; lia.

Lemma EncodeRune_2 (b0 b1 : Z) :
  194 <= b0 < 224 -> 128 <= b1 <= 191 ->
  utf8.EncodeRune ((b0 - 192) * 64 + (b1 - 128)) =
    String (utf8.byte b0) (String (utf8.byte b1) "").
Proof. intros H0 H1. encode_case. Qed.

Lemma EncodeRune_3 (b0 b1 b2 : Z) :
  224 <= b0 < 240 -> 128 <= b1 <= 191 -> 128 <= b2 <= 191 ->
  (b0 = 224 -> 160 <= b1) -> (b0 = 237 -> b1 <= 159) ->
  utf8.EncodeRune ((b0 - 224) * 4096 + (b1 - 128) * 64 + (b2 - 128)) =
    String (utf8.byte b0) (String (utf8.byte b1) (String (utf8.byte b2) "")).
Proof. intros H0 H1 H2 Hlo Hhi. encode_case. Qed.

Lemma EncodeRune_4 (b0 b1 b2 b3 : Z) :
  240 <= b0 < 245 -> 128 <= b1 <= 191 -> 128 <= b2 <= 191 -> 128 <= b3 <= 191 ->
  (b0 = 240 -> 144 <= b1) -> (b0 = 244 -> b1 <= 143) ->
  utf8.EncodeRune ((b0 - 240) * 262144 + (b1 - 128) * 4096 + (b2 - 128) * 64
                   + (b3 - 128)) =
    String (utf8.byte b0)
      (String (utf8.byte b1) (String (utf8.byte b2) (String (utf8.byte b3) ""))).
Proof. intros H0 H1 H2 H3 Hlo Hhi. encode_case. Qed.

(** A sequence that decodes is the encoding of its rune. *)
Lemma DecodeRune_chunk (c : ascii) (rest : string) :
  negb ((fst (utf8.DecodeRune (String c rest)) =? utf8.RuneError)
        && (snd (utf8.DecodeRune (String c rest)) =? 1)%nat) = true ->
  utf8.EncodeRune (fst (utf8.DecodeRune (String c rest)))
  +:+ str_drop (snd (utf8.DecodeRune (String c rest)) - 1) rest = String c rest.
Proof.
  unfold utf8.DecodeRune, utf8.is_cont.
  pose proof (byte_val_range c) as Hc.
  destruct (Z.ltb_spec (byte_val c) 128).
  { intros _. cbn [fst snd]. unfold utf8.EncodeRune.
    destruct (Z.leb_spec 0 (byte_val c)); [|lia].
    destruct (Z.ltb_spec (byte_val c) 128); [|lia].
    cbn [andb]. now rewrite byte_byte_val. }
  destruct (Z.ltb_spec (byte_val c) 194); [discriminate|].
  destruct (Z.ltb_spec (byte_val c) 224).
  { destruct rest as [|c1 rest]; [discriminate|].
    match goal with |- context [if ?b then _ else _] => destruct b eqn:E end;
      [|discriminate].
    intros _. bool_facts. cbn [fst snd].
    rewrite EncodeRune_2 by lia. now rewrite !byte_byte_val. }
  destruct (Z.ltb_spec (byte_val c) 240).
  { destruct rest as [|c1 [|c2 rest]]; try discriminate.
    match goal with |- context [if ?b then _ else _] => destruct b eqn:E end;
      [|discriminate].
    intros _. cbn [fst snd].
    destruct (Z.eqb_spec (byte_val c) 224); destruct (Z.eqb_spec (byte_val c) 237);
      bool_facts; rewrite EncodeRune_3 by lia; now rewrite !byte_byte_val. }
  destruct (Z.ltb_spec (byte_val c) 245); [|discriminate].
  destruct rest as [|c1 [|c2 [|c3 rest]]]; try discriminate.
  match goal with |- context [if ?b then _ else _] => destruct b eqn:E end;
    [|discriminate].
  intros _. cbn [fst snd].
  destruct (Z.eqb_spec (byte_val c) 240); destruct (Z.eqb_spec (byte_val c) 244);
    bool_facts; rewrite EncodeRune_4 by lia; now rewrite !byte_byte_val.
Qed.

Lemma reencode_valid (msg : string) :
  forall skip : nat,
    valid_from skip msg = true -> reencode_from skip msg = str_drop skip msg.
Proof.
  induction msg as [|c rest IH]; intros skip H; [now destruct skip|].
  destruct skip as [|skip]; cbn [valid_from reencode_from str_drop] in *.
  - apply andb_true_iff in H as [Hchunk Hrest].
    rewrite (IH _ Hrest). now apply DecodeRune_chunk.
  - now apply IH.
Qed.

(** X12. [errorJSON] wraps its message into an object with the one key
    [error].  The value is a well-formed JSON string exactly when the
    message holds no control byte other than newline, carriage return and
    tab, the only three [errorJSON] escapes; it then decodes to the runes of
    the message written back, that is to the message itself when it is
    UTF-8, and otherwise to the message with U+FFFD in place of every byte
    that is part of no UTF-8 sequence. *)
Theorem errorJSON_well_formed (msg : string) :
  exists value : string,
    errorJSON msg = q "{'error':" +:+ value +:+ "}"
    /\ is_json_string value = errorJSON_safe msg
    /\ json_decode value =
         (if errorJSON_safe msg then Some (reencode msg) else None)
    /\ (valid_utf8 msg = true -> reencode msg = msg).
Proof.
  exists (String "034" (errorJSON_escape msg +:+ String "034" "")).
  destruct (errorJSON_runes_chars msg 0 I) as [Hc Hu].
  split; [|split; [|split]].
  - unfold errorJSON. simpl. now rewrite !str_app_assoc.
  - unfold is_json_string. simpl. exact Hc.
  - unfold json_decode. simpl. exact Hu.
  - intros Hv. apply (reencode_valid msg 0 Hv).
Qed.

(** ** [Serialize] on any well-formed store *)

Lemma slice_ok_allocated (w : world) (sl : slice) :
  fresh w -> slice_ok w sl -> (slice_data sl < next w)%nat.
Proof.
  intros Hf (arr & Harr & _).
  destruct (le_lt_dec (next w) (slice_data sl)) as [Hle|Hlt]; [|exact Hlt].
  rewrite (Hf _ Hle) in Harr. discriminate.
Qed.

Lemma append_byte_grows (sl : slice) (b : ascii) (w : world) :
  slice_ok w sl -> fresh w ->
  grows w sl [b] (snd (append_byte sl b w)) (fst (append_byte sl b w)).
Proof.
  intros Hok Hf. pose proof (slice_ok_allocated w sl Hf Hok) as Hlt.
  destruct Hok as (arr & Harr & Hlen & Hle).
  destruct sl as [data n cap]. destruct w as [h nx pl].
  unfold append_byte, grows, contents, array_at, slice_ok, fresh in *.
  cbn [slice_data slice_len slice_cap heap next pool] in *.
  rewrite Harr. cbn [default id].
  destruct (Nat.ltb_spec n cap) as [Hn|Hn];
    cbn [fst snd slice_data slice_len slice_cap heap next pool].
  - rewrite lookup_insert_eq. cbn [default id].
    repeat split.
    + exists (<[n := b]> arr). rewrite length_insert.
      split; [reflexivity | split; [exact Hlen | lia]].
    + rewrite (take_S_r _ _ b) by (apply list_lookup_insert_eq; lia).
      now rewrite take_insert_ge by lia.
    + intros a Ha. rewrite lookup_insert_ne by lia. now apply Hf.
    + lia.
    + intros a Ha _. now rewrite lookup_insert_ne by congruence.
    + now left.
  - assert (n = cap) by lia. subst n.
    rewrite lookup_insert_eq. cbn [default id].
    rewrite take_ge by lia.
    repeat split.
    + eexists. split; [reflexivity|].
      rewrite length_app. cbn [length]. rewrite length_replicate. lia.
    + rewrite <- Hlen.
      change (arr ++ b :: ?t) with (arr ++ [b] ++ t).
      rewrite app_assoc.
      rewrite take_app_length'; [reflexivity|].
      rewrite length_app. cbn [length]. lia.
    + intros a Ha. rewrite lookup_insert_ne by lia. apply Hf. lia.
    + lia.
    + intros a _ Ha. now rewrite lookup_insert_ne by lia.
    + right. lia.
Qed.

Lemma grows_trans (w w1 w2 : world) (sl sl1 sl2 : slice) (l1 l2 : list ascii) :
  (slice_data sl < next w)%nat ->
  grows w sl l1 w1 sl1 -> grows w1 sl1 l2 w2 sl2 ->
  grows w sl (l1 ++ l2) w2 sl2.
Proof.
  intros Hlt (Hok1 & Hc1 & Hf1 & Hp1 & Hn1 & Hfr1 & Hd1)
    (Hok2 & Hc2 & Hf2 & Hp2 & Hn2 & Hfr2 & Hd2).
  unfold grows. repeat split.
  - exact Hok2.
  - now rewrite Hc2, Hc1, app_assoc.
  - exact Hf2.
  - congruence.
  - lia.
  - intros a Ha Hlta. rewrite Hfr2, Hfr1; [reflexivity | exact Ha | exact Hlta | | lia].
    destruct Hd1 as [->| Hge]; [exact Ha | lia].
  - destruct Hd2 as [->| Hge]; [exact Hd1 | right; lia].
Qed.

Lemma append_bytes_grows (bytes : string) :
  forall (sl : slice) (w : world),
    slice_ok w sl -> fresh w ->
    grows w sl (list_ascii_of_string bytes)
      (snd (append_bytes sl bytes w)) (fst (append_bytes sl bytes w)).
Proof.
  induction bytes as [|b bytes IH]; intros sl w Hok Hf.
  - cbn [append_bytes fst snd list_ascii_of_string]. unfold grows.
    rewrite app_nil_r. repeat split; auto.
  - cbn [append_bytes list_ascii_of_string].
    pose proof (append_byte_grows sl b w Hok Hf) as H1.
    destruct (append_byte sl b w) as [sl1 w1]. cbn [fst snd] in H1.
    change (b :: list_ascii_of_string bytes)
      with ([b] ++ list_ascii_of_string bytes).
    eapply grows_trans; [now apply slice_ok_allocated | exact H1 |].
    destruct H1 as (Hok1 & _ & Hf1 & _). now apply IH.
Qed.


Lemma serializerPool_Get_ok (w : world) :
  world_ok w ->
  let s := fst (serializerPool_Get w) in
  let w1 := snd (serializerPool_Get w) in
  slice_ok w1 (out s) /\ fresh w1 /\ pool w1 = tail (pool w)
  /\ (next w <= next w1)%nat
  /\ (forall a : nat, (a < next w)%nat -> heap w1 !! a = heap w !! a)
  /\ Forall (fun t => slice_ok w1 (out t)
                      /\ slice_data (out t) <> slice_data (out s)) (tail (pool w))
  /\ NoDup ((fun t => slice_data (out t)) <$> tail (pool w))
  /\ (head (pool w) = Some s \/ (pool w = [] /\ slice_data (out s) = next w)).
Proof.
  destruct w as [h nx pl]. intros (Hf & Hall & Hnd).
  unfold serializerPool_Get, make_bytes, world_ok, fresh, slice_ok in *.
  cbn [heap next pool] in *.
  destruct pl as [|s rest]; cbn [fst snd tail head heap next pool out slice_data].
  - generalize 8192%nat. intros cap.
    cbn [fst snd tail head heap next pool out slice_data slice_len slice_cap].
    repeat split.
    + exists (replicate cap zero). rewrite lookup_insert_eq, length_replicate.
      repeat split. lia.
    + intros a Ha. rewrite lookup_insert_ne by lia. apply Hf. lia.
    + lia.
    + intros a Ha. now rewrite lookup_insert_ne by lia.
    + constructor.
    + constructor.
    + now right.
  - inversion Hall as [|? ? Hs Hrest]; subst.
    rewrite fmap_cons in Hnd. apply NoDup_cons in Hnd. destruct Hnd as [Hnotin Hnd'].
    repeat split; try assumption; try lia.
    + apply List.Forall_forall. intros t Ht. split.
      * revert t Ht. now apply List.Forall_forall.
      * intros Heq. apply Hnotin. rewrite <- Heq.
        apply list_elem_of_fmap. exists t. split; [reflexivity|].
        now apply list_elem_of_In.
    + now left.
Qed.

(** Appending to the serializer taken from the pool: the buffer holds the
    bytes appended, the store stays well-formed with the buffer apart from
    the pooled ones, and no other array that was allocated is written. *)
Lemma taken_append (w : world) (bytes : string) :
  world_ok w ->
  let buf := fst (append_bytes (taken w) bytes (snd (serializerPool_Get w))) in
  let w2 := snd (append_bytes (taken w) bytes (snd (serializerPool_Get w))) in
  contents w2 buf = list_ascii_of_string bytes
  /\ slice_ok w2 buf
  /\ fresh w2
  /\ pool w2 = tail (pool w)
  /\ Forall (fun t => slice_ok w2 (out t)
                      /\ slice_data (out t) <> slice_data buf) (tail (pool w))
  /\ NoDup ((fun t => slice_data (out t)) <$> tail (pool w))
  /\ (forall a : nat,
        (a < next w)%nat ->
        (forall s, head (pool w) = Some s -> a <> slice_data (out s)) ->
        heap w2 !! a = heap w !! a).
Proof.
  intros Hw. pose proof (serializerPool_Get_ok w Hw) as HG.
  unfold taken. destruct (serializerPool_Get w) as [s w1].
  cbn [fst snd] in *.
  destruct HG as (Hok & Hf & Hp & Hn & Hfr & Hall & Hnd & Hs).
  set (sl0 := {| slice_data := slice_data (out s); slice_len := 0;
                 slice_cap := slice_cap (out s) |}).
  assert (Hok0 : slice_ok w1 sl0).
  { destruct Hok as (arr & ? & ? & ?). exists arr. subst sl0.
    cbn [slice_data slice_len slice_cap]. repeat split; [assumption.. | lia]. }
  pose proof (append_bytes_grows bytes sl0 w1 Hok0 Hf) as Hg.
  destruct (append_bytes sl0 bytes w1) as [buf w2]. cbn [fst snd] in *.
  destruct Hg as (Hok2 & Hc2 & Hf2 & Hp2 & Hn2 & Hfr2 & Hd2).
  split; [|split; [exact Hok2|split; [exact Hf2|split; [congruence|split; [|split]]]]].
  - rewrite Hc2. unfold contents. subst sl0. cbn [slice_len]. now rewrite take_0.
  - eapply List.Forall_impl; [|exact Hall].
    intros t [(arr & Harr & Hlen & Hle) Hne].
    assert (Hlt : (slice_data (out t) < next w1)%nat).
    { apply slice_ok_allocated; [exact Hf|]. now exists arr. }
    split.
    + exists arr. repeat split; try assumption.
      rewrite Hfr2; [exact Harr | exact Hne | exact Hlt].
    + destruct Hd2 as [Hd2 | Hd2]; subst sl0; cbn [slice_data] in Hd2;
        [congruence | lia].
  - exact Hnd.
  - intros a Ha Hhead.
    assert (Hne : a <> slice_data (out s)).
    { destruct Hs as [Hs | [_ Hs]]; [now apply Hhead | lia]. }
    rewrite Hfr2; [now apply Hfr | exact Hne | lia].
Qed.

Lemma Serialize_unfold (node : ast.Node) (w : world) :
  Serialize node w =
    match VisitWith node "" with
    | Ok bytes =>
        let buf := fst (append_bytes (taken w) bytes (snd (serializerPool_Get w))) in
        let w2 := snd (append_bytes (taken w) bytes (snd (serializerPool_Get w))) in
        (Ok (Serializer_String {| out := buf |}),
         serializerPool_Put {| out := buf |} w2)
    | Panic msg =>
        (Panic msg,
         snd (append_bytes (taken w) (written_before_panic node)
                (snd (serializerPool_Get w))))
    end.
Proof.
  unfold Serialize, taken. destruct (serializerPool_Get w) as [s w1].
  cbn [fst snd out].
  destruct (VisitWith node "") as [bytes|msg].
  - now destruct (append_bytes _ bytes w1).
  - now destruct (append_bytes _ (written_before_panic node) w1).
Qed.

Lemma Serialize_heap (node : ast.Node) (w : world) (a : nat) :
  world_ok w -> (a < next w)%nat ->
  (forall s, head (pool w) = Some s -> a <> slice_data (out s)) ->
  heap (snd (Serialize node w)) !! a = heap w !! a.
Proof.
  intros Hw Ha Hhead. rewrite Serialize_unfold.
  destruct (VisitWith node "") as [bytes|msg]; cbn [snd serializerPool_Put heap].
  - destruct (taken_append w bytes Hw) as (_ & _ & _ & _ & _ & _ & H). now apply H.
  - destruct (taken_append w (written_before_panic node) Hw)
      as (_ & _ & _ & _ & _ & _ & H).
    now apply H.
Qed.

Lemma Serialize_run_ok (node : ast.Node) (w : world) (json : string) :
  world_ok w ->
  VisitWith node "" = Ok json ->
  exists result : gostring,
    fst (Serialize node w) = Ok result
    /\ string_value (snd (Serialize node w)) result = json
    /\ world_ok (snd (Serialize node w))
    /\ (exists s : Serializer,
          s ∈ pool (snd (Serialize node w))
          /\ slice_data (out s) = string_data result
          /\ slice_len (out s) = string_len result).
Proof.
  intros Hw Hj. rewrite Serialize_unfold, Hj.
  destruct (taken_append w json Hw) as (Hc & Hok & Hf & Hp & Hall & Hnd & _).
  cbv zeta in *.
  set (buf := fst (append_bytes (taken w) json (snd (serializerPool_Get w)))) in *.
  set (w2 := snd (append_bytes (taken w) json (snd (serializerPool_Get w)))) in *.
  cbn [fst snd]. eexists. split; [reflexivity|]. split; [|split].
  - unfold string_value, Serializer_String, serializerPool_Put.
    cbn [string_data string_len heap out]. unfold contents, array_at in *.
    cbn [heap]. rewrite Hc. apply string_of_list_ascii_of_string.
  - unfold world_ok, serializerPool_Put. cbn [heap next pool].
    split; [exact Hf|]. rewrite Hp. split.
    + constructor; [exact Hok|].
      eapply List.Forall_impl; [|exact Hall]. now intros t [H _].
    + rewrite fmap_cons. cbn [out]. apply NoDup_cons. split; [|exact Hnd].
      intros Hin. apply list_elem_of_fmap in Hin. destruct Hin as (t & Heq & Hin).
      pose proof (proj1 (Forall_forall _ _) Hall t Hin) as [_ Hne].
      congruence.
  - exists {| out := buf |}. unfold serializerPool_Put, Serializer_String.
    cbn [pool out string_data string_len].
    split; [apply list_elem_of_here | split; reflexivity].
Qed.

Lemma Serialize_keeps_world_ok (node : ast.Node) (w : world) :
  world_ok w -> world_ok (snd (Serialize node w)).
Proof.
  intros Hw. destruct (VisitWith node "") as [json|msg] eqn:Hv.
  - now destruct (Serialize_run_ok node w json Hw Hv) as (_ & _ & _ & H & _).
  - rewrite Serialize_unfold, Hv. cbn [snd].
    destruct (taken_append w (written_before_panic node) Hw)
      as (_ & _ & Hf & Hp & Hall & Hnd & _).
    cbv zeta in *.
    split; [exact Hf|]. rewrite Hp. split; [|exact Hnd].
    eapply List.Forall_impl; [|exact Hall]. now intros t [H _].
Qed.

(** X13. On a well-formed store, whatever the size of the JSON and whatever
    the pool holds, [Serialize] returns a string that reads as the JSON of
    the tree at the moment it is returned.  The store stays well-formed, and
    the serializer handed back to the pool is the one whose buffer the
    string points into. *)
Theorem Serialize_returns_json (node : ast.Node) (w : world) (json : string) :
  world_ok w ->
  VisitWith node "" = Ok json ->
  exists result : gostring,
    fst (Serialize node w) = Ok result
    /\ string_value (snd (Serialize node w)) result = json
    /\ world_ok (snd (Serialize node w))
    /\ (exists s : Serializer,
          s ∈ pool (snd (Serialize node w))
          /\ slice_data (out s) = string_data result
          /\ slice_len (out s) = string_len result).
Proof. apply Serialize_run_ok. Qed.

(** X14. [Serialize] writes to one buffer only, that of the serializer it
    takes from the pool, and to arrays it allocates: a string that lives in
    any other allocated array reads the same before and after the call,
    whether the call returns or panics, and whatever a panicking visit had
    written by then. *)
Theorem Serialize_writes_own_buffer (node : ast.Node) (w : world) (str : gostring) :
  world_ok w ->
  (string_data str < next w)%nat ->
  (forall s, head (pool w) = Some s -> string_data str <> slice_data (out s)) ->
  string_value (snd (Serialize node w)) str = string_value w str.
Proof.
  intros Hw Ha Hhead. unfold string_value, array_at.
  now rewrite (Serialize_heap node w (string_data str) Hw Ha Hhead).
Qed.

(** ** The visit methods only append *)

Lemma appends_skip : appends skip.
Proof. intros out. unfold skip. now rewrite str_app_nil_r. Qed.

Lemma appends_panic (msg : string) : appends (panic msg).
Proof. intros out. reflexivity. Qed.

Lemma appends_writeStr (str : string) : appends (writeStr str).
Proof. intros out. reflexivity. Qed.

Lemma appends_writeByte (b : ascii) : appends (writeByte b).
Proof. intros out. reflexivity. Qed.

Lemma appends_seq (a b : Ser) : appends a -> appends b -> appends (a ;; b).
Proof.
  intros Ha Hb out. unfold seq. rewrite (Ha out).
  destruct (a "") as [ja|msg]; [|reflexivity].
  rewrite (Hb (out +:+ ja)), (Hb ja).
  destruct (b "") as [jb|msg]; [|reflexivity].
  now rewrite str_app_assoc.
Qed.

Lemma appends_when (b : bool) (a : Ser) : appends a -> appends (when b a).
Proof. intros Ha. destruct b; [exact Ha | apply appends_skip]. Qed.

Lemma appends_eval {A : Type} (r : result A) (k : A -> Ser) :
  (forall x, appends (k x)) -> appends (eval r k).
Proof. intros Hk. destruct r; [apply Hk | apply appends_panic]. Qed.

Lemma appends_forEach_from {A : Type} (f : Z -> A -> Ser) (l : list A) :
  All (fun x => forall i, appends (f i x)) l ->
  forall i, appends (forEach_from f i l).
Proof.
  induction l as [|x l IH]; intros Hall i; cbn [forEach_from].
  - apply appends_skip.
  - destruct Hall as [Hx Hl]. apply appends_seq; [apply Hx | now apply IH].
Qed.

Lemma appends_forEach {A : Type} (l : list A) (f : Z -> A -> Ser) :
  All (fun x => forall i, appends (f i x)) l -> appends (forEach l f).
Proof. intros Hall. now apply appends_forEach_from. Qed.

Ltac appends_step :=
  first
    [ apply appends_skip
    | apply appends_panic
    | apply appends_writeStr
    | apply appends_writeByte
    | apply appends_seq
    | apply appends_when
    | apply appends_eval; intro
    | match goal with
      | |- appends (if ?b then _ else _) => destruct b
      | |- appends (match ?x with _ => _ end) => destruct x
      end ].

Lemma appends_writeString (str : string) : appends (writeString str).
Proof.
  unfold writeString. repeat appends_step.
  induction str as [|c str IH]; cbn [writeString_loop]; [apply appends_skip|].
  apply appends_seq; [|exact IH].
  unfold writeString_byte, writeByteAt. repeat appends_step.
Qed.

Lemma appends_writeInt (n : Z) : appends (writeInt n).
Proof. unfold writeInt, writeSmallInt. repeat appends_step. Qed.

Lemma appends_writeInt64 (n : Z) : appends (writeInt64 n).
Proof. unfold writeInt64, writeSmallInt. repeat appends_step. Qed.

Lemma appends_writeBool (b : bool) : appends (writeBool b).
Proof. unfold writeBool. repeat appends_step. Qed.

Lemma appends_writeNull : appends writeNull.
Proof. apply appends_writeStr. Qed.

Lemma appends_writeNumber (n : ast.float64) : appends (writeNumber n).
Proof.
  unfold writeNumber.
  match goal with |- appends (if ?b then _ else _) => destruct b end;
    [apply appends_writeInt64 | apply appends_writeStr].
Qed.

Lemma appends_writeOperator (t : token.Token) : appends (writeOperator t).
Proof.
  unfold writeOperator.
  destruct (operatorStrings t); [apply appends_writeStr | apply appends_writeString].
Qed.

Lemma appends_writePosition (node : NodePos) : appends (writePosition node).
Proof.
  unfold writePosition.
  repeat first [ apply appends_writeInt | appends_step ].
Qed.

Lemma appends_writePositionStartOnly (start : Idx) :
  appends (writePositionStartOnly start).
Proof.
  unfold writePositionStartOnly.
  repeat first [ apply appends_writeInt | appends_step ].
Qed.


Ltac head_of t :=
  lazymatch t with
  | ?f _ => head_of f
  | _ => t
  end.

(** One visit method: the helpers append, the children do by the induction
    hypothesis [IH], lists are walked element by element. *)
Ltac appends_visit IH :=
  repeat first
    [ apply appends_writeString | apply appends_writeInt | apply appends_writeInt64
    | apply appends_writeBool | apply appends_writeNull | apply appends_writeNumber
    | apply appends_writeOperator | apply appends_writePosition
    | apply appends_writePositionStartOnly
    | apply appends_skip | apply appends_panic | apply appends_writeStr
    | apply appends_writeByte
    | lazymatch goal with
      | |- appends (VisitWith ?x) => apply IH
      | |- appends (forEach ?l ?f) =>
          apply appends_forEach;
          lazymatch goal with
          | |- All ?P ?l0 =>
              refine ((fix go (l1 : list _) : All P l1 :=
                         match l1 return All P l1 with
                         | [] => I
                         | x :: l' => conj (_ : P x) (go l')
                         end) l0);
              cbv beta; intro
          end
      | |- appends (if ?b then _ else _) => destruct b
      | |- appends (match ?x with _ => _ end) => destruct x
      end
    | apply appends_seq | apply appends_when | apply appends_eval; intro
    | progress cbv beta zeta
    | lazymatch goal with
      | |- appends ?t => let h := head_of t in progress unfold h
      end ].

Lemma VisitWith_appends_all : forall node : ast.Node, appends (VisitWith node).
Proof.
  fix IH 1. intros node.
  destruct node; cbn [VisitWith]; appends_visit IH.
Qed.


(** X15. A visit only appends.  Whatever the buffer holds when a node is
    visited, the visit leaves it followed by the text the visit writes into
    an empty buffer, and it panics on one buffer exactly when it panics on
    every buffer: no visit method reads or takes back a byte. *)
Theorem VisitWith_only_appends (node : ast.Node) (out : string) :
  VisitWith node out =
    match VisitWith node "" with
    | Ok json => Ok (out +:+ json)
    | Panic msg => Panic msg
    end.
Proof. apply VisitWith_appends_all. Qed.

(** ** Lists of children *)

Lemma All_intro {A : Type} (P : A -> Prop) (l : list A) :
  (forall x, P x) -> All P l.
Proof. intros H. induction l; cbn [All]; auto. Qed.

Lemma forEach_from_commas {A : Type} (item : A -> Ser) (l : list A) :
  All (fun x => appends (item x)) l ->
  forall texts : list string,
    Forall2 (fun x text => item x "" = Ok text) l texts ->
    forall (i : Z) (out : string),
      0 < i ->
      forEach_from (fun i x => when (0 <? i) (writeStr ",") ;; item x) i l out =
        Ok (out +:+ commas_before texts).
Proof.
  induction l as [|x l IH]; intros Hall texts HF i out Hi;
    inversion HF as [|? text ? texts' Hx HF']; subst;
    cbn [forEach_from commas_before fold_right].
  - unfold skip. now rewrite str_app_nil_r.
  - destruct Hall as [Hax Hal].
    destruct (Z.ltb_spec 0 i) as [_|?]; [|lia].
    unfold seq at 1 2. cbn [when]. rewrite writeStr_ok.
    rewrite (Hax (out +:+ ",")), Hx.
    rewrite (IH Hal texts' HF') by lia.
    now rewrite !str_app_assoc.
Qed.

Lemma forEach_commas {A : Type} (item : A -> Ser) (l : list A)
    (texts : list string) (out : string) :
  All (fun x => appends (item x)) l ->
  Forall2 (fun x text => item x "" = Ok text) l texts ->
  forEach l (fun i x => when (0 <? i) (writeStr ",") ;; item x) out =
    Ok (out +:+ join_commas texts).
Proof.
  intros Hall HF. unfold forEach.
  destruct HF as [|x text l texts Hx HF]; cbn [forEach_from join_commas].
  - unfold skip. now rewrite str_app_nil_r.
  - destruct Hall as [Hax Hal].
    unfold seq at 1 2. cbn [when Z.ltb Z.compare skip].
    rewrite (Hax out), Hx.
    rewrite (forEach_from_commas item l Hal texts HF) by lia.
    now rewrite !str_app_assoc.
Qed.

Lemma appends_serialize (node : option ast.Node) : appends (serialize VisitWith node).
Proof.
  destruct node; cbn [serialize];
    [apply VisitWith_appends_all | apply appends_writeStr].
Qed.

(** X16. An array literal is written with its elements in order, a comma
    between any two and none after the last; a hole of the array is written
    as [null]. *)
Theorem VisitArrayLiteral_elements (n : ast.ArrayLiteral ast.Node)
    (texts : list string) (out : string) :
  Forall2 (fun elem text => serialize VisitWith elem "" = Ok text)
    (ast.ArrayLiteral_Value n) texts ->
  serialize VisitWith None "" = Ok "null"
  /\ VisitWith (ast.NArrayLiteral n) out =
       Ok (out +:+ q "{'type':'ArrayExpression','elements':["
               +:+ join_commas texts +:+ "],"
               +:+ position_text (ast.ArrayLiteral_span n) +:+ "}").
Proof.
  intros HF. split; [reflexivity|].
  cbn [VisitWith]. unfold VisitArrayLiteral.
  rewrite seq_writeStr.
  erewrite seq_ok.
  2:{ apply (forEach_commas
               (fun elem : option ast.Node =>
                  match elem with
                  | None => writeNull
                  | Some _ => serialize VisitWith elem
                  end)) with (texts := texts).
      - apply All_intro. intros [x|]; [apply appends_serialize | apply appends_writeNull].
      - eapply Forall2_impl; [exact HF|].
        intros [x|] text H; exact H. }
  rewrite seq_writeStr. erewrite seq_ok by apply writePosition_stored.
  rewrite writeStr_ok. now rewrite !str_app_assoc.
Qed.


Lemma writeBool_ok (b : bool) (out : string) :
  writeBool b out = Ok (out +:+ (if b then "true" else "false")).
Proof. now destruct b. Qed.

Lemma quasi_step (elem : ast.TemplateElement) (tail : bool) (out : string) :
  (writeStr (q "{'type':'TemplateElement','value':{'raw':") ;;
   writeString (ast.TemplateElement_Literal elem) ;;
   writeStr (q ",'cooked':") ;;
   writeString (ast.TemplateElement_Parsed elem) ;;
   writeStr (q "},'tail':") ;;
   writeBool tail ;;
   writeStr "," ;;
   writePosition (stored (ast.TemplateElement_span elem)) ;;
   writeStr "}")%ser out = Ok (out +:+ quasi_text elem tail).
Proof.
  rewrite seq_writeStr. erewrite seq_ok by apply writeString_spec.
  rewrite seq_writeStr. erewrite seq_ok by apply writeString_spec.
  rewrite seq_writeStr. erewrite seq_ok by apply writeBool_ok.
  rewrite seq_writeStr. erewrite seq_ok by apply writePosition_stored.
  rewrite writeStr_ok. unfold quasi_text. now rewrite !str_app_assoc.
Qed.

Lemma quasis_tail_flag (i total : Z) (elem : ast.TemplateElement)
    (rest : list ast.TemplateElement) :
  total = i + Z.of_nat (length (elem :: rest)) ->
  (i =? total - 1) = match rest with [] => true | _ => false end.
Proof.
  intros ->. destruct rest as [|e rest]; cbn [length].
  - apply Z.eqb_eq. lia.
  - apply Z.eqb_neq. lia.
Qed.

Lemma quasis_from (elems : list ast.TemplateElement) :
  forall (i total : Z) (out : string),
    0 < i -> total = i + Z.of_nat (length elems) ->
    forEach_from (fun i elem =>
      when (0 <? i) (writeStr ",") ;;
      writeStr (q "{'type':'TemplateElement','value':{'raw':") ;;
      writeString (ast.TemplateElement_Literal elem) ;;
      writeStr (q ",'cooked':") ;;
      writeString (ast.TemplateElement_Parsed elem) ;;
      writeStr (q "},'tail':") ;;
      writeBool (i =? total - 1) ;;
      writeStr "," ;;
      writePosition (stored (ast.TemplateElement_span elem)) ;;
      writeStr "}") i elems out =
    Ok (out +:+ commas_before (quasis_texts elems)).
Proof.
  induction elems as [|elem rest IH]; intros i total out Hi Htotal;
    cbn [forEach_from quasis_texts commas_before fold_right].
  - unfold skip. now rewrite str_app_nil_r.
  - destruct (Z.ltb_spec 0 i) as [_|?]; [|lia].
    unfold seq at 1 2. cbn [when]. rewrite writeStr_ok.
    rewrite quasi_step. rewrite (IH (i + 1) total); [| lia | cbn [length] in Htotal; lia].
    rewrite (quasis_tail_flag i total elem rest Htotal).
    now rewrite !str_app_assoc.
Qed.

Lemma quasis_all (elems : list ast.TemplateElement) (out : string) :
  forEach elems (fun i elem =>
    when (0 <? i) (writeStr ",") ;;
    writeStr (q "{'type':'TemplateElement','value':{'raw':") ;;
    writeString (ast.TemplateElement_Literal elem) ;;
    writeStr (q ",'cooked':") ;;
    writeString (ast.TemplateElement_Parsed elem) ;;
    writeStr (q "},'tail':") ;;
    writeBool (i =? Z.of_nat (length elems) - 1) ;;
    writeStr "," ;;
    writePosition (stored (ast.TemplateElement_span elem)) ;;
    writeStr "}") out =
  Ok (out +:+ join_commas (quasis_texts elems)).
Proof.
  unfold forEach. generalize (eq_refl (Z.of_nat (length elems))).
  generalize (Z.of_nat (length elems)) at 1 3. intros total Htotal.
  destruct elems as [|elem rest]; cbn [forEach_from quasis_texts join_commas].
  - unfold skip. now rewrite str_app_nil_r.
  - unfold seq at 1 2. cbn [when Z.ltb Z.compare skip].
    rewrite quasi_step. rewrite (quasis_from rest 1 total); [| lia | cbn [length] in Htotal; lia].
    rewrite (quasis_tail_flag 0 total elem rest) by (rewrite Htotal; lia).
    now rewrite !str_app_assoc.
Qed.

(** X17. A template literal is written with its quasis in order, the flag
    [tail] set on the last quasi and on no other, then its expressions, a
    comma between any two items of either list. *)
Theorem VisitTemplateLiteral_tail (n : ast.TemplateLiteral ast.Node)
    (texts : list string) (out : string) :
  Forall2 (fun expr text => serialize VisitWith expr "" = Ok text)
    (ast.TemplateLiteral_Expressions n) texts ->
  VisitWith (ast.NTemplateLiteral n) out =
    Ok (out +:+ q "{'type':'TemplateLiteral','quasis':["
            +:+ join_commas (quasis_texts (ast.TemplateLiteral_Elements n))
            +:+ q "],'expressions':[" +:+ join_commas texts +:+ "],"
            +:+ position_text (ast.TemplateLiteral_span n) +:+ "}").
Proof.
  intros HF. cbn [VisitWith]. unfold VisitTemplateLiteral.
  rewrite seq_writeStr. erewrite seq_ok by apply quasis_all.
  rewrite seq_writeStr.
  erewrite seq_ok.
  2:{ apply (forEach_commas (serialize VisitWith)) with (texts := texts).
      - apply All_intro. apply appends_serialize.
      - exact HF. }
  rewrite seq_writeStr. erewrite seq_ok by apply writePosition_stored.
  rewrite writeStr_ok. now rewrite !str_app_assoc.
Qed.


(** ** The host entry point, call after call *)

Lemma Sprintf_internal_error (r : string) :
  Sprintf "internal error: %v" [AStr r] = "internal error: " +:+ r.
Proof.
  simpl. now rewrite str_app_nil_r.
Qed.

Lemma parseJS_on_world_ok (source : option string) (shouldResolve : bool) (w : world) :
  world_ok w ->
  fst (parseJS source shouldResolve w) = parseJS_reply source shouldResolve
  /\ world_ok (snd (parseJS source shouldResolve w)).
Proof.
  intros Hw. unfold parseJS, parseJS_reply.
  destruct source as [source|]; [|now split].
  destruct (ParseFile source) as [[program|] [err|]]; try now split.
  set (node := ast.NProgram (if shouldResolve then Resolve program else program)).
  pose proof (Serialize_keeps_world_ok node w Hw) as Hw'.
  destruct (VisitWith node "") as [json|msg] eqn:Hv.
  - destruct (Serialize_run_ok node w json Hw Hv) as (r & Hr & Hval & _).
    destruct (Serialize node w) as [res w']. cbn [fst snd] in *. subst res.
    now split.
  - assert (Hp : fst (Serialize node w) = Panic msg).
    { now rewrite Serialize_unfold, Hv. }
    destruct (Serialize node w) as [res w']. cbn [fst snd] in *. subst res.
    split; [|exact Hw']. cbn [fst]. f_equal. apply Sprintf_internal_error.
Qed.

Lemma world_ok_empty : world_ok empty_world.
Proof.
  split; [|split]; [intros a _; apply lookup_empty | constructor | constructor].
Qed.

Lemma parseJS_calls_on_world_ok (calls : list (option string * bool)) :
  forall w : world,
    world_ok w ->
    fst (parseJS_calls calls w) =
      map (fun call => parseJS_reply (fst call) (snd call)) calls.
Proof.
  induction calls as [|[source shouldResolve] rest IH]; intros w Hw;
    cbn [parseJS_calls map fst snd]; [reflexivity|].
  destruct (parseJS_on_world_ok source shouldResolve w Hw) as [Ha Hw1].
  destruct (parseJS source shouldResolve w) as [answer w1]. cbn [fst snd] in *.
  specialize (IH w1 Hw1).
  destruct (parseJS_calls rest w1) as [answers w2]. cbn [fst] in *.
  now subst.
Qed.

(** X18. The pooled buffer never shows in what [parseJS] answers.  Through
    any sequence of calls from the start of the program, each answer is the
    one told from the arguments of that call alone: the error object for a
    missing source, for the diagnostics of the parser or for a panic, and
    otherwise the JSON of the parsed (and, on request, resolved) program. *)
Theorem parseJS_answers_independent (calls : list (option string * bool)) :
  fst (parseJS_calls calls empty_world) =
    map (fun call => parseJS_reply (fst call) (snd call)) calls.
Proof. apply parseJS_calls_on_world_ok, world_ok_empty. Qed.


(** X21. A static block of a class is written as the list of the statements
    of its block, a comma between any two, and its own span.  The scope
    stamp of the block is not written: whatever the stamp, the text is the
    same, with no [scopeContext] field. *)
Theorem VisitClassStaticBlock_body (n : ast.ClassStaticBlock ast.Node)
    (stamp : ast.ScopeContext) (texts : list string) (out : string) :
  Forall2 (fun stmt text => serialize VisitWith stmt "" = Ok text)
    (ast.BlockStatement_List (ast.ClassStaticBlock_Block n)) texts ->
  VisitWith (ast.NClassStaticBlock
               {| ast.ClassStaticBlock_Block :=
                    BlockStatement_stamped (ast.ClassStaticBlock_Block n) stamp;
                  ast.ClassStaticBlock_span := ast.ClassStaticBlock_span n |}) out =
    Ok (out +:+ q "{'type':'StaticBlock','body':[" +:+ join_commas texts +:+ "],"
            +:+ position_text (ast.ClassStaticBlock_span n) +:+ "}").
Proof.
  intros HF. cbn [VisitWith]. unfold VisitClassStaticBlock.
  cbn [ast.ClassStaticBlock_Block ast.ClassStaticBlock_span].
  unfold BlockStatement_stamped. cbn [ast.BlockStatement_List].
  rewrite seq_writeStr.
  erewrite seq_ok.
  2:{ apply (forEach_commas (serialize VisitWith)) with (texts := texts).
      - apply All_intro. apply appends_serialize.
      - exact HF. }
  rewrite seq_writeStr. erewrite seq_ok by apply writePosition_stored.
  rewrite writeStr_ok. now rewrite !str_app_assoc.
Qed.


(** ** The nodes that carry a scope context *)

Lemma serialize_appended (node : option ast.Node) (text out : string) :
  serialize VisitWith node "" = Ok text ->
  serialize VisitWith node out = Ok (out +:+ text).
Proof. intros H. rewrite (appends_serialize node out). now rewrite H. Qed.

Lemma statements_step (stmts : list (option ast.Node)) (texts : list string)
    (out : string) :
  statements_written stmts texts ->
  forEach stmts (fun i stmt => when (0 <? i) (writeStr ",") ;; serialize VisitWith stmt)
    out = Ok (out +:+ join_commas texts).
Proof.
  intros H. apply (forEach_commas (serialize VisitWith)); [|exact H].
  apply All_intro, appends_serialize.
Qed.

Lemma VisitBlockStatement_text (n : ast.BlockStatement ast.Node)
    (texts : list string) (out : string) :
  statements_written (ast.BlockStatement_List n) texts ->
  VisitBlockStatement VisitWith n out =
    Ok (out +:+ block_text texts (ast.BlockStatement_ScopeContext n)
                  (ast.BlockStatement_span n)).
Proof.
  intros H. unfold VisitBlockStatement, block_text.
  rewrite seq_writeStr. erewrite seq_ok by (apply statements_step; exact H).
  rewrite seq_writeStr, write_stamped_tail. now rewrite !str_app_assoc.
Qed.

Lemma name_step (name : option ast.Identifier) (out : string) :
  match name with
  | Some name => VisitIdentifier name
  | None => writeNull
  end out = Ok (out +:+ name_text name).
Proof. destruct name; [apply VisitIdentifier_stamp | reflexivity]. Qed.

Lemma appends_serializeParam (param : ast.VariableDeclarator ast.Node) :
  appends (serializeParam VisitWith param).
Proof. unfold serializeParam. appends_visit VisitWith_appends_all. Qed.

Lemma params_step (params : list (ast.VariableDeclarator ast.Node))
    (texts : list string) (out : string) :
  params_written params texts ->
  forEach params (fun i param =>
    when (0 <? i) (writeStr ",") ;; serializeParam VisitWith param) out =
    Ok (out +:+ join_commas texts).
Proof.
  intros H. apply (forEach_commas (serializeParam VisitWith)); [|exact H].
  apply All_intro, appends_serializeParam.
Qed.

Lemma rest_step (pl : ast.ParameterList ast.Node) (texts : list string)
    (rest : option string) (out : string) :
  params_written (ast.ParameterList_List pl) texts ->
  rest_written (ast.ParameterList_Rest pl) rest ->
  match ast.ParameterList_Rest pl with
  | Some _ =>
      when (0 <? Z.of_nat (length (ast.ParameterList_List pl))) (writeStr ",") ;;
      writeStr (q "{'type':'RestElement','argument':") ;;
      serialize VisitWith (ast.ParameterList_Rest pl) ;;
      writeStr "}"
  | None => skip
  end out = Ok (out +:+ rest_text texts rest).
Proof.
  intros Hp Hr. unfold rest_written, rest_text in *.
  destruct (ast.ParameterList_Rest pl) as [node|]; destruct rest as [text|];
    try contradiction.
  - assert (Hcomma :
      when (0 <? Z.of_nat (length (ast.ParameterList_List pl))) (writeStr ",") out =
        Ok (out +:+ match texts with [] => "" | _ => "," end)).
    { destruct Hp; cbn [length when]; [|reflexivity].
      unfold skip. now rewrite str_app_nil_r. }
    erewrite seq_ok by exact Hcomma.
    rewrite seq_writeStr.
    erewrite seq_ok by (apply (serialize_appended (Some node)); exact Hr).
    rewrite writeStr_ok. now rewrite !str_app_assoc.
  - unfold skip. now rewrite str_app_nil_r.
Qed.

Lemma VisitFunctionLiteral_text (n : ast.FunctionLiteral ast.Node)
    (params : list string) (rest : option string) (body : list string) (out : string) :
  params_written (ast.ParameterList_List (ast.FunctionLiteral_ParameterList n)) params ->
  rest_written (ast.ParameterList_Rest (ast.FunctionLiteral_ParameterList n)) rest ->
  statements_written (ast.BlockStatement_List (ast.FunctionLiteral_Body n)) body ->
  VisitFunctionLiteral VisitWith n out =
    Ok (out +:+ q "{'type':'FunctionExpression','id':"
            +:+ name_text (ast.FunctionLiteral_Name n)
            +:+ q ",'params':[" +:+ params_text params rest
            +:+ q "],'body':"
            +:+ block_text body
                  (ast.BlockStatement_ScopeContext (ast.FunctionLiteral_Body n))
                  (ast.BlockStatement_span (ast.FunctionLiteral_Body n))
            +:+ q ",'generator':" +:+ bool_text (ast.FunctionLiteral_Generator n)
            +:+ q ",'async':" +:+ bool_text (ast.FunctionLiteral_Async n)
            +:+ stamped_tail (ast.FunctionLiteral_ScopeContext n)
                  (ast.FunctionLiteral_span n)).
Proof.
  intros Hp Hr Hb. unfold VisitFunctionLiteral, params_text.
  rewrite seq_writeStr. erewrite seq_ok by apply name_step.
  rewrite seq_writeStr. erewrite seq_ok by (apply params_step; exact Hp).
  erewrite seq_ok by (apply rest_step; [exact Hp | exact Hr]).
  rewrite seq_writeStr.
  erewrite seq_ok by (apply VisitBlockStatement_text; exact Hb).
  rewrite seq_writeStr. erewrite seq_ok by apply writeBool_ok.
  rewrite seq_writeStr. erewrite seq_ok by apply writeBool_ok.
  rewrite write_stamped_tail. unfold bool_text. now rewrite !str_app_assoc.
Qed.

Lemma VisitFunctionDeclaration_text (n : ast.FunctionDeclaration ast.Node)
    (params : list string) (rest : option string) (body : list string) (out : string) :
  let f := ast.FunctionDeclaration_Function n in
  params_written (ast.ParameterList_List (ast.FunctionLiteral_ParameterList f)) params ->
  rest_written (ast.ParameterList_Rest (ast.FunctionLiteral_ParameterList f)) rest ->
  statements_written (ast.BlockStatement_List (ast.FunctionLiteral_Body f)) body ->
  VisitFunctionDeclaration VisitWith n out =
    Ok (out +:+ q "{'type':'FunctionDeclaration','id':"
            +:+ name_text (ast.FunctionLiteral_Name f)
            +:+ q ",'params':[" +:+ params_text params rest
            +:+ q "],'body':"
            +:+ block_text body
                  (ast.BlockStatement_ScopeContext (ast.FunctionLiteral_Body f))
                  (ast.BlockStatement_span (ast.FunctionLiteral_Body f))
            +:+ q ",'generator':" +:+ bool_text (ast.FunctionLiteral_Generator f)
            +:+ q ",'async':" +:+ bool_text (ast.FunctionLiteral_Async f)
            +:+ stamped_tail (ast.FunctionLiteral_ScopeContext f)
                  (ast.FunctionDeclaration_span n)).
Proof.
  intros f Hp Hr Hb. unfold VisitFunctionDeclaration, params_text. cbv zeta. fold f.
  rewrite seq_writeStr. erewrite seq_ok by apply name_step.
  rewrite seq_writeStr. erewrite seq_ok by (apply params_step; exact Hp).
  erewrite seq_ok by (apply rest_step; [exact Hp | exact Hr]).
  rewrite seq_writeStr.
  erewrite seq_ok by (apply VisitBlockStatement_text; exact Hb).
  rewrite seq_writeStr. erewrite seq_ok by apply writeBool_ok.
  rewrite seq_writeStr. erewrite seq_ok by apply writeBool_ok.
  rewrite write_stamped_tail. unfold bool_text. now rewrite !str_app_assoc.
Qed.

Lemma VisitArrowFunctionLiteral_text (n : ast.ArrowFunctionLiteral ast.Node)
    (params : list string) (rest : option string) (body : string) (out : string) :
  params_written
    (ast.ParameterList_List (ast.ArrowFunctionLiteral_ParameterList n)) params ->
  rest_written
    (ast.ParameterList_Rest (ast.ArrowFunctionLiteral_ParameterList n)) rest ->
  serialize VisitWith (ast.ConciseBody_Body (ast.ArrowFunctionLiteral_Body n)) "" =
    Ok body ->
  VisitArrowFunctionLiteral VisitWith is_BlockStatement n out =
    Ok (out +:+ q "{'type':'ArrowFunctionExpression','id':null,'params':["
            +:+ params_text params rest
            +:+ q "],'body':" +:+ body
            +:+ q ",'expression':"
            +:+ bool_text
                  (negb match ast.ConciseBody_Body (ast.ArrowFunctionLiteral_Body n) with
                        | Some node => is_BlockStatement node
                        | None => false
                        end)
            +:+ q ",'async':" +:+ bool_text (ast.ArrowFunctionLiteral_Async n)
            +:+ stamped_tail (ast.ArrowFunctionLiteral_ScopeContext n)
                  (ast.ArrowFunctionLiteral_span n)).
Proof.
  intros Hp Hr Hb. unfold VisitArrowFunctionLiteral, VisitConciseBody, params_text.
  cbv zeta.
  rewrite seq_writeStr. erewrite seq_ok by (apply params_step; exact Hp).
  erewrite seq_ok by (apply rest_step; [exact Hp | exact Hr]).
  rewrite seq_writeStr.
  erewrite seq_ok by (apply serialize_appended; exact Hb).
  rewrite seq_writeStr. erewrite seq_ok by apply writeBool_ok.
  rewrite seq_writeStr. erewrite seq_ok by apply writeBool_ok.
  rewrite write_stamped_tail. unfold bool_text. now rewrite !str_app_assoc.
Qed.

(** C8, as amended.  An [Identifier], a [BlockStatement] and a function
    node written by their own visit method get a [scopeContext] field
    exactly when their scope context is not 0, with the stamp as its value:
    given the texts of the children, the JSON object of the node is the
    text below, where the field stands once, right before the position
    fields of the node.  The identifier of a [PrivateIdentifier] and the
    block of a class static block are not written by their own visit method,
    and their stamp is written nowhere. *)
Theorem scopeContext_field_iff_stamped :
  (forall stamp : ast.ScopeContext,
     (scopeContext_field stamp = "" <-> stamp = 0)
     /\ (stamp <> 0 ->
         scopeContext_field stamp = q ",'scopeContext':" +:+ GoInt.Itoa stamp))
  /\ (forall (n : ast.Identifier) (out : string),
        VisitWith (ast.NIdentifier n) out = Ok (out +:+ identifier_text n))
  /\ (forall (n : ast.BlockStatement ast.Node) (texts : list string) (out : string),
        statements_written (ast.BlockStatement_List n) texts ->
        VisitWith (ast.NBlockStatement n) out =
          Ok (out +:+ q "{'type':'BlockStatement','body':[" +:+ join_commas texts
                  +:+ "]"
                  +:+ stamped_tail (ast.BlockStatement_ScopeContext n)
                        (ast.BlockStatement_span n)))
  /\ (forall (n : ast.FunctionLiteral ast.Node) (params : list string)
             (rest : option string) (body : list string) (out : string),
        params_written
          (ast.ParameterList_List (ast.FunctionLiteral_ParameterList n)) params ->
        rest_written
          (ast.ParameterList_Rest (ast.FunctionLiteral_ParameterList n)) rest ->
        statements_written (ast.BlockStatement_List (ast.FunctionLiteral_Body n)) body ->
        VisitWith (ast.NFunctionLiteral n) out =
          Ok (out +:+ q "{'type':'FunctionExpression','id':"
                  +:+ name_text (ast.FunctionLiteral_Name n)
                  +:+ q ",'params':[" +:+ params_text params rest
                  +:+ q "],'body':"
                  +:+ block_text body
                        (ast.BlockStatement_ScopeContext (ast.FunctionLiteral_Body n))
                        (ast.BlockStatement_span (ast.FunctionLiteral_Body n))
                  +:+ q ",'generator':" +:+ bool_text (ast.FunctionLiteral_Generator n)
                  +:+ q ",'async':" +:+ bool_text (ast.FunctionLiteral_Async n)
                  +:+ stamped_tail (ast.FunctionLiteral_ScopeContext n)
                        (ast.FunctionLiteral_span n)))
  /\ (forall (n : ast.ArrowFunctionLiteral ast.Node) (params : list string)
             (rest : option string) (body : string) (out : string),
        params_written
          (ast.ParameterList_List (ast.ArrowFunctionLiteral_ParameterList n)) params ->
        rest_written
          (ast.ParameterList_Rest (ast.ArrowFunctionLiteral_ParameterList n)) rest ->
        serialize VisitWith
          (ast.ConciseBody_Body (ast.ArrowFunctionLiteral_Body n)) "" = Ok body ->
        VisitWith (ast.NArrowFunctionLiteral n) out =
          Ok (out +:+ q "{'type':'ArrowFunctionExpression','id':null,'params':["
                  +:+ params_text params rest
                  +:+ q "],'body':" +:+ body
                  +:+ q ",'expression':"
                  +:+ bool_text
                        (negb match ast.ConciseBody_Body
                                      (ast.ArrowFunctionLiteral_Body n) with
                              | Some node => is_BlockStatement node
                              | None => false
                              end)
                  +:+ q ",'async':" +:+ bool_text (ast.ArrowFunctionLiteral_Async n)
                  +:+ stamped_tail (ast.ArrowFunctionLiteral_ScopeContext n)
                        (ast.ArrowFunctionLiteral_span n)))
  /\ (forall (n : ast.FunctionDeclaration ast.Node) (params : list string)
             (rest : option string) (body : list string) (out : string),
        params_written
          (ast.ParameterList_List
             (ast.FunctionLiteral_ParameterList (ast.FunctionDeclaration_Function n)))
          params ->
        rest_written
          (ast.ParameterList_Rest
             (ast.FunctionLiteral_ParameterList (ast.FunctionDeclaration_Function n)))
          rest ->
        statements_written
          (ast.BlockStatement_List
             (ast.FunctionLiteral_Body (ast.FunctionDeclaration_Function n))) body ->
        VisitWith (ast.NFunctionDeclaration n) out =
          Ok (out +:+ q "{'type':'FunctionDeclaration','id':"
                  +:+ name_text
                        (ast.FunctionLiteral_Name (ast.FunctionDeclaration_Function n))
                  +:+ q ",'params':[" +:+ params_text params rest
                  +:+ q "],'body':"
                  +:+ block_text body
                        (ast.BlockStatement_ScopeContext
                           (ast.FunctionLiteral_Body (ast.FunctionDeclaration_Function n)))
                        (ast.BlockStatement_span
                           (ast.FunctionLiteral_Body (ast.FunctionDeclaration_Function n)))
                  +:+ q ",'generator':"
                  +:+ bool_text
                        (ast.FunctionLiteral_Generator (ast.FunctionDeclaration_Function n))
                  +:+ q ",'async':"
                  +:+ bool_text
                        (ast.FunctionLiteral_Async (ast.FunctionDeclaration_Function n))
                  +:+ stamped_tail
                        (ast.FunctionLiteral_ScopeContext
                           (ast.FunctionDeclaration_Function n))
                        (ast.FunctionDeclaration_span n)))
  /\ (forall (n : ast.PrivateIdentifier) (out : string),
        VisitWith (ast.NPrivateIdentifier n) out =
          Ok (out +:+ q "{'type':'PrivateIdentifier','name':"
                  +:+ json_quote (ast.Identifier_Name (ast.PrivateIdentifier_Identifier n))
                  +:+ "," +:+ position_text (ast.PrivateIdentifier_span n) +:+ "}"))
  /\ (forall (n : ast.ClassStaticBlock ast.Node) (texts : list string) (out : string),
        statements_written
          (ast.BlockStatement_List (ast.ClassStaticBlock_Block n)) texts ->
        VisitWith (ast.NClassStaticBlock n) out =
          Ok (out +:+ q "{'type':'StaticBlock','body':[" +:+ join_commas texts
                  +:+ "]," +:+ position_text (ast.ClassStaticBlock_span n) +:+ "}")).
Proof.
  split.
  { intros stamp. split; [apply scopeContext_field_empty|].
    intros Hne. unfold scopeContext_field.
    destruct (Z.eqb_spec stamp 0); [contradiction | reflexivity]. }
  split; [exact VisitIdentifier_stamp|].
  split; [exact VisitBlockStatement_text|].
  split; [exact VisitFunctionLiteral_text|].
  split; [exact VisitArrowFunctionLiteral_text|].
  split; [exact VisitFunctionDeclaration_text|].
  split.
  - intros n out. cbn [VisitWith]. unfold VisitPrivateIdentifier.
    rewrite seq_writeStr. erewrite seq_ok by apply writeString_spec.
    rewrite seq_writeStr. erewrite seq_ok by apply writePosition_stored.
    rewrite writeStr_ok. now rewrite !str_app_assoc.
  - intros n texts out H. cbn [VisitWith]. unfold VisitClassStaticBlock.
    rewrite seq_writeStr. erewrite seq_ok by (apply statements_step; exact H).
    rewrite seq_writeStr. erewrite seq_ok by apply writePosition_stored.
    rewrite writeStr_ok. now rewrite !str_app_assoc.
Qed.

(** ** The lexical structure of what the serializer writes *)

Lemma lex_scan_app (a : string) :
  forall (mode : lex_mode) (stack stack' : list bracket) (b : string),
    lex_scan mode stack a = Some stack' ->
    lex_scan mode stack (a +:+ b) = lex_scan Outside stack' b.
Proof.
  induction a as [|c a IH]; intros mode stack stack' b H.
  - destruct mode; simpl in H; try discriminate. now injection H as ->.
  - cbn [String.append]. cbn [lex_scan] in *.
    destruct mode as [| | |more];
      repeat match type of H with
             | context [if ?c then _ else _] => destruct c
             end;
      try discriminate H;
      try (destruct stack as [|[|] stack]; try discriminate H);
      try (destruct more);
      now apply IH.
Qed.

Lemma lex_escape_byte (c : ascii) (stack : list bracket) (s : string) :
  lex_scan InString stack (json_escape_byte c +:+ s) = lex_scan InString stack s.
Proof.
  unfold json_escape_byte.
  repeat match goal with
         | |- context [Ascii.eqb c ?x] =>
             destruct (Ascii.eqb_spec c x) as [->|?]; [reflexivity|]
         end.
  destruct (Z.ltb_spec (byte_val c) 32) as [Hlt|Hge].
  - pose proof (byte_val_range c) as Hr.
    simpl. rewrite !hex_digit_is_hex; [reflexivity | |].
    + apply Z.mod_pos_bound. lia.
    + split; [apply Z.div_pos; lia | apply Z.div_lt_upper_bound; lia].
  - simpl.
    destruct (Ascii.eqb_spec c "034") as [->|_]; [contradiction|].
    destruct (Ascii.eqb_spec c "\") as [->|_]; [contradiction|].
    destruct (Z.ltb_spec (byte_val c) 32); [lia | reflexivity].
Qed.

Lemma lex_escape (str : string) (stack : list bracket) (s : string) :
  lex_scan InString stack (json_escape str +:+ s) = lex_scan InString stack s.
Proof.
  induction str as [|c rest IH]; simpl; [reflexivity|].
  now rewrite str_app_assoc, lex_escape_byte.
Qed.

Lemma lex_quote (str : string) (stack : list bracket) :
  lex_scan Outside stack (json_quote str) = Some stack.
Proof. unfold json_quote. simpl. now rewrite lex_escape. Qed.

Lemma lex_bare (s : string) (stack : list bracket) :
  bare s = true -> lex_scan Outside stack s = Some stack.
Proof.
  induction s as [|c s IH]; intros H; [reflexivity|].
  cbn [bare] in H. apply andb_true_iff in H as [Hc Hs].
  cbn [lex_scan].
  repeat match goal with
         | |- context [Ascii.eqb c ?x] =>
             destruct (Ascii.eqb_spec c x) as [->|?]; [discriminate Hc|]
         end.
  rewrite Hc, orb_true_r. now apply IH.
Qed.

Lemma bare_digits (d : Decimal.uint) : bare (NilEmpty.string_of_uint d) = true.
Proof. induction d; simpl; try reflexivity; exact IHd. Qed.

Lemma bare_Itoa (n : Z) : bare (GoInt.Itoa n) = true.
Proof.
  unfold GoInt.Itoa, NilZero.string_of_int.
  destruct (Z.to_int n) as [d|d]; unfold NilZero.string_of_uint;
    destruct d; try reflexivity; apply (bare_digits (_ d)) || apply bare_digits.
Qed.


Lemma lexes_skip (stack : list bracket) : lexes skip stack stack.
Proof. split; [apply appends_skip | reflexivity]. Qed.

Lemma lexes_panic (msg : string) (stack stack' : list bracket) :
  lexes (panic msg) stack stack'.
Proof. split; [apply appends_panic | exact I]. Qed.

Lemma lexes_writeStr (str : string) (stack stack' : list bracket) :
  lex_scan Outside stack str = Some stack' -> lexes (writeStr str) stack stack'.
Proof. intros H. split; [apply appends_writeStr | exact H]. Qed.

Lemma lexes_seq (a b : Ser) (stack stack1 stack2 : list bracket) :
  lexes a stack stack1 -> lexes b stack1 stack2 -> lexes (a ;; b) stack stack2.
Proof.
  intros [Ha Hla] [Hb Hlb]. split; [now apply appends_seq|].
  unfold seq. destruct (a "") as [ja|msg]; [|exact I].
  rewrite (Hb ja). destruct (b "") as [jb|msg]; [|exact I].
  rewrite (lex_scan_app ja Outside stack stack1 jb Hla). exact Hlb.
Qed.

Lemma lexes_when (b : bool) (a : Ser) (stack : list bracket) :
  lexes a stack stack -> lexes (when b a) stack stack.
Proof. intros Ha. destruct b; [exact Ha | apply lexes_skip]. Qed.

Lemma lexes_eval {A : Type} (r : result A) (k : A -> Ser) (stack stack' : list bracket) :
  (forall x, lexes (k x) stack stack') -> lexes (eval r k) stack stack'.
Proof. intros Hk. destruct r; [apply Hk | apply lexes_panic]. Qed.

Lemma lexes_forEach_from {A : Type} (f : Z -> A -> Ser) (l : list A)
    (stack : list bracket) :
  All (fun x => forall i, lexes (f i x) stack stack) l ->
  forall i, lexes (forEach_from f i l) stack stack.
Proof.
  induction l as [|x l IH]; intros Hall i; cbn [forEach_from].
  - apply lexes_skip.
  - destruct Hall as [Hx Hl]. eapply lexes_seq; [apply Hx | now apply IH].
Qed.

Lemma lexes_forEach {A : Type} (l : list A) (f : Z -> A -> Ser) (stack : list bracket) :
  All (fun x => forall i, lexes (f i x) stack stack) l ->
  lexes (forEach l f) stack stack.
Proof. intros Hall. now apply lexes_forEach_from. Qed.

Lemma lexes_writeString (str : string) (stack : list bracket) :
  lexes (writeString str) stack stack.
Proof.
  split; [apply appends_writeString|].
  rewrite writeString_spec. cbn [String.append]. apply lex_quote.
Qed.

Lemma lexes_writeInt (n : Z) (stack : list bracket) : lexes (writeInt n) stack stack.
Proof.
  split; [apply appends_writeInt|].
  rewrite writeInt_Itoa. cbn [String.append]. apply lex_bare, bare_Itoa.
Qed.

Lemma lexes_writeInt64 (n : Z) (stack : list bracket) : lexes (writeInt64 n) stack stack.
Proof.
  split; [apply appends_writeInt64|].
  rewrite writeInt64_Itoa. cbn [String.append]. apply lex_bare, bare_Itoa.
Qed.

Lemma lexes_writeBool (b : bool) (stack : list bracket) : lexes (writeBool b) stack stack.
Proof. split; [apply appends_writeBool | now destruct b]. Qed.

Lemma lexes_writeNull (stack : list bracket) : lexes writeNull stack stack.
Proof. split; [apply appends_writeNull | reflexivity]. Qed.

Lemma lexes_writeOperator (t : token.Token) (stack : list bracket) :
  lexes (writeOperator t) stack stack.
Proof.
  unfold writeOperator. destruct (operatorStrings t) as [cached|] eqn:E.
  - apply lexes_writeStr.
    destruct t; simpl in E; try discriminate; injection E as <-; reflexivity.
  - apply lexes_writeString.
Qed.

Lemma lexes_writePosition (node : NodePos) (stack : list bracket) :
  lexes (writePosition node) stack stack.
Proof.
  unfold writePosition.
  eapply lexes_seq; [apply lexes_writeStr; reflexivity|].
  eapply lexes_seq; [apply lexes_eval; intro; apply lexes_writeInt|].
  eapply lexes_seq; [apply lexes_writeStr; reflexivity|].
  apply lexes_eval; intro; apply lexes_writeInt.
Qed.

Lemma lexes_writePositionStartOnly (start : Idx) (stack : list bracket) :
  lexes (writePositionStartOnly start) stack stack.
Proof.
  unfold writePositionStartOnly.
  eapply lexes_seq; [apply lexes_writeStr; reflexivity | apply lexes_writeInt].
Qed.


Section Lexical.

(** [strconv.FormatFloat] writes a finite number with digits, a sign, a dot
    and an exponent letter. *)
Hypothesis FormatFloat_finite_bare :
  forall n : ast.float64, bare (FormatFloat_finite n) = true.

Lemma lexes_writeNumber (n : ast.float64) (stack : list bracket) :
  lexes (writeNumber n) stack stack.
Proof.
  unfold writeNumber.
  match goal with |- lexes (if ?b then _ else _) _ _ => destruct b end;
    [apply lexes_writeInt64|].
  apply lexes_writeStr, lex_bare. unfold FormatFloat.
  destruct n as [| [|] | |]; try reflexivity; apply FormatFloat_finite_bare.
Qed.

(** One visit method: the literals are scanned, the helpers and the children
    leave the open brackets as they find them. *)
Ltac lexes_visit IH :=
  repeat first
    [ apply lexes_writeString | apply lexes_writeInt | apply lexes_writeInt64
    | apply lexes_writeBool | apply lexes_writeNull | apply lexes_writeNumber
    | apply lexes_writeOperator | apply lexes_writePosition
    | apply lexes_writePositionStartOnly
    | apply lexes_skip | apply lexes_panic
    | lazymatch goal with
      | |- lexes (VisitWith ?x) _ _ => apply IH
      | |- lexes (writeStr _) _ _ => apply lexes_writeStr; lazy; reflexivity
      | |- lexes (forEach ?l ?f) _ _ =>
          apply lexes_forEach;
          lazymatch goal with
          | |- All ?P ?l0 =>
              refine ((fix go (l1 : list _) : All P l1 :=
                         match l1 return All P l1 with
                         | [] => I
                         | x :: l' => conj (_ : P x) (go l')
                         end) l0);
              cbv beta; intro
          end
      | |- lexes (if ?b then _ else _) _ _ => destruct b
      | |- lexes (match ?x with _ => _ end) _ _ => destruct x
      end
    | eapply lexes_seq | apply lexes_when | apply lexes_eval; intro
    | progress cbv beta zeta
    | lazymatch goal with
      | |- lexes ?t _ _ => let h := head_of t in progress unfold h
      end ].

Lemma VisitWith_lexes_all :
  forall (node : ast.Node) (stack : list bracket), lexes (VisitWith node) stack stack.
Proof.
  fix IH 1. intros node stack.
  destruct node; cbn [VisitWith]; lexes_visit IH.
Qed.

(** X22. Whatever the tree, the text a visit leaves is lexically sound JSON:
    every string is closed, holds no raw control byte and no escape but
    JSON's; every brace and bracket outside the strings is closed, in the
    order of nesting; and nothing else stands outside the strings but
    commas, colons, numbers and the words of the literals.  The one thing
    asked of [strconv] is that it writes a finite number with such bytes. *)
Theorem VisitWith_lexically_sound (node : ast.Node) (json : string) :
  VisitWith node "" = Ok json -> lexically_sound json = true.
Proof.
  intros Hj. destruct (VisitWith_lexes_all node []) as [_ H].
  rewrite Hj in H. unfold lexically_sound. now rewrite H.
Qed.

End Lexical.



End GoFast.

(** * The statements at work on concrete inputs *)

(** A source of two lines, and an error at its fifth byte. *)
Lemma ErrorList_Add_position_witness :
  ErrorList_Add [] ("ab" +:+ String LF "cd") 5 "Unexpected identifier" =
    [ {| Message := "Unexpected identifier"; Line := 2; Column := 2; Offset := 4 |} ].
Proof.
  apply (ErrorList_Add_position [] ("ab" +:+ String LF "cd") 5 "Unexpected identifier").
  - unfold GoInt.min_int, GoInt.max_int. lia.
  - unfold GoInt.max_int, len. simpl. lia.
Defined.

(** The span of a token at the first four bytes of a source. *)
Lemma writePosition_zero_based_witness :
  writePosition (stored (ast.mkSpan 1 5)) "{" = Ok (q "{'start':0,'end':4").
Proof.
  apply (writePosition_zero_based (ast.mkSpan 1 5) "{").
  - simpl. unfold GoInt.max_int. lia.
  - simpl. unfold GoInt.max_int. lia.
Defined.

(** The clause [default:] of a switch, with nothing after it. *)
Lemma empty_body_nodes_serialize_witness :
  VisitWith sample_Token_String "method" sample_FormatFloat_finite sample_int64_overflow
    (ast.NCaseStatement (empty_Case 17 None)) "" =
    Ok (q "{'type':'SwitchCase','test':null,'consequent':[],'start':16}").
Proof.
  destruct (empty_body_nodes_serialize sample_Token_String "method"
              sample_FormatFloat_finite sample_int64_overflow
              sample_written_before_panic)
    as (_ & _ & Hcase & _).
  apply (Hcase 17 None "" (q "{'type':'SwitchCase','test':null")).
  reflexivity.
Defined.

(** The serializer on the tree of [1 + 250;]. *)
Example VisitWith_sample_sum :
  VisitWith sample_Token_String "method" sample_FormatFloat_finite sample_int64_overflow
    sample_sum "" =
    Ok (q "{'type':'Program','body':[{'type':'ExpressionStatement','expression':{'type':'BinaryExpression','operator':'+','left':{'type':'Literal','value':1,'raw':'1','start':0,'end':1},'right':{'type':'Literal','value':250,'raw':'250','start':4,'end':7},'start':0,'end':7},'start':0,'end':8}],'start':0,'end':8}").
Proof. vm_compute. reflexivity. Qed.

(** The host entry point on a source with an error and on the empty source. *)
Example parseJS_sample_error :
  fst (parseJS sample_Token_String "method" sample_FormatFloat_finite
         sample_int64_overflow sample_written_before_panic
         sample_parser_run (fun program => program)
         (Some "x y") false empty_world) =
    q "{'error':'Unexpected identifier (line 1, column 1)'}".
Proof. vm_compute. reflexivity. Qed.

Example parseJS_sample_empty :
  fst (parseJS sample_Token_String "method" sample_FormatFloat_finite
         sample_int64_overflow sample_written_before_panic
         sample_parser_run (fun program => program)
         (Some "") true empty_world) =
    q "{'type':'Program','body':[]}".
Proof. vm_compute. reflexivity. Qed.

(** [fmt.Sprintf] on a format with a percent sign and a missing argument. *)
Example Sprintf_sample :
  Sprintf "%d%%%s|%v" [AInt (-5); AStr "x"] = "-5%x|%!v(MISSING)".
Proof. reflexivity. Qed.

(** Exponentiation groups to the right and binds tighter than [*]. *)
Example spec_parse_exponent :
  spec_parse "2 ** 3 ** 2 * 4" =
    Some (SBinaryExpression token.Multiply
            (SBinaryExpression token.Exponent (SNumberLiteral "2")
               (SBinaryExpression token.Exponent (SNumberLiteral "3") (SNumberLiteral "2")))
            (SNumberLiteral "4")).
Proof. vm_compute. reflexivity. Qed.

(** A source of three lines, scanned up to its sixth byte. *)
Lemma positionToLineColumn_bounds_witness :
  let '(line, col) :=
    positionToLineColumn ("ab" +:+ String LF ("cd" +:+ String LF "ef")) 6 in
  1 <= line /\ 1 <= col
  /\ (line - 1) + (col - 1)
     <= clamp_offset ("ab" +:+ String LF ("cd" +:+ String LF "ef")) 6.
Proof.
  apply (positionToLineColumn_bounds ("ab" +:+ String LF ("cd" +:+ String LF "ef")) 6).
  unfold GoInt.max_int, len. simpl. lia.
Defined.

Lemma positionToLineColumn_line_monotone_witness :
  fst (positionToLineColumn ("ab" +:+ String LF "cd") 1)
  <= fst (positionToLineColumn ("ab" +:+ String LF "cd") 4).
Proof.
  apply (positionToLineColumn_line_monotone ("ab" +:+ String LF "cd") 1 4).
  - unfold GoInt.max_int, len. simpl. lia.
  - lia.
Defined.

(** A parser at the fourth byte of [let 1x], reporting a fixed message. *)
Lemma parser_error_verbatim_witness :
  exists e : SyntaxError,
    snd (parser_error {| str := "let 1x"; idx := 5; literal := "1"; errors := [] |}
           "Unexpected number" []) = Some e
    /\ last (errors (fst (parser_error
                            {| str := "let 1x"; idx := 5; literal := "1"; errors := [] |}
                            "Unexpected number" []))) = Some e
    /\ Message e = "Unexpected number"
    /\ str (fst (parser_error {| str := "let 1x"; idx := 5; literal := "1"; errors := [] |}
                   "Unexpected number" [])) = "let 1x"
    /\ idx (fst (parser_error {| str := "let 1x"; idx := 5; literal := "1"; errors := [] |}
                   "Unexpected number" [])) = 5
    /\ literal (fst (parser_error {| str := "let 1x"; idx := 5; literal := "1"; errors := [] |}
                       "Unexpected number" [])) = "1".
Proof.
  apply (parser_error_verbatim
           {| str := "let 1x"; idx := 5; literal := "1"; errors := [] |}
           "Unexpected number").
  reflexivity.
Defined.

(** The unset position and the position of the tenth byte. *)
Lemma toESTreePos_order_witness :
  (0 <= 10 -> toESTreePos 0 <= toESTreePos 10)
  /\ (toESTreePos 0 = toESTreePos 10 -> 0 = 10 \/ (0 <= 1 /\ 10 <= 1)).
Proof.
  apply (toESTreePos_order 0 10).
  - unfold GoInt.max_int. lia.
  - unfold GoInt.max_int. lia.
Defined.

Lemma world_ok_sample : world_ok sample_world.
Proof.
  split; [|split].
  - intros a Ha. simpl in *. rewrite !lookup_insert_ne by lia. apply lookup_empty.
  - constructor; [|constructor; [|constructor]].
    + exists ["{"; "}"]%char. repeat split. simpl. lia.
    + exists [zero; zero; zero; zero]. repeat split. simpl. lia.
  - simpl. apply NoDup_cons. split; [|apply NoDup_singleton].
    intros H. apply list_elem_of_singleton in H. discriminate H.
Defined.

(** A tree of 49 bytes sent through the full two-byte buffer on top of a
    pool of two: the buffer is emptied and grows five times. *)
Lemma Serialize_returns_json_witness :
  exists result : gostring,
    fst (Serialize sample_Token_String "method" sample_FormatFloat_finite
           sample_int64_overflow sample_written_before_panic
           second_tree sample_world) = Ok result
    /\ string_value
         (snd (Serialize sample_Token_String "method" sample_FormatFloat_finite
                 sample_int64_overflow sample_written_before_panic
                 second_tree sample_world)) result =
         q "{'type':'Literal','value':null,'start':0,'end':4}"
    /\ world_ok (snd (Serialize sample_Token_String "method" sample_FormatFloat_finite
                        sample_int64_overflow sample_written_before_panic
                        second_tree sample_world))
    /\ (exists s : Serializer,
          s ∈ pool (snd (Serialize sample_Token_String "method"
                           sample_FormatFloat_finite sample_int64_overflow
                           sample_written_before_panic second_tree sample_world))
          /\ slice_data (out s) = string_data result
          /\ slice_len (out s) = string_len result).
Proof.
  apply (Serialize_returns_json sample_Token_String "method" sample_FormatFloat_finite
           sample_int64_overflow sample_written_before_panic second_tree sample_world
           (q "{'type':'Literal','value':null,'start':0,'end':4}")).
  - exact world_ok_sample.
  - reflexivity.
Defined.

(** The same call, and a call that panics after it wrote 40 bytes: the
    string in the first array reads [ok] after either. *)
Lemma Serialize_writes_own_buffer_witness :
  string_value
    (snd (Serialize sample_Token_String "method" sample_FormatFloat_finite
            sample_int64_overflow sample_written_before_panic
            second_tree sample_world))
    {| string_data := 0; string_len := 2 |} =
  string_value sample_world {| string_data := 0; string_len := 2 |}
  /\ string_value
       (snd (Serialize sample_Token_String "method" sample_FormatFloat_finite
               sample_int64_overflow sample_written_before_panic
               panicking_tree sample_world))
       {| string_data := 0; string_len := 2 |} =
     string_value sample_world {| string_data := 0; string_len := 2 |}.
Proof.
  split.
  - apply (Serialize_writes_own_buffer sample_Token_String "method"
             sample_FormatFloat_finite sample_int64_overflow
             sample_written_before_panic second_tree sample_world
             {| string_data := 0; string_len := 2 |}).
    + exact world_ok_sample.
    + simpl. lia.
    + intros s Hs. injection Hs as <-. simpl. lia.
  - apply (Serialize_writes_own_buffer sample_Token_String "method"
             sample_FormatFloat_finite sample_int64_overflow
             sample_written_before_panic panicking_tree sample_world
             {| string_data := 0; string_len := 2 |}).
    + exact world_ok_sample.
    + simpl. lia.
    + intros s Hs. injection Hs as <-. simpl. lia.
Defined.

(** The second call of the lemma above does panic. *)
Example Serialize_panicking_sample :
  fst (Serialize sample_Token_String "method" sample_FormatFloat_finite
         sample_int64_overflow sample_written_before_panic
         panicking_tree sample_world) =
    Panic "runtime error: invalid memory address or nil pointer dereference".
Proof. vm_compute. reflexivity. Qed.

(** The array [[1, , 250]], with a hole in the middle. *)
Lemma VisitArrayLiteral_elements_witness :
  serialize (VisitWith sample_Token_String "method" sample_FormatFloat_finite
               sample_int64_overflow) None "" = Ok "null"
  /\ VisitWith sample_Token_String "method" sample_FormatFloat_finite sample_int64_overflow
       (ast.NArrayLiteral sample_array) "" =
       Ok ("" +:+ q "{'type':'ArrayExpression','elements':["
              +:+ join_commas
                    [ q "{'type':'Literal','value':1,'raw':'1','start':1,'end':2}";
                      "null";
                      q "{'type':'Literal','value':250,'raw':'250','start':6,'end':9}" ]
              +:+ "]," +:+ position_text (ast.ArrayLiteral_span sample_array) +:+ "}").
Proof.
  apply (VisitArrayLiteral_elements sample_Token_String "method"
           sample_FormatFloat_finite sample_int64_overflow sample_array).
  repeat constructor.
Defined.

(** The template [`a${x}b`]: two quasis, the second one the tail. *)
Lemma VisitTemplateLiteral_tail_witness :
  VisitWith sample_Token_String "method" sample_FormatFloat_finite sample_int64_overflow
    (ast.NTemplateLiteral sample_template) "" =
    Ok ("" +:+ q "{'type':'TemplateLiteral','quasis':["
           +:+ join_commas (quasis_texts (ast.TemplateLiteral_Elements sample_template))
           +:+ q "],'expressions':["
           +:+ join_commas [ q "{'type':'Identifier','name':'x','start':4,'end':5}" ]
           +:+ "]," +:+ position_text (ast.TemplateLiteral_span sample_template) +:+ "}").
Proof.
  apply (VisitTemplateLiteral_tail sample_Token_String "method"
           sample_FormatFloat_finite sample_int64_overflow sample_template).
  repeat constructor.
Defined.

(** The two quasis of [`a${x}b`] as they are written. *)
Example quasis_texts_sample :
  quasis_texts (ast.TemplateLiteral_Elements sample_template) =
    [ q "{'type':'TemplateElement','value':{'raw':'a','cooked':'a'},'tail':false,'start':1,'end':2}";
      q "{'type':'TemplateElement','value':{'raw':'b','cooked':'b'},'tail':true,'start':6,'end':7}" ].
Proof. vm_compute. reflexivity. Qed.

(** The last byte of a line and the first byte of the next one. *)
Lemma positionToLineColumn_injective_witness :
  positionToLineColumn ("ab" +:+ String LF "cd") 2
  <> positionToLineColumn ("ab" +:+ String LF "cd") 3.
Proof.
  apply (positionToLineColumn_injective ("ab" +:+ String LF "cd") 2 3).
  - unfold GoInt.max_int, len. simpl. lia.
  - unfold len. simpl. lia.
  - unfold len. simpl. lia.
  - lia.
Defined.

(** The operators [+] and [-]. *)
Lemma writeOperator_distinct_witness :
  writeOperator sample_Token_String token.Plus ""
  <> writeOperator sample_Token_String token.Minus "".
Proof.
  apply (writeOperator_distinct sample_Token_String token.Plus token.Minus
           (q "'+'") (q "'-'")).
  - reflexivity.
  - reflexivity.
  - discriminate.
Defined.

(** The member [static { x }], its block stamped with the scope 3. *)
Lemma VisitClassStaticBlock_body_witness :
  VisitWith sample_Token_String "method" sample_FormatFloat_finite sample_int64_overflow
    (ast.NClassStaticBlock
       {| ast.ClassStaticBlock_Block :=
            BlockStatement_stamped (ast.ClassStaticBlock_Block sample_static) 3;
          ast.ClassStaticBlock_span := ast.ClassStaticBlock_span sample_static |}) "" =
    Ok ("" +:+ q "{'type':'StaticBlock','body':["
           +:+ join_commas
                 [ q "{'type':'ExpressionStatement','expression':{'type':'Identifier','name':'x','start':9,'end':10},'start':9,'end':10}" ]
           +:+ "]," +:+ position_text (ast.ClassStaticBlock_span sample_static) +:+ "}").
Proof.
  apply (VisitClassStaticBlock_body sample_Token_String "method"
           sample_FormatFloat_finite sample_int64_overflow sample_static 3).
  repeat constructor.
Defined.

(** The tree of [1 + 250;]. *)
Lemma VisitWith_lexically_sound_witness :
  lexically_sound
    (q "{'type':'Program','body':[{'type':'ExpressionStatement','expression':{'type':'BinaryExpression','operator':'+','left':{'type':'Literal','value':1,'raw':'1','start':0,'end':1},'right':{'type':'Literal','value':250,'raw':'250','start':4,'end':7},'start':0,'end':7},'start':0,'end':8}],'start':0,'end':8}")
  = true.
Proof.
  apply (VisitWith_lexically_sound sample_Token_String "method"
           sample_FormatFloat_finite sample_int64_overflow
           ltac:(intros n; reflexivity) sample_sum).
  vm_compute. reflexivity.
Defined.

(** A stamped block, function expression, function declaration and arrow
    function, each with its [scopeContext] field before its position. *)
Lemma scopeContext_field_iff_stamped_witness :
  VisitWith sample_Token_String "method" sample_FormatFloat_finite sample_int64_overflow
    (ast.NBlockStatement (BlockStatement_stamped sample_block 3)) "" =
    Ok (q "{'type':'BlockStatement','body':[{'type':'ExpressionStatement','expression':{'type':'Identifier','name':'x','start':2,'end':3},'start':2,'end':3}],'scopeContext':3,'start':0,'end':5}")
  /\ VisitWith sample_Token_String "method" sample_FormatFloat_finite sample_int64_overflow
       (ast.NFunctionLiteral sample_function) "" =
       Ok (q "{'type':'FunctionExpression','id':{'type':'Identifier','name':'f','scopeContext':1,'start':15,'end':16},'params':[{'type':'Identifier','name':'x','scopeContext':2,'start':17,'end':18},{'type':'RestElement','argument':{'type':'Identifier','name':'r','scopeContext':2,'start':23,'end':24}}],'body':{'type':'BlockStatement','body':[{'type':'ExpressionStatement','expression':{'type':'Identifier','name':'x','scopeContext':2,'start':28,'end':29},'start':28,'end':29}],'scopeContext':3,'start':26,'end':31},'generator':false,'async':true,'scopeContext':2,'start':0,'end':31}")
  /\ VisitWith sample_Token_String "method" sample_FormatFloat_finite sample_int64_overflow
       (ast.NArrowFunctionLiteral sample_arrow) "" =
       Ok (q "{'type':'ArrowFunctionExpression','id':null,'params':[{'type':'Identifier','name':'x','scopeContext':4,'start':0,'end':1}],'body':{'type':'Identifier','name':'x','scopeContext':4,'start':5,'end':6},'expression':true,'async':false,'scopeContext':4,'start':0,'end':6}")
  /\ VisitWith sample_Token_String "method" sample_FormatFloat_finite sample_int64_overflow
       (ast.NFunctionDeclaration sample_declaration) "" =
       Ok (q "{'type':'FunctionDeclaration','id':{'type':'Identifier','name':'f','scopeContext':1,'start':15,'end':16},'params':[{'type':'Identifier','name':'x','scopeContext':2,'start':17,'end':18},{'type':'RestElement','argument':{'type':'Identifier','name':'r','scopeContext':2,'start':23,'end':24}}],'body':{'type':'BlockStatement','body':[{'type':'ExpressionStatement','expression':{'type':'Identifier','name':'x','scopeContext':2,'start':28,'end':29},'start':28,'end':29}],'scopeContext':3,'start':26,'end':31},'generator':false,'async':true,'scopeContext':2,'start':0,'end':31}").
Proof.
  destruct (scopeContext_field_iff_stamped sample_Token_String "method"
              sample_FormatFloat_finite sample_int64_overflow)
    as (_ & _ & Hblock & Hfunction & Harrow & Hdeclaration & _).
  split; [|split; [|split]].
  - apply (Hblock (BlockStatement_stamped sample_block 3)
             [ q "{'type':'ExpressionStatement','expression':{'type':'Identifier','name':'x','start':2,'end':3},'start':2,'end':3}" ]
             "").
    repeat constructor.
  - apply (Hfunction sample_function
             [ q "{'type':'Identifier','name':'x','scopeContext':2,'start':17,'end':18}" ]
             (Some (q "{'type':'Identifier','name':'r','scopeContext':2,'start':23,'end':24}"))
             [ q "{'type':'ExpressionStatement','expression':{'type':'Identifier','name':'x','scopeContext':2,'start':28,'end':29},'start':28,'end':29}" ]
             "").
    + repeat constructor.
    + reflexivity.
    + repeat constructor.
  - apply (Harrow sample_arrow
             [ q "{'type':'Identifier','name':'x','scopeContext':4,'start':0,'end':1}" ]
             None
             (q "{'type':'Identifier','name':'x','scopeContext':4,'start':5,'end':6}")
             "").
    + repeat constructor.
    + exact I.
    + reflexivity.
  - apply (Hdeclaration sample_declaration
             [ q "{'type':'Identifier','name':'x','scopeContext':2,'start':17,'end':18}" ]
             (Some (q "{'type':'Identifier','name':'r','scopeContext':2,'start':23,'end':24}"))
             [ q "{'type':'ExpressionStatement','expression':{'type':'Identifier','name':'x','scopeContext':2,'start':28,'end':29},'start':28,'end':29}" ]
             "").
    + repeat constructor.
    + reflexivity.
    + repeat constructor.
Defined.

(** C8 as it was stated fails on a block and on an identifier that are not
    written by their own visit method: the block of [static { x }] is stamped
    3 and the identifier of [#secret] is stamped 5, and neither text holds a
    [scopeContext] field. *)
Lemma scopeContext_field_not_everywhere :
  (ast.BlockStatement_ScopeContext (ast.ClassStaticBlock_Block sample_static_stamped) = 3
   /\ VisitWith sample_Token_String "method" sample_FormatFloat_finite
        sample_int64_overflow (ast.NClassStaticBlock sample_static_stamped) "" =
        Ok (q "{'type':'StaticBlock','body':[{'type':'ExpressionStatement','expression':{'type':'Identifier','name':'x','start':9,'end':10},'start':9,'end':10}],'start':0,'end':12}")
   /\ contains "scopeContext"
        (q "{'type':'StaticBlock','body':[{'type':'ExpressionStatement','expression':{'type':'Identifier','name':'x','start':9,'end':10},'start':9,'end':10}],'start':0,'end':12}")
      = false)
  /\ (ast.Identifier_ScopeContext (ast.PrivateIdentifier_Identifier sample_private) = 5
      /\ VisitWith sample_Token_String "method" sample_FormatFloat_finite
           sample_int64_overflow (ast.NPrivateIdentifier sample_private) "" =
           Ok (q "{'type':'PrivateIdentifier','name':'secret','start':0,'end':7}")
      /\ contains "scopeContext"
           (q "{'type':'PrivateIdentifier','name':'secret','start':0,'end':7}") = false).
Proof. repeat split; vm_compute; reflexivity. Qed.

(** A message with a byte that is part of no UTF-8 sequence, between two
    letters, and a message in UTF-8. *)
Lemma errorJSON_well_formed_witness :
  exists value : string,
    errorJSON (String "a" (String "255" "b")) = q "{'error':" +:+ value +:+ "}"
    /\ is_json_string value = errorJSON_safe (String "a" (String "255" "b"))
    /\ json_decode value =
         (if errorJSON_safe (String "a" (String "255" "b"))
          then Some (reencode (String "a" (String "255" "b"))) else None)
    /\ (valid_utf8 (String "a" (String "255" "b")) = true ->
        reencode (String "a" (String "255" "b")) = String "a" (String "255" "b")).
Proof. exact (errorJSON_well_formed (String "a" (String "255" "b"))). Defined.

Example errorJSON_invalid_byte :
  errorJSON (String "a" (String "255" "b")) =
    q "{'error':'a" +:+ String "239" (String "191" (String "189" "b")) +:+ q "'}"
  /\ valid_utf8 (String "a" (String "255" "b")) = false.
Proof. split; vm_compute; reflexivity. Qed.

(** The two bytes of U+00E9 and the four of U+1F600 are copied as they are. *)
Example errorJSON_utf8 :
  errorJSON (String "195" (String "169" (String "240" (String "159" (String "152" (String "128" "")))))) =
    q "{'error':'"
    +:+ String "195" (String "169" (String "240" (String "159" (String "152" (String "128" "")))))
    +:+ q "'}"
  /\ valid_utf8 (String "195" (String "169" (String "240" (String "159" (String "152" (String "128" "")))))) = true.
Proof. split; vm_compute; reflexivity. Qed.
